(** * Playsphere: the real-time messaging relay and the storage layer
      behind it

    A shallow embedding of

    - [shared/schema.ts]: the tables of users, groups, memberships,
      messages, games, ideas and votes, with their keys,
    - [server/storage.ts]: [createMessage], the group functions, [getUser],
      [deleteUser] and the idea functions,
    - [server/websocket.ts]: the ['message'] and ['close'] handlers that
      [setupWebSocket] installs on every connection.

    Conventions.  A JavaScript [number] that holds an identifier or a
    counter is a [Z].  A column of SQL type [integer] or [serial] holds an
    [int4]: a statement whose parameter for such a column is outside the
    range is rejected when its parameters are bound, before it runs, and so
    is one with a text parameter that holds U+0000.  ([NaN] and fractions
    are rejected the same way; the model has no value for them.)  A [Date]
    is the number of milliseconds it holds.  A table is the list of its
    rows in insertion order.  A [serial] key is drawn from a sequence, which
    keeps what it gave out when the insert fails afterwards or the
    transaction is rolled back.  A [Map<number, WebSocket>] is a
    [gmap Z Socket].  A function of the storage layer returns a value or
    throws ([None]) and leaves a database either way; the handlers of the
    relay return the new state together with the list of [send] calls they
    made, in order.  One run of a handler is one step: its awaits are not
    interleaved with other handlers.  A parsed frame is taken at the type
    the handler gives it, [WSMessage], with one exception: the [toUserId]
    of a message frame may be absent or [null], the one missing field
    that the handler turns into a stored row. *)

From stdpp Require Import base numbers strings list gmap.

Local Open Scope Z_scope.

(** ** Values a column takes *)

Definition int4_min : Z := -2147483648.
Definition int4_max : Z := 2147483647.

(** The range of [integer] and [serial]. *)
Definition int4 (z : Z) : bool := (int4_min <=? z) && (z <=? int4_max).

(** What [text] holds: any string without U+0000.  A string is the list of
    the bytes of its UTF-8 encoding. *)
Fixpoint pg_text (s : string) : bool :=
  match s with
  | EmptyString => true
  | String c rest => negb (Ascii.eqb c Ascii.zero) && pg_text rest
  end.

(** A nullable value is fine when it is null or when what it holds is. *)
Definition nullable_ref (ok : Z → bool) (r : option Z) : bool :=
  match r with
  | None => true
  | Some k => ok k
  end.

(** ** Rows of [shared/schema.ts] *)

(** [users]: only the columns the modelled functions read. *)
Record User := {
  user_id : Z;
  username : string
}.

(** [group_chats]. *)
Record Group := {
  group_id : Z;
  group_name : string;
  ownerId : Z
}.

(** [group_members]. *)
Record GroupMember := {
  gm_id : Z;
  gm_groupId : Z;
  gm_userId : Z
}.

(** [messages]; [toUserId], [groupId] and [readAt] are nullable. *)
Record Message := {
  msg_id : Z;
  fromUserId : Z;
  toUserId : option Z;
  groupId : option Z;
  content : string;
  timestamp : Z;
  isRead : bool;
  readAt : option Z;
  msg_type : string
}.

(** [Omit<Message, "id">], the argument of [createMessage]. *)
Record NewMessage := {
  new_fromUserId : Z;
  new_toUserId : option Z;
  new_groupId : option Z;
  new_content : string;
  new_timestamp : Z;
  new_isRead : bool;
  new_readAt : option Z;
  new_type : string
}.

(** [games]. *)
Record Game := {
  game_id : Z;
  game_name : string
}.

(** [ideas]. *)
Record Idea := {
  idea_id : Z;
  gameId : Z;
  idea_userId : Z;
  title : string;
  description : string;
  votes : Z;
  idea_createdAt : Z
}.

(** [idea_votes]. *)
Record IdeaVote := {
  vote_id : Z;
  vote_ideaId : Z;
  vote_userId : Z;
  vote_createdAt : Z
}.

(** The database: the tables, and the sequences behind the [serial] keys
    the modelled code draws from. *)
Record Db := {
  users : list User;
  groups : list Group;
  groups_seq : Z;
  groupMembers : list GroupMember;
  groupMembers_seq : Z;
  messages : list Message;
  messages_seq : Z;
  games : list Game;
  ideas : list Idea;
  ideas_seq : Z;
  ideaVotes : list IdeaVote;
  ideaVotes_seq : Z
}.

Definition set_users (us : list User) (d : Db) : Db :=
  {| users := us; groups := groups d; groups_seq := groups_seq d;
     groupMembers := groupMembers d; groupMembers_seq := groupMembers_seq d;
     messages := messages d; messages_seq := messages_seq d;
     games := games d; ideas := ideas d; ideas_seq := ideas_seq d;
     ideaVotes := ideaVotes d; ideaVotes_seq := ideaVotes_seq d |}.

Definition set_groups (gs : list Group) (d : Db) : Db :=
  {| users := users d; groups := gs; groups_seq := groups_seq d;
     groupMembers := groupMembers d; groupMembers_seq := groupMembers_seq d;
     messages := messages d; messages_seq := messages_seq d;
     games := games d; ideas := ideas d; ideas_seq := ideas_seq d;
     ideaVotes := ideaVotes d; ideaVotes_seq := ideaVotes_seq d |}.

Definition set_groups_seq (seq : Z) (d : Db) : Db :=
  {| users := users d; groups := groups d; groups_seq := seq;
     groupMembers := groupMembers d; groupMembers_seq := groupMembers_seq d;
     messages := messages d; messages_seq := messages_seq d;
     games := games d; ideas := ideas d; ideas_seq := ideas_seq d;
     ideaVotes := ideaVotes d; ideaVotes_seq := ideaVotes_seq d |}.

Definition set_groupMembers (rs : list GroupMember) (d : Db) : Db :=
  {| users := users d; groups := groups d; groups_seq := groups_seq d;
     groupMembers := rs; groupMembers_seq := groupMembers_seq d;
     messages := messages d; messages_seq := messages_seq d;
     games := games d; ideas := ideas d; ideas_seq := ideas_seq d;
     ideaVotes := ideaVotes d; ideaVotes_seq := ideaVotes_seq d |}.

Definition set_groupMembers_seq (seq : Z) (d : Db) : Db :=
  {| users := users d; groups := groups d; groups_seq := groups_seq d;
     groupMembers := groupMembers d; groupMembers_seq := seq;
     messages := messages d; messages_seq := messages_seq d;
     games := games d; ideas := ideas d; ideas_seq := ideas_seq d;
     ideaVotes := ideaVotes d; ideaVotes_seq := ideaVotes_seq d |}.

Definition set_messages (ms : list Message) (d : Db) : Db :=
  {| users := users d; groups := groups d; groups_seq := groups_seq d;
     groupMembers := groupMembers d; groupMembers_seq := groupMembers_seq d;
     messages := ms; messages_seq := messages_seq d;
     games := games d; ideas := ideas d; ideas_seq := ideas_seq d;
     ideaVotes := ideaVotes d; ideaVotes_seq := ideaVotes_seq d |}.

Definition set_messages_seq (seq : Z) (d : Db) : Db :=
  {| users := users d; groups := groups d; groups_seq := groups_seq d;
     groupMembers := groupMembers d; groupMembers_seq := groupMembers_seq d;
     messages := messages d; messages_seq := seq;
     games := games d; ideas := ideas d; ideas_seq := ideas_seq d;
     ideaVotes := ideaVotes d; ideaVotes_seq := ideaVotes_seq d |}.

Definition set_ideas (rows : list Idea) (d : Db) : Db :=
  {| users := users d; groups := groups d; groups_seq := groups_seq d;
     groupMembers := groupMembers d; groupMembers_seq := groupMembers_seq d;
     messages := messages d; messages_seq := messages_seq d;
     games := games d; ideas := rows; ideas_seq := ideas_seq d;
     ideaVotes := ideaVotes d; ideaVotes_seq := ideaVotes_seq d |}.

Definition set_ideas_seq (seq : Z) (d : Db) : Db :=
  {| users := users d; groups := groups d; groups_seq := groups_seq d;
     groupMembers := groupMembers d; groupMembers_seq := groupMembers_seq d;
     messages := messages d; messages_seq := messages_seq d;
     games := games d; ideas := ideas d; ideas_seq := seq;
     ideaVotes := ideaVotes d; ideaVotes_seq := ideaVotes_seq d |}.

Definition set_ideaVotes (vs : list IdeaVote) (d : Db) : Db :=
  {| users := users d; groups := groups d; groups_seq := groups_seq d;
     groupMembers := groupMembers d; groupMembers_seq := groupMembers_seq d;
     messages := messages d; messages_seq := messages_seq d;
     games := games d; ideas := ideas d; ideas_seq := ideas_seq d;
     ideaVotes := vs; ideaVotes_seq := ideaVotes_seq d |}.

Definition set_ideaVotes_seq (seq : Z) (d : Db) : Db :=
  {| users := users d; groups := groups d; groups_seq := groups_seq d;
     groupMembers := groupMembers d; groupMembers_seq := groupMembers_seq d;
     messages := messages d; messages_seq := messages_seq d;
     games := games d; ideas := ideas d; ideas_seq := ideas_seq d;
     ideaVotes := ideaVotes d; ideaVotes_seq := seq |}.

(** The rows of a database, without its sequences. *)
Definition tables (d : Db)
    : list User * list Group * list GroupMember * list Message * list Game
      * list Idea * list IdeaVote :=
  (users d, groups d, groupMembers d, messages d, games d, ideas d, ideaVotes d).

(** ** Foreign keys of the schema *)

(** [uid] is the id of a row of [users].  An id is an [int4]. *)
Definition user_exists (db : Db) (uid : Z) : bool :=
  int4 uid && existsb (λ u, user_id u =? uid) (users db).

Definition group_exists (db : Db) (gid : Z) : bool :=
  int4 gid && existsb (λ g, group_id g =? gid) (groups db).

Definition game_exists (db : Db) (gid : Z) : bool :=
  int4 gid && existsb (λ g, game_id g =? gid) (games db).

Definition idea_exists (db : Db) (iid : Z) : bool :=
  int4 iid && existsb (λ i, idea_id i =? iid) (ideas db).

(** [group_members.userId → users.id], [group_members.groupId →
    group_chats.id]. *)
Definition fk_groupMembers (db : Db) : bool :=
  forallb (λ r, user_exists db (gm_userId r) && group_exists db (gm_groupId r))
          (groupMembers db).

(** [ideas.game_id → games.id], [ideas.user_id → users.id]. *)
Definition fk_ideas (db : Db) : bool :=
  forallb (λ i, game_exists db (gameId i) && user_exists db (idea_userId i))
          (ideas db).


(** ** Calls of the storage layer *)

(** A call returns a value or throws ([None]), and leaves a database
    either way. *)
Definition Op (A : Type) : Type := Db → option A * Db.

Definition op_ret {A} (a : A) : Op A := λ d, (Some a, d).

Definition op_throw {A} : Op A := λ d, (None, d).

Definition op_bind {A B} (m : Op A) (k : A → Op B) : Op B :=
  λ d, match m d with
       | (Some a, d') => k a d'
       | (None, d') => (None, d')
       end.

Notation "x <-- m ;; k" := (op_bind m (λ x, k))
  (at level 100, m at next level, right associativity).
Notation "m ;;> k" := (op_bind m (λ _, k))
  (at level 100, right associativity).

(** A read that cannot throw. *)
Definition op_read {A} (f : Db → A) : Op A := λ d, (Some (f d), d).

(** A call of a function that reads only. *)
Definition op_call {A} (f : Db → option A) : Op A := λ d, (f d, d).

(** The [integer] parameters of a statement are bound. *)
Definition bound (params : list Z) : bool := forallb int4 params.

(** A [select] with [integer] parameters. *)
Definition query {A} (params : list Z) (f : Db → A) (d : Db) : option A :=
  if bound params then Some (f d) else None.

(** ** [createMessage], [isGroupMember], [getGroupMembers] *)

(** The references of a row of [messages]. *)
Definition message_refs (message : NewMessage) (db : Db) : bool :=
  user_exists db (new_fromUserId message)
  && nullable_ref (user_exists db) (new_toUserId message)
  && nullable_ref (group_exists db) (new_groupId message).

(** The parameters of [insert into messages] are bound. *)
Definition message_bound (message : NewMessage) : bool :=
  int4 (new_fromUserId message)
  && nullable_ref int4 (new_toUserId message)
  && nullable_ref int4 (new_groupId message)
  && pg_text (new_content message)
  && pg_text (new_type message).

(** [createMessage]: [insert into messages values (message) returning *].
    The statement is rejected when a parameter cannot be bound, and when
    the sequence of the ids is exhausted.  Otherwise the id is drawn, and
    the statement throws when a foreign key of the row points at no row;
    the sequence has moved on all the same.  The object the handler passes
    holds an own value for every column but the id. *)
Definition createMessage (message : NewMessage) (db : Db) : option Message * Db :=
  if negb (message_bound message && int4 (messages_seq db)) then (None, db)
  else
    let createdMessage :=
      {| msg_id := messages_seq db;
         fromUserId := new_fromUserId message;
         toUserId := new_toUserId message;
         groupId := new_groupId message;
         content := new_content message;
         timestamp := new_timestamp message;
         isRead := new_isRead message;
         readAt := new_readAt message;
         msg_type := new_type message |} in
    let drawn := set_messages_seq (messages_seq db + 1) db in
    if message_refs message db
    then (Some createdMessage, set_messages (messages db ++ [createdMessage]) drawn)
    else (None, drawn).

(** When [createMessage] inserts. *)
Definition insertable (message : NewMessage) (db : Db) : bool :=
  message_bound message && int4 (messages_seq db) && message_refs message db.

(** Is there a membership row for the pair? *)
Definition member_row (gid uid : Z) (db : Db) : bool :=
  match filter (λ r, gm_groupId r = gid ∧ gm_userId r = uid) (groupMembers db) with
  | [] => false
  | _ :: _ => true
  end.

(** [isGroupMember]. *)
Definition isGroupMember (gid uid : Z) (db : Db) : option bool :=
  query [gid; uid] (member_row gid uid) db.

(** The user ids of the group's membership rows, then the users whose id
    is among them. *)
Definition members_of (gid : Z) (db : Db) : list User :=
  let memberships :=
    gm_userId <$> filter (λ r, gm_groupId r = gid) (groupMembers db) in
  match memberships with
  | [] => []
  | _ :: _ => filter (λ u, user_id u ∈ memberships) (users db)
  end.

(** [getGroupMembers].  The ids of the second query were read from the
    table. *)
Definition getGroupMembers (gid : Z) (db : Db) : option (list User) :=
  query [gid] (members_of gid) db.

(** ** [server/websocket.ts] *)

(** A socket handle is known by its identity only. *)
Definition Socket := nat.

(** [WebSocket.readyState]. *)
Inductive ReadyState := CONNECTING | OPEN | CLOSING | CLOSED.

Global Instance ReadyState_eq_dec : EqDecision ReadyState.
Proof. solve_decision. Defined.

(** The frames a client sends, [WSMessage].  The [toUserId] of a message
    frame is [None] when the parsed object has none or has [null]. *)
Inductive WSMessage :=
| DirectChatMessage (fromUserId : Z) (toUserId : option Z) (content : string)
| GroupChatMessage (fromUserId groupId : Z) (content : string)
| TypingStatus (fromUserId toUserId : Z) (isTyping : bool)
| GroupTypingStatus (fromUserId groupId : Z) (isTyping : bool).

Definition ws_fromUserId (message : WSMessage) : Z :=
  match message with
  | DirectChatMessage f _ _ | GroupChatMessage f _ _
  | TypingStatus f _ _ | GroupTypingStatus f _ _ => f
  end.

(** The objects the relay passes to [JSON.stringify] and [send]. *)
Inductive Frame :=
| FrameMessage (m : Message)
| FrameError (message : string)
| FrameTyping (fromUserId toUserId : Z) (isTyping : bool)
| FrameGroupTyping (fromUserId groupId : Z) (isTyping : bool).

(** The [type] key of a frame. *)
Definition frame_type (f : Frame) : string :=
  match f with
  | FrameMessage m => msg_type m
  | FrameError _ => "error"
  | FrameTyping _ _ _ => "typing"
  | FrameGroupTyping _ _ _ => "groupTyping"
  end.


(** [{ ...newMessage, type: 'groupMessage' }]. *)
Definition as_groupMessage (newMessage : Message) : Message :=
  {| msg_id := msg_id newMessage;
     fromUserId := fromUserId newMessage;
     toUserId := toUserId newMessage;
     groupId := groupId newMessage;
     content := content newMessage;
     timestamp := timestamp newMessage;
     isRead := isRead newMessage;
     readAt := readAt newMessage;
     msg_type := "groupMessage" |}.

(** One call of [send]: the socket and the frame. *)
Definition Sent : Type := Socket * Frame.

(** The state [setupWebSocket] closes over: the [clients] map, the
    [userId] variable of every connection (absent while [undefined]) and
    the database behind [storage]. *)
Record Relay := {
  clients : gmap Z Socket;
  userId : gmap Socket Z;
  db : Db
}.

Definition set_db (d : Db) (st : Relay) : Relay :=
  {| clients := clients st; userId := userId st; db := d |}.

(** [if (message.fromUserId) { userId = ...; clients.set(...) }]: zero is
    the one falsy identifier. *)
Definition register (ws : Socket) (uid : Z) (st : Relay) : Relay :=
  if bool_decide (uid ≠ 0)
  then {| clients := <[uid := ws]> (clients st);
          userId := <[ws := uid]> (userId st);
          db := db st |}
  else st.

(** [const s = clients.get(uid); if (s?.readyState === WebSocket.OPEN)
    s.send(frame)]. *)
Definition send_if_open (readyState : Socket → ReadyState)
    (cl : gmap Z Socket) (uid : Z) (frame : Frame) : list Sent :=
  match cl !! uid with
  | Some s => if bool_decide (readyState s = OPEN) then [(s, frame)] else []
  | None => []
  end.

(** The same for the recipient of a message frame: the map has no entry
    for [undefined] or [null], as only numbers are registered. *)
Definition send_to_recipient (readyState : Socket → ReadyState)
    (cl : gmap Z Socket) (toUserId : option Z) (frame : Frame) : list Sent :=
  match toUserId with
  | Some uid => send_if_open readyState cl uid frame
  | None => []
  end.

(** [for (const member of groupMembers) if (member.id !== fromUserId) ...]. *)
Fixpoint fan_out (readyState : Socket → ReadyState) (cl : gmap Z Socket)
    (from : Z) (groupMembers : list User) (frame : Frame) : list Sent :=
  match groupMembers with
  | [] => []
  | member :: rest =>
      (if bool_decide (user_id member ≠ from)
       then send_if_open readyState cl (user_id member) frame
       else [])
      ++ fan_out readyState cl from rest frame
  end.

(** The object literals the handler passes to [createMessage]. *)
Definition direct_message (from : Z) (to : option Z) (text : string) (now : Z)
    : NewMessage :=
  {| new_fromUserId := from;
     new_toUserId := to;
     new_groupId := None;
     new_content := text;
     new_timestamp := now;
     new_isRead := false;
     new_readAt := None;
     new_type := "text" |}.

Definition group_message (from gid : Z) (text : string) (now : Z) : NewMessage :=
  {| new_fromUserId := from;
     new_toUserId := None;
     new_groupId := Some gid;
     new_content := text;
     new_timestamp := now;
     new_isRead := false;
     new_readAt := None;
     new_type := "text" |}.

(** The ['message'] handler of the connection [ws].  [data] is [None] when
    [JSON.parse] throws; [now] is what [new Date()] reads.  An exception
    ends the handler in the [catch]: what was done before it stays, and
    nothing more is sent. *)
Definition on_message (readyState : Socket → ReadyState) (now : Z)
    (ws : Socket) (data : option WSMessage) (st : Relay) : Relay * list Sent :=
  match data with
  | None => (st, [])
  | Some message =>
      let st := register ws (ws_fromUserId message) st in
      match message with
      | DirectChatMessage fromUserId toUserId content =>
          match createMessage (direct_message fromUserId toUserId content now)
                              (db st) with
          | (None, db') => (set_db db' st, [])
          | (Some newMessage, db') =>
              (set_db db' st,
               send_to_recipient readyState (clients st) toUserId
                                 (FrameMessage newMessage)
               ++ [(ws, FrameMessage newMessage)])
          end
      | GroupChatMessage fromUserId groupId content =>
          match isGroupMember groupId fromUserId (db st) with
          | None => (st, [])
          | Some false =>
              (st, [(ws, FrameError "You are not a member of this group")])
          | Some true =>
              match createMessage (group_message fromUserId groupId content now)
                                  (db st) with
              | (None, db') => (set_db db' st, [])
              | (Some newMessage, db') =>
                  match getGroupMembers groupId db' with
                  | None => (set_db db' st, [])
                  | Some groupMembers =>
                      let frame := FrameMessage (as_groupMessage newMessage) in
                      (set_db db' st,
                       fan_out readyState (clients st) fromUserId groupMembers
                               frame
                       ++ [(ws, frame)])
                  end
              end
          end
      | TypingStatus fromUserId toUserId isTyping =>
          (st, send_if_open readyState (clients st) toUserId
                 (FrameTyping fromUserId toUserId isTyping))
      | GroupTypingStatus fromUserId groupId isTyping =>
          match isGroupMember groupId fromUserId (db st) with
          | None | Some false => (st, [])
          | Some true =>
              match getGroupMembers groupId (db st) with
              | None => (st, [])
              | Some groupMembers =>
                  (st, fan_out readyState (clients st) fromUserId groupMembers
                         (FrameGroupTyping fromUserId groupId isTyping))
              end
          end
      end
  end.

(** The ['close'] handler of the connection [ws]:
    [if (userId) clients.delete(userId)]. *)
Definition on_close (ws : Socket) (st : Relay) : Relay :=
  match userId st !! ws with
  | Some uid =>
      if bool_decide (uid ≠ 0)
      then {| clients := delete uid (clients st); userId := userId st; db := db st |}
      else st
  | None => st
  end.

(** The frames of a list of [send] calls that went to the socket [s]. *)
Definition frames_to (s : Socket) (sent : list Sent) : list Frame :=
  snd <$> filter (λ e, fst e = s) sent.







(** ** Runs of the relay *)

(** What happens on a connection: a frame arrives or the socket closes. *)
Inductive Event :=
| Arrives (readyState : Socket → ReadyState) (now : Z) (ws : Socket)
          (data : option WSMessage)
| Closes (ws : Socket).

Definition step (e : Event) (st : Relay) : Relay * list Sent :=
  match e with
  | Arrives readyState now ws data => on_message readyState now ws data st
  | Closes ws => (on_close ws st, [])
  end.

(** The events are handled one after the other, in order. *)
Fixpoint run (es : list Event) (st : Relay) : Relay * list Sent :=
  match es with
  | [] => (st, [])
  | e :: rest =>
      let '(st1, sent1) := step e st in
      let '(st2, sent2) := run rest st1 in
      (st2, sent1 ++ sent2)
  end.


(** What the specification asks of a row of [messages]: a recipient or a
    group, not both and not neither. *)
Definition exactly_one_target (m : Message) : Prop :=
  (is_Some (toUserId m) ∧ groupId m = None)
  ∨ (toUserId m = None ∧ is_Some (groupId m)).

(** What the relay gives: never both. *)
Definition at_most_one_target (m : Message) : Prop :=
  toUserId m = None ∨ groupId m = None.

(** The row a direct-message send inserts: the object literal the handler
    passes to [createMessage], with the id the sequence gives. *)
Definition direct_row (id from : Z) (to : option Z) (text : string) (now : Z)
    : Message :=
  {| msg_id := id; fromUserId := from; toUserId := to; groupId := None;
     content := text; timestamp := now; isRead := false; readAt := None;
     msg_type := "text" |}.

(** The row a group-message send inserts. *)
Definition group_row (id from gid : Z) (text : string) (now : Z) : Message :=
  {| msg_id := id; fromUserId := from; toUserId := None; groupId := Some gid;
     content := text; timestamp := now; isRead := false; readAt := None;
     msg_type := "text" |}.



(** ** Statements of [server/storage.ts]

    The functions below are not run in a transaction (all but
    [toggleIdeaVote]): when a statement throws, what the earlier ones did
    stays.  The foreign keys are [ON DELETE no action]: a delete throws
    when a row it removes is still referenced. *)

Definition group_referenced (d : Db) (gid : Z) : bool :=
  existsb (λ r, gm_groupId r =? gid) (groupMembers d)
  || existsb (λ m, bool_decide (groupId m = Some gid)) (messages d).

Definition user_referenced (d : Db) (uid : Z) : bool :=
  existsb (λ m, (fromUserId m =? uid) || bool_decide (toUserId m = Some uid))
          (messages d)
  || existsb (λ r, gm_userId r =? uid) (groupMembers d)
  || existsb (λ g, ownerId g =? uid) (groups d)
  || existsb (λ i, idea_userId i =? uid) (ideas d)
  || existsb (λ v, vote_userId v =? uid) (ideaVotes d).

Definition idea_referenced (d : Db) (iid : Z) : bool :=
  existsb (λ v, vote_ideaId v =? iid) (ideaVotes d).

(** [delete from messages where P], with the [integer] parameters of
    [P]; the list is empty when they were read from a table. *)
Definition delete_messages_where (params : list Z) (P : Message → Prop)
    `{∀ m, Decision (P m)} : Op unit :=
  λ d, if bound params
       then (Some tt, set_messages (filter (λ m, ¬ P m) (messages d)) d)
       else (None, d).

Definition delete_groupMembers_where (params : list Z) (P : GroupMember → Prop)
    `{∀ r, Decision (P r)} : Op unit :=
  λ d, if bound params
       then (Some tt, set_groupMembers (filter (λ r, ¬ P r) (groupMembers d)) d)
       else (None, d).

Definition delete_ideaVotes_where (params : list Z) (P : IdeaVote → Prop)
    `{∀ v, Decision (P v)} : Op unit :=
  λ d, if bound params
       then (Some tt, set_ideaVotes (filter (λ v, ¬ P v) (ideaVotes d)) d)
       else (None, d).

Definition delete_groups_where (params : list Z) (P : Group → Prop)
    `{∀ g, Decision (P g)} : Op unit :=
  λ d, if bound params
          && negb (existsb (λ g, bool_decide (P g)
                                 && group_referenced d (group_id g))
                           (groups d))
       then (Some tt, set_groups (filter (λ g, ¬ P g) (groups d)) d)
       else (None, d).

Definition delete_users_where (params : list Z) (P : User → Prop)
    `{∀ u, Decision (P u)} : Op unit :=
  λ d, if bound params
          && negb (existsb (λ u, bool_decide (P u)
                                 && user_referenced d (user_id u))
                           (users d))
       then (Some tt, set_users (filter (λ u, ¬ P u) (users d)) d)
       else (None, d).

Definition delete_ideas_where (params : list Z) (P : Idea → Prop)
    `{∀ i, Decision (P i)} : Op unit :=
  λ d, if bound params
          && negb (existsb (λ i, bool_decide (P i)
                                 && idea_referenced d (idea_id i))
                           (ideas d))
       then (Some tt, set_ideas (filter (λ i, ¬ P i) (ideas d)) d)
       else (None, d).

(** [insert into group_chats values (group) returning *]: rejected when
    the owner or the name cannot be bound or the sequence is exhausted;
    with the id drawn, it throws when the owner is no user. *)
Definition insert_group (name : string) (owner : Z) : Op Group :=
  λ d, if negb (int4 owner && pg_text name && int4 (groups_seq d)) then (None, d)
       else
         let createdGroup :=
           {| group_id := groups_seq d; group_name := name; ownerId := owner |} in
         let drawn := set_groups_seq (groups_seq d + 1) d in
         if user_exists d owner
         then (Some createdGroup, set_groups (groups d ++ [createdGroup]) drawn)
         else (None, drawn).

(** [insert into group_members values (groupMember)]. *)
Definition insert_groupMember (gid uid : Z) : Op unit :=
  λ d, if negb (bound [gid; uid] && int4 (groupMembers_seq d)) then (None, d)
       else
         let drawn := set_groupMembers_seq (groupMembers_seq d + 1) d in
         if user_exists d uid && group_exists d gid
         then
           (Some tt,
            set_groupMembers
              (groupMembers d ++
                 [{| gm_id := groupMembers_seq d;
                     gm_groupId := gid; gm_userId := uid |}]) drawn)
         else (None, drawn).

(** [update group_chats set "createdBy" = newOwner where id = gid]; it
    throws when a row is changed and the new owner is no user. *)
Definition update_group_owner (gid newOwner : Z) : Op unit :=
  λ d, if bound [gid; newOwner]
          && (negb (group_exists d gid) || user_exists d newOwner)
       then
         (Some tt,
          set_groups
            ((λ g, if group_id g =? gid
                   then {| group_id := group_id g;
                           group_name := group_name g;
                           ownerId := newOwner |}
                   else g) <$> groups d) d)
       else (None, d).

(** ** Groups *)

(** Is there a group with this id and this owner? *)
Definition owner_row (gid uid : Z) (d : Db) : bool :=
  match filter (λ g, group_id g = gid ∧ ownerId g = uid) (groups d) with
  | [] => false
  | _ :: _ => true
  end.

(** [isGroupOwner]. *)
Definition isGroupOwner (gid uid : Z) (d : Db) : option bool :=
  query [gid; uid] (owner_row gid uid) d.

(** [getGroup]: the group, or [undefined]. *)
Definition getGroup (gid : Z) (d : Db) : option (option Group) :=
  query [gid] (λ d, head (filter (λ g, group_id g = gid) (groups d))) d.

(** The group ids of the user's membership rows, then the groups whose id
    is among them. *)
Definition groups_of (uid : Z) (d : Db) : list Group :=
  let memberships :=
    gm_groupId <$> filter (λ r, gm_userId r = uid) (groupMembers d) in
  match memberships with
  | [] => []
  | _ :: _ => filter (λ g, group_id g ∈ memberships) (groups d)
  end.

(** [getUserGroups]. *)
Definition getUserGroups (uid : Z) (d : Db) : option (list Group) :=
  query [uid] (groups_of uid) d.

(** [addGroupMember]. *)
Definition addGroupMember (gid uid : Z) : Op unit :=
  isMember <-- op_call (isGroupMember gid uid) ;;
  if isMember then op_ret tt
  else insert_groupMember gid uid.

(** [createGroup]. *)
Definition createGroup (name : string) (owner : Z) : Op Group :=
  createdGroup <-- insert_group name owner ;;
  addGroupMember (group_id createdGroup) owner ;;>
  op_ret createdGroup.

(** [removeGroupMember]. *)
Definition removeGroupMember (gid uid : Z) : Op bool :=
  isMember <-- op_call (isGroupMember gid uid) ;;
  if negb isMember then op_ret false
  else
    isOwner <-- op_call (isGroupOwner gid uid) ;;
    if isOwner then op_ret false
    else
      delete_groupMembers_where [gid; uid]
        (λ r, gm_groupId r = gid ∧ gm_userId r = uid) ;;>
      op_ret true.

(** [transferGroupOwnership]. *)
Definition transferGroupOwnership (gid currentOwnerId newOwnerId : Z) : Op bool :=
  isOwner <-- op_call (isGroupOwner gid currentOwnerId) ;;
  if negb isOwner then op_ret false
  else
    isMember <-- op_call (isGroupMember gid newOwnerId) ;;
    if negb isMember then op_ret false
    else
      update_group_owner gid newOwnerId ;;>
      op_ret true.

(** [deleteGroup]. *)
Definition deleteGroup (gid uid : Z) : Op bool :=
  isOwner <-- op_call (isGroupOwner gid uid) ;;
  if negb isOwner then op_ret false
  else
    delete_groupMembers_where [gid] (λ r, gm_groupId r = gid) ;;>
    delete_messages_where [gid] (λ m, groupId m = Some gid) ;;>
    delete_groups_where [gid] (λ g, group_id g = gid) ;;>
    op_ret true.

(** ** Users *)

(** [getUser]: the user, or [undefined]. *)
Definition getUser (id : Z) (d : Db) : option (option User) :=
  query [id] (λ d, head (filter (λ u, user_id u = id) (users d))) d.

(** Step 3 of [deleteUser]: the loop over the groups the user owns.  The
    ids of these groups were read from the table. *)
Fixpoint delete_owned_groups (groupsOwnedByUser : list Group) : Op unit :=
  match groupsOwnedByUser with
  | [] => op_ret tt
  | group :: rest =>
      delete_messages_where [] (λ m, groupId m = Some (group_id group)) ;;>
      delete_groupMembers_where [] (λ r, gm_groupId r = group_id group) ;;>
      delete_owned_groups rest
  end.

(** [deleteUser]; the [catch] rethrows. *)
Definition deleteUser (id : Z) : Op unit :=
  delete_messages_where [id; id] (λ m, fromUserId m = id ∨ toUserId m = Some id) ;;>
  groupsOwnedByUser <--
    op_call (query [id] (λ d, filter (λ g, ownerId g = id) (groups d))) ;;
  delete_owned_groups groupsOwnedByUser ;;>
  delete_groups_where [id] (λ g, ownerId g = id) ;;>
  delete_groupMembers_where [id] (λ r, gm_userId r = id) ;;>
  delete_users_where [id] (λ u, user_id u = id).

(** What steps 1 to 5 of [deleteUser] leave: no message from or to the
    user or in a group the user owned, no such group, and no membership of
    the user or in such a group. *)
Definition after_cascade (id : Z) (d : Db) : Db :=
  let owned := filter (λ g, ownerId g = id) (groups d) in
  set_groupMembers
    (filter (λ r, ¬ gm_userId r = id
                  ∧ Forall (λ g, ¬ gm_groupId r = group_id g) owned)
            (groupMembers d))
    (set_groups (filter (λ g, ¬ ownerId g = id) (groups d))
       (set_messages
          (filter (λ m, Forall (λ g, ¬ groupId m = Some (group_id g)) owned
                        ∧ ¬ (fromUserId m = id ∨ toUserId m = Some id))
                  (messages d))
          d)).

(** The references to a user that [deleteUser] does not remove. *)
Definition has_ideas_or_votes (d : Db) (id : Z) : bool :=
  existsb (λ i, idea_userId i =? id) (ideas d)
  || existsb (λ v, vote_userId v =? id) (ideaVotes d).

(** ** Ideas *)

(** [db.transaction(f)]: commit what [f] did, or roll back and rethrow.
    A rollback restores the tables; the sequences keep what they gave. *)
Definition rollback (before after : Db) : Db :=
  {| users := users before;
     groups := groups before; groups_seq := groups_seq after;
     groupMembers := groupMembers before;
     groupMembers_seq := groupMembers_seq after;
     messages := messages before; messages_seq := messages_seq after;
     games := games before;
     ideas := ideas before; ideas_seq := ideas_seq after;
     ideaVotes := ideaVotes before; ideaVotes_seq := ideaVotes_seq after |}.

Definition transaction {A} (f : Op A) : Op A :=
  λ d, match f d with
       | (Some a, d') => (Some a, d')
       | (None, d') => (None, rollback d d')
       end.

(** [and(eq(ideaVotes.ideaId, ideaId), eq(ideaVotes.userId, userId))]. *)
Definition vote_of (ideaId userId : Z) (v : IdeaVote) : bool :=
  (vote_ideaId v =? ideaId) && (vote_userId v =? userId).

Definition select_votes (ideaId userId : Z) : Op (list IdeaVote) :=
  op_call (query [ideaId; userId]
             (λ d, filter (λ v, vote_of ideaId userId v = true) (ideaVotes d))).

Definition delete_votes (ideaId userId : Z) : Op unit :=
  delete_ideaVotes_where [ideaId; userId] (λ v, vote_of ideaId userId v = true).

(** [insert into idea_votes]: the id comes from the sequence; the insert
    throws when the idea or the user it points at does not exist. *)
Definition insert_vote (ideaId userId createdAt : Z) : Op unit :=
  λ d, if negb (bound [ideaId; userId] && int4 (ideaVotes_seq d)) then (None, d)
       else
         let drawn := set_ideaVotes_seq (ideaVotes_seq d + 1) d in
         if idea_exists d ideaId && user_exists d userId
         then (Some tt,
               set_ideaVotes
                 (ideaVotes d ++
                    [{| vote_id := ideaVotes_seq d;
                        vote_ideaId := ideaId;
                        vote_userId := userId;
                        vote_createdAt := createdAt |}]) drawn)
         else (None, drawn).

Definition add_votes (delta : Z) (i : Idea) : Idea :=
  {| idea_id := idea_id i; gameId := gameId i; idea_userId := idea_userId i;
     title := title i; description := description i;
     votes := votes i + delta; idea_createdAt := idea_createdAt i |}.

(** [update ideas set votes = votes + delta where id = ideaId], on one
    row and on the table.  The statement throws when a new count is out of
    the range of the column. *)
Definition bump_votes (ideaId delta : Z) (i : Idea) : Idea :=
  if idea_id i =? ideaId then add_votes delta i else i.

(** Every count of the idea, moved by [delta], is in the range of the
    column. *)
Definition votes_fit (d : Db) (ideaId delta : Z) : bool :=
  forallb (λ i, negb (idea_id i =? ideaId) || int4 (votes i + delta)) (ideas d).

Definition update_votes (ideaId delta : Z) : Op unit :=
  λ d, if bound [ideaId] && votes_fit d ideaId delta
       then (Some tt, set_ideas (bump_votes ideaId delta <$> ideas d) d)
       else (None, d).

(** What [findMany] with [game], [creator] and the [has_voted] extra
    returns for one idea; a relation that finds no row is [null]. *)
Record IdeaRow := {
  row_idea : Idea;
  row_game : option Game;
  row_creator : option User;
  row_has_voted : bool
}.

Definition find_ideas (ideaId userId : Z) : Op (list IdeaRow) :=
  op_call (query [ideaId; userId]
    (λ d, (λ i,
             {| row_idea := i;
                row_game := head (filter (λ g, game_id g = gameId i) (games d));
                row_creator :=
                  head (filter (λ u, user_id u = idea_userId i) (users d));
                row_has_voted :=
                  existsb (vote_of (idea_id i) userId) (ideaVotes d) |})
            <$> filter (λ i, idea_id i = ideaId) (ideas d))).

(** [IdeaWithRelations] as [toggleIdeaVote] returns it. *)
Record IdeaWithRelations := {
  iwr_idea : Idea;
  iwr_game : Game;
  iwr_creator : User;
  iwr_game_name : string;
  creator_username : string;
  has_voted : bool
}.

(** The end of the transaction: the idea is read back with its
    relations and returned. *)
Definition updated_idea (ideaId userId : Z) : Op IdeaWithRelations :=
  found <-- find_ideas ideaId userId ;;
  match found with
  | [] => op_throw
  | updatedIdea :: _ =>
      match row_game updatedIdea, row_creator updatedIdea with
      | Some game, Some creator =>
          op_ret {| iwr_idea := row_idea updatedIdea;
                    iwr_game := game;
                    iwr_creator := creator;
                    iwr_game_name := game_name game;
                    creator_username := username creator;
                    has_voted := row_has_voted updatedIdea |}
      | _, _ => op_throw
      end
  end.

(** The body of the transaction.  [now] is what [new Date()] reads. *)
Definition toggleIdeaVote_body (now ideaId userId : Z) : Op IdeaWithRelations :=
  existing <-- select_votes ideaId userId ;;
  match existing with
  | _ :: _ =>
      delete_votes ideaId userId ;;>
      update_votes ideaId (-1)
  | [] =>
      insert_vote ideaId userId now ;;>
      update_votes ideaId 1
  end ;;>
  updated_idea ideaId userId.

(** The database after the vote row of the pair was inserted, or
    deleted, and the count of the idea moved. *)
Definition vote_added (now ideaId userId : Z) (d : Db) : Db :=
  set_ideas (bump_votes ideaId 1 <$> ideas d)
    (set_ideaVotes
       (ideaVotes d ++
          [{| vote_id := ideaVotes_seq d; vote_ideaId := ideaId;
              vote_userId := userId; vote_createdAt := now |}])
       (set_ideaVotes_seq (ideaVotes_seq d + 1) d)).

Definition vote_removed (ideaId userId : Z) (d : Db) : Db :=
  set_ideas (bump_votes ideaId (-1) <$> ideas d)
    (set_ideaVotes
       (filter (λ v, ¬ vote_of ideaId userId v = true) (ideaVotes d)) d).

(** [toggleIdeaVote]; the [catch] rethrows. *)
Definition toggleIdeaVote (now ideaId userId : Z) : Op IdeaWithRelations :=
  transaction (toggleIdeaVote_body now ideaId userId).

(** The two facts about an idea and a user that the toggle changes. *)
Definition votes_of (d : Db) (ideaId : Z) : option Z :=
  votes <$> head (filter (λ i, idea_id i = ideaId) (ideas d)).

Definition has_vote_row (d : Db) (ideaId userId : Z) : bool :=
  existsb (vote_of ideaId userId) (ideaVotes d).

(** [deleteIdea]. *)
Definition deleteIdea (id : Z) : Op unit :=
  delete_ideaVotes_where [id] (λ v, vote_ideaId v = id) ;;>
  delete_ideas_where [id] (λ i, idea_id i = id).

(** [InsertIdea]: what [insertIdeaSchema] lets through. *)
Record InsertIdea := {
  ins_gameId : Z;
  ins_userId : Z;
  ins_title : string;
  ins_description : string
}.

(** The parameters of [insert into ideas] are bound. *)
Definition idea_bound (idea : InsertIdea) : bool :=
  bound [ins_gameId idea; ins_userId idea]
  && pg_text (ins_title idea) && pg_text (ins_description idea).

(** [insert into ideas values (idea) returning *]: [votes] defaults to 0
    and [created_at] to the clock of the database, [now]. *)
Definition insert_idea (idea : InsertIdea) (now : Z) : Op Idea :=
  λ d, if negb (idea_bound idea && int4 (ideas_seq d)) then (None, d)
       else
         let createdIdea :=
           {| idea_id := ideas_seq d;
              gameId := ins_gameId idea;
              idea_userId := ins_userId idea;
              title := ins_title idea;
              description := ins_description idea;
              votes := 0;
              idea_createdAt := now |} in
         let drawn := set_ideas_seq (ideas_seq d + 1) d in
         if game_exists d (ins_gameId idea) && user_exists d (ins_userId idea)
         then (Some createdIdea, set_ideas (ideas d ++ [createdIdea]) drawn)
         else (None, drawn).

(** [createIdea].  The id of the second query was returned by the
    insert. *)
Definition createIdea (idea : InsertIdea) (now : Z) : Op IdeaWithRelations :=
  createdIdea <-- insert_idea idea now ;;
  found <-- op_read (λ d,
              (λ i, (i,
                     head (filter (λ g, game_id g = gameId i) (games d)),
                     head (filter (λ u, user_id u = idea_userId i) (users d))))
                <$> filter (λ i, idea_id i = idea_id createdIdea) (ideas d)) ;;
  match found with
  | [] => op_throw
  | (completeIdea, Some game, Some creator) :: _ =>
      op_ret {| iwr_idea := completeIdea;
                iwr_game := game;
                iwr_creator := creator;
                iwr_game_name := game_name game;
                creator_username := username creator;
                has_voted := false |}
  | _ :: _ => op_throw
  end.

(** ** What the schema promises about a database *)

(** [messages.fromUserId], [messages.toUserId → users.id] and
    [messages.groupId → group_chats.id]. *)
Definition fk_messages (d : Db) : bool :=
  forallb (λ m, user_exists d (fromUserId m)
                && nullable_ref (user_exists d) (toUserId m)
                && nullable_ref (group_exists d) (groupId m))
          (messages d).

(** [group_chats.createdBy → users.id]. *)
Definition fk_groups (d : Db) : bool :=
  forallb (λ g, user_exists d (ownerId g)) (groups d).

(** [idea_votes.idea_id → ideas.id], [idea_votes.user_id → users.id]. *)
Definition fk_ideaVotes (d : Db) : bool :=
  forallb (λ v, idea_exists d (vote_ideaId v) && user_exists d (vote_userId v))
          (ideaVotes d).

(** Every foreign key of the schema. *)
Definition fk_all (d : Db) : bool :=
  fk_messages d && fk_groups d && fk_groupMembers d
  && fk_ideas d && fk_ideaVotes d.

(** A [serial] primary key: no two rows share a key, and the sequence is
    ahead of every key. *)
Definition serial_ok {A} (key : A → Z) (rows : list A) (seq : Z) : Prop :=
  NoDup (key <$> rows) ∧ Forall (λ r, key r < seq) rows.

(** The primary keys: of [users], and of the five tables the modelled
    code inserts into. *)
Definition keys_ok (d : Db) : Prop :=
  NoDup (user_id <$> users d)
  ∧ serial_ok group_id (groups d) (groups_seq d)
  ∧ serial_ok gm_id (groupMembers d) (groupMembers_seq d)
  ∧ serial_ok msg_id (messages d) (messages_seq d)
  ∧ serial_ok idea_id (ideas d) (ideas_seq d)
  ∧ serial_ok vote_id (ideaVotes d) (ideaVotes_seq d).

(** The owner of every group is one of its members. *)
Definition owners_are_members (d : Db) : Prop :=
  Forall (λ g, member_row (group_id g) (ownerId g) d = true) (groups d).

(** No user is in a group twice. *)
Definition memberships_unique (d : Db) : Prop :=
  NoDup ((λ r, (gm_groupId r, gm_userId r)) <$> groupMembers d).

(** No user has two votes on an idea, and the [votes] of every idea is
    the number of its vote rows. *)
Definition votes_consistent (d : Db) : Prop :=
  NoDup ((λ v, (vote_ideaId v, vote_userId v)) <$> ideaVotes d)
  ∧ Forall (λ i, votes i
                 = Z.of_nat (length (filter (λ v, vote_ideaId v = idea_id i)
                                            (ideaVotes d))))
           (ideas d).

(** What the statements keep by themselves: the foreign keys and the
    primary keys. *)
Definition base_ok (d : Db) : Prop :=
  fk_all d = true ∧ keys_ok d.

(** What the calls keep. *)
Definition store_ok (d : Db) : Prop :=
  base_ok d
  ∧ owners_are_members d
  ∧ memberships_unique d
  ∧ votes_consistent d.

(** A call keeps [I] when the database it leaves, returning or throwing,
    satisfies [I] if the one it started from did. *)
Definition keeps {A} (I : Db → Prop) (m : Op A) : Prop :=
  ∀ d, I d → I (m d).2.

(** ** Calls made one after the other *)

(** A call of the storage layer by a route, or the relay handling some
    events with whatever registry it has. *)
Inductive Call :=
| CreateGroup (name : string) (owner : Z)
| AddGroupMember (gid uid : Z)
| RemoveGroupMember (gid uid : Z)
| TransferGroupOwnership (gid currentOwnerId newOwnerId : Z)
| DeleteGroup (gid uid : Z)
| DeleteUser (id : Z)
| CreateIdea (idea : InsertIdea) (now : Z)
| ToggleIdeaVote (now ideaId uid : Z)
| DeleteIdea (id : Z)
| Relayed (cl : gmap Z Socket) (ids : gmap Socket Z) (es : list Event).

(** The database a call leaves, whether it returns or throws. *)
Definition exec (c : Call) (d : Db) : Db :=
  match c with
  | CreateGroup name owner => (createGroup name owner d).2
  | AddGroupMember gid uid => (addGroupMember gid uid d).2
  | RemoveGroupMember gid uid => (removeGroupMember gid uid d).2
  | TransferGroupOwnership gid cur new => (transferGroupOwnership gid cur new d).2
  | DeleteGroup gid uid => (deleteGroup gid uid d).2
  | DeleteUser id => (deleteUser id d).2
  | CreateIdea idea now => (createIdea idea now d).2
  | ToggleIdeaVote now ideaId uid => (toggleIdeaVote now ideaId uid d).2
  | DeleteIdea id => (deleteIdea id d).2
  | Relayed cl ids es =>
      db (run es {| clients := cl; userId := ids; db := d |}).1
  end.

Definition exec_all (cs : list Call) (d : Db) : Db :=
  foldl (λ d c, exec c d) d cs.

(** ** What a run of the relay does to the database *)

(** [d'] is [d] with the rows [new] appended to [messages], in order and
    with ids drawn from the sequence, which may have given out more. *)
Definition inserted (new : list Message) (d d' : Db) : Prop :=
  d' = set_messages_seq (messages_seq d') (set_messages (messages d ++ new) d)
  ∧ messages_seq d ≤ messages_seq d'
  ∧ serial_ok msg_id new (messages_seq d')
  ∧ Forall (λ m, messages_seq d ≤ msg_id m) new.

(** The database after [row] was inserted into [messages]. *)
Definition db_insert (row : Message) (d : Db) : Db :=
  set_messages (messages d ++ [row]) (set_messages_seq (messages_seq d + 1) d).

(** ** Databases that calls leave *)

(** What the three deletes leave. *)
Definition group_deleted (gid : Z) (d : Db) : Db :=
  set_groups (filter (λ g, ¬ group_id g = gid) (groups d))
    (set_messages (filter (λ m, ¬ groupId m = Some gid) (messages d))
       (set_groupMembers
          (filter (λ r, ¬ gm_groupId r = gid) (groupMembers d)) d)).

(** The database after the owner of the group was changed. *)
Definition owner_changed (gid new : Z) (d : Db) : Db :=
  set_groups
    ((λ g, if group_id g =? gid
           then {| group_id := group_id g; group_name := group_name g;
                   ownerId := new |}
           else g) <$> groups d) d.

(** The database after the membership row was inserted. *)
Definition member_added (gid uid : Z) (d : Db) : Db :=
  set_groupMembers
    (groupMembers d ++
       [{| gm_id := groupMembers_seq d; gm_groupId := gid; gm_userId := uid |}])
    (set_groupMembers_seq (groupMembers_seq d + 1) d).

(** ** States used in examples *)

Definition all_open : Socket → ReadyState := λ _, OPEN.

(** Users 1 to 4; group 7 with the members 1, 2 and 3; one idea, 3, on
    game 5. *)
Definition db_example : Db :=
  {| users := [ {| user_id := 1; username := "ann" |};
                {| user_id := 2; username := "bob" |};
                {| user_id := 3; username := "cyd" |};
                {| user_id := 4; username := "dan" |} ];
     groups := [ {| group_id := 7; group_name := "squad"; ownerId := 1 |} ];
     groups_seq := 8;
     groupMembers := [ {| gm_id := 1; gm_groupId := 7; gm_userId := 1 |};
                       {| gm_id := 2; gm_groupId := 7; gm_userId := 2 |};
                       {| gm_id := 3; gm_groupId := 7; gm_userId := 3 |} ];
     groupMembers_seq := 4;
     messages := [];
     messages_seq := 1;
     games := [ {| game_id := 5; game_name := "chess" |} ];
     ideas := [ {| idea_id := 3; gameId := 5; idea_userId := 1;
                   title := "ladders"; description := "ranked ladders";
                   votes := 0; idea_createdAt := 0 |} ];
     ideas_seq := 4;
     ideaVotes := [];
     ideaVotes_seq := 1 |}.

(** A reconnect: user 1 sends a frame on socket 21, then, from a new
    connection, on socket 22. *)
Definition reconnect : list Event :=
  [ Arrives all_open 1000 21%nat (Some (TypingStatus 1 2 true));
    Arrives all_open 1001 22%nat (Some (TypingStatus 1 2 true)) ].

(** Nobody is connected yet. *)
Definition relay_start : Relay :=
  {| clients := ∅; userId := ∅; db := db_example |}.

(** Users 1, 2 and 3 are connected on the sockets 11, 12 and 13. *)
Definition relay_example : Relay :=
  {| clients := <[1 := 11%nat]> (<[2 := 12%nat]> (<[3 := 13%nat]> ∅));
     userId := <[11%nat := 1]> (<[12%nat := 2]> (<[13%nat := 3]> ∅));
     db := db_example |}.




(** * Properties *)

(** ** Values and queries *)

Lemma int4_spec z : int4 z = true ↔ int4_min ≤ z ≤ int4_max.
Proof. unfold int4. rewrite andb_true_iff, !Z.leb_le. done. Qed.

Lemma query_Some {A} params (f : Db → A) d a :
  query params f d = Some a ↔ bound params = true ∧ a = f d.
Proof. unfold query. destruct (bound params); naive_solver. Qed.

Lemma query_None {A} params (f : Db → A) d :
  query params f d = None ↔ bound params = false.
Proof. unfold query. destruct (bound params); naive_solver. Qed.

Lemma query_bound {A} params (f : Db → A) d :
  bound params = true → query params f d = Some (f d).
Proof. unfold query. by intros ->. Qed.

Lemma bound_pair a b : bound [a; b] = int4 a && int4 b.
Proof. unfold bound. simpl. by rewrite andb_true_r. Qed.

Lemma bound_one a : bound [a] = int4 a.
Proof. unfold bound. simpl. by rewrite andb_true_r. Qed.

Lemma isGroupMember_Some gid uid d b :
  isGroupMember gid uid d = Some b
  ↔ int4 gid = true ∧ int4 uid = true ∧ member_row gid uid d = b.
Proof.
  unfold isGroupMember. rewrite query_Some, bound_pair, andb_true_iff.
  naive_solver.
Qed.

Lemma isGroupMember_not_true gid uid d :
  member_row gid uid d = false → isGroupMember gid uid d ≠ Some true.
Proof. intros Hno (_ & _ & Hyes)%isGroupMember_Some. congruence. Qed.

Lemma isGroupMember_cases gid uid d :
  isGroupMember gid uid d
  = if bound [gid; uid] then Some (member_row gid uid d) else None.
Proof. done. Qed.

Lemma getGroupMembers_bound gid d :
  int4 gid = true → getGroupMembers gid d = Some (members_of gid d).
Proof. intros H. apply query_bound. by rewrite bound_one. Qed.

Lemma user_exists_int4 d uid : user_exists d uid = true → int4 uid = true.
Proof. unfold user_exists. by intros [? _]%andb_prop. Qed.


(** ** The registry *)

Lemma register_db ws uid st : db (register ws uid st) = db st.
Proof. unfold register. by case_bool_decide. Qed.

Lemma register_clients ws uid st :
  clients (register ws uid st)
  = if bool_decide (uid ≠ 0) then <[uid := ws]> (clients st) else clients st.
Proof. unfold register. by case_bool_decide. Qed.

Lemma register_userId ws uid st :
  userId (register ws uid st)
  = if bool_decide (uid ≠ 0) then <[ws := uid]> (userId st) else userId st.
Proof. unfold register. by case_bool_decide. Qed.

Lemma register_lookup ws uid st :
  uid ≠ 0 → clients (register ws uid st) !! uid = Some ws.
Proof.
  intros Hu. rewrite register_clients, bool_decide_true by done.
  apply lookup_insert_eq.
Qed.

(** ** What a handler run sends, and to whom *)

Lemma send_if_open_spec readyState (cl : gmap Z Socket) uid frame e :
  e ∈ send_if_open readyState cl uid frame →
  cl !! uid = Some e.1 ∧ readyState e.1 = OPEN ∧ e.2 = frame.
Proof.
  unfold send_if_open. destruct (cl !! uid) as [s|]; [|by intros ?%elem_of_nil].
  case_bool_decide; [|by intros ?%elem_of_nil].
  intros ->%list_elem_of_singleton. done.
Qed.

Lemma send_to_recipient_spec readyState (cl : gmap Z Socket) to frame e :
  e ∈ send_to_recipient readyState cl to frame →
  ∃ uid, to = Some uid ∧ cl !! uid = Some e.1 ∧ readyState e.1 = OPEN
         ∧ e.2 = frame.
Proof.
  destruct to as [uid|]; simpl; [|by intros ?%elem_of_nil].
  intros ?%send_if_open_spec. by exists uid.
Qed.

Lemma fan_out_spec readyState (cl : gmap Z Socket) from members frame e :
  e ∈ fan_out readyState cl from members frame →
  ∃ member, member ∈ members ∧ user_id member ≠ from
            ∧ cl !! user_id member = Some e.1 ∧ readyState e.1 = OPEN
            ∧ e.2 = frame.
Proof.
  induction members as [|member rest IH]; simpl.
  - by intros ?%elem_of_nil.
  - rewrite elem_of_app. intros [He|He].
    + case_bool_decide; [|by apply elem_of_nil in He].
      apply send_if_open_spec in He as (? & ? & ?).
      exists member. split_and!; [left|..]; done.
    + destruct (IH He) as (m & ? & ?). exists m. split; [by right|done].
Qed.

Lemma frames_to_cons_eq s f sent :
  frames_to s ((s, f) :: sent) = f :: frames_to s sent.
Proof. unfold frames_to. by rewrite filter_cons_True by done. Qed.

Lemma frames_to_cons_ne s s' f sent :
  s' ≠ s → frames_to s ((s', f) :: sent) = frames_to s sent.
Proof. intros. unfold frames_to. by rewrite filter_cons_False by done. Qed.


(** ** [createMessage] *)

(** The row an accepted insert creates. *)
Lemma createMessage_insertable message d :
  insertable message d = true →
  createMessage message d
  = (Some {| msg_id := messages_seq d;
             fromUserId := new_fromUserId message;
             toUserId := new_toUserId message;
             groupId := new_groupId message;
             content := new_content message;
             timestamp := new_timestamp message;
             isRead := new_isRead message;
             readAt := new_readAt message;
             msg_type := new_type message |},
     set_messages
       (messages d ++
          [{| msg_id := messages_seq d;
              fromUserId := new_fromUserId message;
              toUserId := new_toUserId message;
              groupId := new_groupId message;
              content := new_content message;
              timestamp := new_timestamp message;
              isRead := new_isRead message;
              readAt := new_readAt message;
              msg_type := new_type message |}])
       (set_messages_seq (messages_seq d + 1) d)).
Proof.
  unfold insertable, createMessage.
  intros [[-> ->]%andb_prop ->]%andb_prop. done.
Qed.

Lemma createMessage_rejected message d :
  insertable message d = false →
  (createMessage message d).1 = None
  ∧ tables (createMessage message d).2 = tables d.
Proof.
  unfold insertable, createMessage. intros Hno.
  destruct (message_bound message && int4 (messages_seq d)); simpl in *;
    [|done]. by rewrite Hno.
Qed.

Lemma createMessage_Some message d row d' :
  createMessage message d = (Some row, d') → insertable message d = true.
Proof.
  destruct (insertable message d) eqn:Hins; [done|].
  destruct (createMessage_rejected message d Hins) as [Hnone _].
  intros Heq. by rewrite Heq in Hnone.
Qed.

(** What any call of [createMessage] does to the database. *)
Lemma createMessage_inserted message d :
  inserted (if insertable message d
            then [{| msg_id := messages_seq d;
                     fromUserId := new_fromUserId message;
                     toUserId := new_toUserId message;
                     groupId := new_groupId message;
                     content := new_content message;
                     timestamp := new_timestamp message;
                     isRead := new_isRead message;
                     readAt := new_readAt message;
                     msg_type := new_type message |}]
            else [])
           d (createMessage message d).2
  ∧ messages_seq (createMessage message d).2 ≤ messages_seq d + 1.
Proof.
  destruct (insertable message d) eqn:Hins.
  - rewrite createMessage_insertable by done. cbn [snd].
    unfold inserted, serial_ok. cbn.
    split_and!; try done; try lia; repeat constructor; cbn; try lia.
    set_solver.
  - unfold insertable, createMessage in *.
    destruct (message_bound message && int4 (messages_seq d)); simpl in *.
    + rewrite Hins. unfold inserted, serial_ok. cbn. rewrite app_nil_r.
      split_and!; try done; try lia; try constructor.
    + unfold inserted, serial_ok. cbn. rewrite app_nil_r.
      split_and!; try done; try lia; try constructor. by destruct d.
Qed.

Lemma inserted_refl d : inserted [] d d.
Proof.
  unfold inserted, serial_ok. rewrite app_nil_r.
  split_and!; try done; try constructor. by destruct d.
Qed.

Lemma inserted_trans new1 new2 d1 d2 d3 :
  inserted new1 d1 d2 → inserted new2 d2 d3 → inserted (new1 ++ new2) d1 d3.
Proof.
  unfold inserted, serial_ok.
  intros (H1 & Hle1 & [Hnd1 Hlt1] & Hge1) (H2 & Hle2 & [Hnd2 Hlt2] & Hge2).
  split_and!.
  - etrans; [exact H2|]. rewrite H1.
    unfold set_messages_seq, set_messages. cbn. by rewrite <- app_assoc.
  - lia.
  - rewrite fmap_app. apply NoDup_app. split_and!; [done| |done].
    intros k (m1 & -> & Hm1)%list_elem_of_fmap (m2 & Heq & Hm2)%list_elem_of_fmap.
    rewrite Forall_forall in Hlt1, Hge2.
    specialize (Hlt1 m1 Hm1). specialize (Hge2 m2 Hm2). lia.
  - apply Forall_app. split; [|done].
    eapply Forall_impl; [exact Hlt1|]. intros m ?. cbn in *. lia.
  - apply Forall_app. split; [done|].
    eapply Forall_impl; [exact Hge2|]. intros m ?. cbn in *. lia.
Qed.

Lemma inserted_tables new d d' :
  inserted new d d' →
  users d' = users d ∧ groups d' = groups d
  ∧ groupMembers d' = groupMembers d
  ∧ messages d' = messages d ++ new
  ∧ games d' = games d ∧ ideas d' = ideas d ∧ ideaVotes d' = ideaVotes d
  ∧ groups_seq d' = groups_seq d ∧ groupMembers_seq d' = groupMembers_seq d
  ∧ ideas_seq d' = ideas_seq d ∧ ideaVotes_seq d' = ideaVotes_seq d.
Proof. intros [Heq _]. rewrite Heq. done. Qed.

Lemma inserted_nil_tables d d' : inserted [] d d' → tables d' = tables d.
Proof.
  intros (? & ? & ? & Hm & ? & ? & ? & _)%inserted_tables.
  rewrite app_nil_r in Hm. unfold tables. congruence.
Qed.

(** ** Group membership *)


Lemma existsb_group_exists d gid :
  group_exists d gid = true ↔ int4 gid = true ∧ gid ∈ group_id <$> groups d.
Proof.
  unfold group_exists. rewrite andb_true_iff, existsb_exists, list_elem_of_fmap.
  split.
  - intros [? (g & Hin & Heq)]. split; [done|].
    exists g. split; [lia|by apply list_elem_of_In].
  - intros [? (g & -> & Hin)]. split; [done|].
    exists g. split; [by apply list_elem_of_In|lia].
Qed.

Lemma member_row_true gid uid d :
  member_row gid uid d = true
  ↔ ∃ r, r ∈ groupMembers d ∧ gm_groupId r = gid ∧ gm_userId r = uid.
Proof.
  unfold member_row.
  destruct (filter _ (groupMembers d)) as [|r rest] eqn:Hfil.
  - split; [done|]. intros (r & Hin & Hr).
    assert (r ∈ filter (λ r, gm_groupId r = gid ∧ gm_userId r = uid)
                       (groupMembers d)) as Hr'
      by by apply list_elem_of_filter.
    rewrite Hfil in Hr'. by apply elem_of_nil in Hr'.
  - split; [|done]. intros _. exists r.
    assert (r ∈ filter (λ r, gm_groupId r = gid ∧ gm_userId r = uid)
                       (groupMembers d)) as Hr'
      by (rewrite Hfil; left).
    apply list_elem_of_filter in Hr' as [? ?]. done.
Qed.




Lemma fk_member gid uid d :
  fk_groupMembers d = true →
  member_row gid uid d = true →
  user_exists d uid = true ∧ group_exists d gid = true.
Proof.
  unfold fk_groupMembers. rewrite forallb_forall.
  intros Hfk (r & Hin & <- & <-)%member_row_true.
  apply list_elem_of_In, Hfk, andb_prop in Hin. done.
Qed.



(** ** Group fan-out *)




Lemma filter_none {A} (P : A → Prop) `{∀ a, Decision (P a)} (l : list A) :
  (∀ a, a ∈ l → ¬ P a) → filter P l = [].
Proof.
  induction l as [|a l IH]; [done|]. intros HP.
  rewrite filter_cons_False by (apply HP; left).
  apply IH. intros b Hb. apply HP. by right.
Qed.

Lemma length_filter_unique {A B} `{EqDecision B} (f : A → B)
    (P : A → Prop) `{∀ a, Decision (P a)} (l : list A) (x : B) :
  NoDup (f <$> l) →
  x ∈ f <$> l →
  (∀ a, a ∈ l → P a ↔ f a = x) →
  length (filter P l) = 1%nat.
Proof.
  induction l as [|a l IH]; simpl.
  - by intros _ ?%elem_of_nil.
  - intros [Hnotin Hnd]%NoDup_cons Hx HP.
    destruct (decide (f a = x)) as [Ha|Ha].
    + rewrite filter_cons_True by (apply HP; [left|done]).
      simpl. f_equal. rewrite filter_none; [done|].
      intros b Hb HPb. apply HP in HPb; [|by right].
      apply Hnotin. rewrite Ha, <- HPb. by apply list_elem_of_fmap_2.
    + rewrite filter_cons_False by (rewrite HP; [done|left]).
      apply IH; [done| |].
      * apply elem_of_cons in Hx as [Hx|Hx]; [congruence|done].
      * intros b Hb. apply HP. by right.
Qed.


(** ** The handler, frame by frame *)

Lemma on_message_direct readyState now ws from to text st :
  insertable (direct_message from to text now) (db st) = true →
  let row := direct_row (messages_seq (db st)) from to text now in
  on_message readyState now ws (Some (DirectChatMessage from to text)) st
  = (set_db (db_insert row (db st)) (register ws from st),
     send_to_recipient readyState (clients (register ws from st)) to
                       (FrameMessage row)
     ++ [(ws, FrameMessage row)]).
Proof.
  intros Hins. cbn [on_message ws_fromUserId]. cbn zeta.
  rewrite register_db, createMessage_insertable by done. done.
Qed.

Lemma on_message_direct_rejected readyState now ws from to text st :
  insertable (direct_message from to text now) (db st) = false →
  let result :=
    on_message readyState now ws (Some (DirectChatMessage from to text)) st in
  result.2 = []
  ∧ tables (db result.1) = tables (db st)
  ∧ clients result.1 = clients (register ws from st)
  ∧ userId result.1 = userId (register ws from st).
Proof.
  intros Hins. cbn [on_message ws_fromUserId]. cbn zeta.
  rewrite register_db.
  destruct (createMessage_rejected _ _ Hins) as [Hnone Htab].
  destruct (createMessage _ _) as [[row|] d']; [done|]. done.
Qed.

Lemma on_message_group readyState now ws from gid text st :
  isGroupMember gid from (db st) = Some true →
  insertable (group_message from gid text now) (db st) = true →
  let row := group_row (messages_seq (db st)) from gid text now in
  let frame := FrameMessage (as_groupMessage row) in
  on_message readyState now ws (Some (GroupChatMessage from gid text)) st
  = (set_db (db_insert row (db st)) (register ws from st),
     fan_out readyState (clients (register ws from st)) from
             (members_of gid (db st)) frame
     ++ [(ws, frame)]).
Proof.
  intros Hm Hins. cbn [on_message ws_fromUserId]. cbn zeta.
  rewrite register_db, Hm, createMessage_insertable by done.
  apply isGroupMember_Some in Hm as (Hg & _).
  rewrite getGroupMembers_bound by done. done.
Qed.

Lemma on_message_group_rejected readyState now ws from gid text st :
  isGroupMember gid from (db st) = Some true →
  insertable (group_message from gid text now) (db st) = false →
  let result :=
    on_message readyState now ws (Some (GroupChatMessage from gid text)) st in
  result.2 = [] ∧ tables (db result.1) = tables (db st).
Proof.
  intros Hm Hins. cbn [on_message ws_fromUserId]. cbn zeta.
  rewrite register_db, Hm.
  destruct (createMessage_rejected _ _ Hins) as [Hnone Htab].
  destruct (createMessage _ _) as [[row|] d']; [done|]. done.
Qed.

Lemma on_message_group_other readyState now ws from gid text st :
  isGroupMember gid from (db st) ≠ Some true →
  on_message readyState now ws (Some (GroupChatMessage from gid text)) st
  = (register ws from st,
     if bound [gid; from]
     then [(ws, FrameError "You are not a member of this group")]
     else []).
Proof.
  intros Hm. cbn [on_message ws_fromUserId]. cbn zeta.
  rewrite register_db. rewrite isGroupMember_cases in *.
  destruct (bound [gid; from]); [|done].
  by destruct (member_row gid from (db st)).
Qed.

Lemma on_message_group_typing readyState now ws from gid isTyping st :
  on_message readyState now ws (Some (GroupTypingStatus from gid isTyping)) st
  = (register ws from st,
     match isGroupMember gid from (db st) with
     | Some true =>
         fan_out readyState (clients (register ws from st)) from
                 (members_of gid (db st))
                 (FrameGroupTyping from gid isTyping)
     | _ => []
     end).
Proof.
  cbn [on_message ws_fromUserId]. cbn zeta. rewrite register_db.
  destruct (isGroupMember gid from (db st)) as [[|]|] eqn:Hm; try done.
  apply isGroupMember_Some in Hm as (Hg & _).
  by rewrite getGroupMembers_bound by done.
Qed.

(** ** Group frames of a sender who is not a member *)

(** C1, as the code has it.  A group-message frame whose sender has no
    membership row for the group inserts nothing and fans nothing out; the
    database is what it was.  When the group id and the sender id are both
    [int4]s, the relay calls [send] exactly once: the error frame
    ["You are not a member of this group"], of type ["error"], on the
    sender's socket.  When one of them is not, the membership query throws
    and the relay sends nothing at all. *)
Theorem group_message_non_member
    readyState now ws from gid text st :
  member_row gid from (db st) = false →
  let result :=
    on_message readyState now ws (Some (GroupChatMessage from gid text)) st in
  let st' := result.1 in
  let sent := result.2 in
  sent = (if bound [gid; from]
          then [(ws, FrameError "You are not a member of this group")]
          else [])
  ∧ frames_to ws sent
    = (if bound [gid; from]
       then [FrameError "You are not a member of this group"]
       else [])
  ∧ Forall (λ f, frame_type f = "error") (frames_to ws sent)
  ∧ (∀ s, s ≠ ws → frames_to s sent = [])
  ∧ db st' = db st
  ∧ messages (db st') = messages (db st).
Proof.
  intros Hnot. cbn zeta.
  rewrite on_message_group_other by by apply isGroupMember_not_true.
  cbn [fst snd]. rewrite register_db.
  destruct (bound [gid; from]).
  - rewrite frames_to_cons_eq. split_and!; try done.
    + by repeat constructor.
    + intros s Hs. by rewrite frames_to_cons_ne.
  - split_and!; done.
Qed.

(** C7.  A group-typing frame whose sender has no membership row for the
    group is dropped: the relay calls [send] on no socket, the sender's
    included, and the database is what it was. *)
Theorem group_typing_non_member
    readyState now ws from gid isTyping st :
  member_row gid from (db st) = false →
  let result :=
    on_message readyState now ws (Some (GroupTypingStatus from gid isTyping)) st in
  let st' := result.1 in
  let sent := result.2 in
  sent = []
  ∧ (∀ s, frames_to s sent = [])
  ∧ db st' = db st.
Proof.
  intros Hnot. cbn zeta. rewrite on_message_group_typing. cbn [fst snd].
  rewrite register_db.
  pose proof (isGroupMember_not_true _ _ _ Hnot) as Hne.
  by destruct (isGroupMember gid from (db st)) as [[|]|].
Qed.

(** ** Rows the relay creates *)

Lemma on_close_db ws st : db (on_close ws st) = db st.
Proof.
  unfold on_close. destruct (userId st !! ws); [|done]. by case_bool_decide.
Qed.


Lemma inserted_none message d :
  insertable message d = false → inserted [] d (createMessage message d).2.
Proof.
  intros Hins. destruct (createMessage_inserted message d) as [H _].
  by rewrite Hins in H.
Qed.

(** What a handler run adds to [messages]: at most one row, whose targets
    are those of the frame. *)
Lemma on_message_inserted readyState now ws data st :
  ∃ new,
    inserted new (db st) (db (on_message readyState now ws data st).1)
    ∧ messages_seq (db (on_message readyState now ws data st).1)
      ≤ messages_seq (db st) + 1
    ∧ match data with
      | Some (DirectChatMessage from to text) =>
          new = if insertable (direct_message from to text now) (db st)
                then [direct_row (messages_seq (db st)) from to text now]
                else []
      | Some (GroupChatMessage from gid text) =>
          new = if bool_decide (isGroupMember gid from (db st) = Some true)
                   && insertable (group_message from gid text now) (db st)
                then [group_row (messages_seq (db st)) from gid text now]
                else []
      | _ => new = []
      end.
Proof.
  destruct data as [message|];
    [|exists []; split_and!; [apply inserted_refl|simpl; lia|done]].
  destruct message as [from to text|from gid text|from to b|from gid b].
  - destruct (createMessage_inserted (direct_message from to text now) (db st))
      as [Hins Hseq].
    eexists. split_and!; [| |done].
    + cbn [on_message ws_fromUserId]. cbn zeta. rewrite register_db.
      destruct (createMessage _ _) as [[row|] d']; exact Hins.
    + cbn [on_message ws_fromUserId]. cbn zeta. rewrite register_db.
      destruct (createMessage _ _) as [[row|] d']; exact Hseq.
  - destruct (decide (isGroupMember gid from (db st) = Some true)) as [Hm|Hm].
    + rewrite bool_decide_true by done. cbn [andb].
      destruct (createMessage_inserted (group_message from gid text now) (db st))
        as [Hins Hseq].
      eexists. split_and!; [| |done].
      * cbn [on_message ws_fromUserId]. cbn zeta. rewrite register_db, Hm.
        destruct (createMessage _ _) as [[row|] d']; [|exact Hins].
        destruct (getGroupMembers _ _); exact Hins.
      * cbn [on_message ws_fromUserId]. cbn zeta. rewrite register_db, Hm.
        destruct (createMessage _ _) as [[row|] d']; [|exact Hseq].
        destruct (getGroupMembers _ _); exact Hseq.
    + rewrite bool_decide_false by done. cbn [andb].
      rewrite on_message_group_other by done. cbn [fst]. rewrite register_db.
      exists []. split_and!; [apply inserted_refl|lia|done].
  - exists []. cbn [on_message ws_fromUserId fst]. cbn zeta.
    rewrite register_db. split_and!; [apply inserted_refl|lia|done].
  - exists []. rewrite on_message_group_typing. cbn [fst].
    rewrite register_db. split_and!; [apply inserted_refl|lia|done].
Qed.


Lemma step_inserted e st :
  ∃ new,
    inserted new (db st) (db (step e st).1)
    ∧ messages_seq (db (step e st).1) ≤ messages_seq (db st) + 1
    ∧ Forall at_most_one_target new
    ∧ ((∀ readyState now ws from text,
          e ≠ Arrives readyState now ws (Some (DirectChatMessage from None text)))
       → Forall exactly_one_target new).
Proof.
  destruct e as [readyState now ws data|ws]; simpl.
  - destruct (on_message_inserted readyState now ws data st)
      as (new & Hins & Hseq & Hnew).
    exists new. split_and!; [done|done|..].
    + destruct data as [[from to text|from gid text|from to b|from gid b]|];
        subst; try by constructor.
      * destruct (insertable _ _); [apply Forall_singleton|constructor].
        by right.
      * destruct (_ && _); [apply Forall_singleton|constructor]. by left.
    + intros Hto.
      destruct data as [[from to text|from gid text|from to b|from gid b]|];
        subst; try by constructor.
      * destruct (insertable _ _); [apply Forall_singleton|constructor].
        destruct to as [to|]; [|by destruct (Hto readyState now ws from text)].
        left. split; [by eexists|done].
      * destruct (_ && _); [apply Forall_singleton|constructor].
        right. split; [done|by eexists].
  - exists []. rewrite on_close_db.
    split_and!; [apply inserted_refl|lia|constructor|by constructor].
Qed.

Lemma run_inserted es st :
  ∃ new,
    inserted new (db st) (db (run es st).1)
    ∧ messages_seq (db (run es st).1)
      ≤ messages_seq (db st) + Z.of_nat (length es)
    ∧ Forall at_most_one_target new
    ∧ (Forall (λ e, ∀ readyState now ws from text,
                 e ≠ Arrives readyState now ws
                       (Some (DirectChatMessage from None text))) es
       → Forall exactly_one_target new).
Proof.
  revert st. induction es as [|e rest IH]; intros st.
  - exists []. split_and!; [apply inserted_refl|simpl; lia|constructor|].
    by constructor.
  - destruct (step_inserted e st) as (new1 & H1 & Hs1 & HF1 & HE1).
    cbn [run]. destruct (step e st) as [st1 sent1]. cbn [fst] in *.
    destruct (IH st1) as (new2 & H2 & Hs2 & HF2 & HE2).
    destruct (run rest st1) as [st2 sent2]. cbn [fst] in *.
    exists (new1 ++ new2). split_and!.
    + by eapply inserted_trans.
    + cbn [length]. lia.
    + by apply Forall_app.
    + intros [He Hrest]%Forall_cons. apply Forall_app. split; auto.
Qed.


(** ** Direct messages *)



Lemma run_cons_fst e es st : (run (e :: es) st).1 = (run es (step e st).1).1.
Proof.
  cbn [run]. destruct (step e st) as [st1 o1]. cbn [fst].
  by destruct (run es st1).
Qed.





(** ** The registry along a run *)

Lemma on_message_registry readyState now ws message st :
  clients (on_message readyState now ws (Some message) st).1
  = clients (register ws (ws_fromUserId message) st)
  ∧ userId (on_message readyState now ws (Some message) st).1
    = userId (register ws (ws_fromUserId message) st).
Proof.
  destruct message as [from to text|from gid text|from to b|from gid b];
    cbn [on_message ws_fromUserId]; cbn zeta.
  - by destruct (createMessage _ _) as [[?|] ?].
  - destruct (isGroupMember _ _ _) as [[|]|]; [|done..].
    destruct (createMessage _ _) as [[?|] ?]; [|done].
    by destruct (getGroupMembers _ _).
  - done.
  - destruct (isGroupMember _ _ _) as [[|]|]; [|done..].
    by destruct (getGroupMembers _ _).
Qed.

Lemma on_message_clients readyState now ws message st :
  clients (on_message readyState now ws (Some message) st).1
  = clients (register ws (ws_fromUserId message) st).
Proof. apply on_message_registry. Qed.

Lemma on_message_userId readyState now ws message st :
  userId (on_message readyState now ws (Some message) st).1
  = userId (register ws (ws_fromUserId message) st).
Proof. apply on_message_registry. Qed.

(** A handler run calls [send] on its own socket, or on a socket that the
    registry holds and that is open. *)
Lemma on_message_sent_open readyState now ws data st e :
  e ∈ (on_message readyState now ws data st).2 →
  e.1 = ws
  ∨ (readyState e.1 = OPEN
     ∧ ∃ v, clients (on_message readyState now ws data st).1 !! v = Some e.1).
Proof.
  destruct data as [message|]; [|by intros ?%elem_of_nil].
  rewrite on_message_clients.
  destruct message as [from to text|from gid text|from to b|from gid b];
    cbn [on_message ws_fromUserId]; cbn zeta.
  - destruct (createMessage _ _) as [[row|] d']; cbn [snd];
      [|by intros ?%elem_of_nil].
    rewrite elem_of_app, list_elem_of_singleton.
    intros [(? & _ & ? & ? & _)%send_to_recipient_spec| ->]; eauto.
  - destruct (isGroupMember _ _ _) as [[|]|]; cbn [snd];
      [|intros ->%list_elem_of_singleton; by left|by intros ?%elem_of_nil].
    destruct (createMessage _ _) as [[row|] d']; cbn [snd];
      [|by intros ?%elem_of_nil].
    destruct (getGroupMembers _ _); cbn [snd]; [|by intros ?%elem_of_nil].
    rewrite elem_of_app, list_elem_of_singleton.
    intros [(u & _ & _ & ? & ? & _)%fan_out_spec| ->]; eauto.
  - intros (? & ? & _)%send_if_open_spec. eauto.
  - destruct (isGroupMember _ _ _) as [[|]|]; cbn [snd];
      try by intros ?%elem_of_nil.
    destruct (getGroupMembers _ _); cbn [snd]; [|by intros ?%elem_of_nil].
    intros (u & _ & _ & ? & ? & _)%fan_out_spec. eauto.
Qed.




Lemma two_registrations readyState1 now1 readyState2 now2 s1 s2 m1 m2 uid st :
  ws_fromUserId m1 = uid →
  ws_fromUserId m2 = uid →
  uid ≠ 0 →
  let st2 := (run [ Arrives readyState1 now1 s1 (Some m1);
                    Arrives readyState2 now2 s2 (Some m2) ] st).1 in
  clients st2 = <[uid := s2]> (clients st)
  ∧ userId st2 = <[s2 := uid]> (<[s1 := uid]> (userId st)).
Proof.
  intros H1 H2 Hu st2. unfold st2.
  rewrite !run_cons_fst. change (run [] ?s).1 with s. cbn [step].
  rewrite on_message_clients, on_message_userId, H2.
  rewrite register_clients, register_userId, !bool_decide_true by done.
  rewrite on_message_clients, on_message_userId, H1.
  rewrite register_clients, register_userId, !bool_decide_true by done.
  by rewrite insert_insert_eq.
Qed.


(** C4, as the code has it.  When a socket closes after a frame with a
    non-zero [fromUserId] arrived on it, the registry entry of that user id
    is removed, whichever socket it points at.  The entries of the other
    user ids, the [userId] variables and the database stay as they were. *)
Theorem on_close_removes_entry ws uid st :
  userId st !! ws = Some uid →
  uid ≠ 0 →
  clients (on_close ws st) !! uid = None
  ∧ (∀ v, v ≠ uid → clients (on_close ws st) !! v = clients st !! v)
  ∧ userId (on_close ws st) = userId st
  ∧ db (on_close ws st) = db st.
Proof.
  intros Hws Hu. unfold on_close. rewrite Hws, bool_decide_true by done. simpl.
  split_and!; try done.
  - apply lookup_delete_eq.
  - intros v Hv. by rewrite lookup_delete_ne.
Qed.

(** A socket on which no frame with a non-zero [fromUserId] arrived
    removes nothing when it closes. *)
Lemma on_close_unbound ws st :
  userId st !! ws = None → on_close ws st = st.
Proof. intros Hws. unfold on_close. by rewrite Hws. Qed.

(** After a reconnect the close of the first socket removes the
    registration of the second. *)
Lemma reconnect_close readyState1 now1 readyState2 now2 s1 s2 m1 m2 uid st :
  ws_fromUserId m1 = uid →
  ws_fromUserId m2 = uid →
  uid ≠ 0 →
  s1 ≠ s2 →
  let st2 := (run [ Arrives readyState1 now1 s1 (Some m1);
                    Arrives readyState2 now2 s2 (Some m2) ] st).1 in
  clients st2 !! uid = Some s2
  ∧ clients (on_close s1 st2) !! uid = None.
Proof.
  intros H1 H2 Hu Hne st2.
  destruct (two_registrations readyState1 now1 readyState2 now2
              s1 s2 m1 m2 uid st H1 H2 Hu) as [Hcl Hid].
  fold st2 in Hcl, Hid. split.
  - by rewrite Hcl, lookup_insert_eq.
  - unfold on_close. rewrite Hid, lookup_insert_ne, lookup_insert_eq by done.
    rewrite bool_decide_true by done. simpl. apply lookup_delete_eq.
Qed.

(** ** The vote toggle *)

Section Toggle.
Variables ideaId uid : Z.

Lemma select_votes_nil (l : list IdeaVote) :
  filter (λ v, vote_of ideaId uid v = true) l = []
  ↔ existsb (vote_of ideaId uid) l = false.
Proof.
  induction l as [|v l IH]; [done|]. simpl.
  destruct (vote_of ideaId uid v) eqn:Hv.
  - rewrite filter_cons_True by done. done.
  - rewrite filter_cons_False by congruence. done.
Qed.

Lemma existsb_delete_votes (l : list IdeaVote) :
  existsb (vote_of ideaId uid) (filter (λ v, ¬ vote_of ideaId uid v = true) l)
  = false.
Proof.
  induction l as [|v l IH]; [done|].
  destruct (vote_of ideaId uid v) eqn:Hv.
  - rewrite filter_cons_False by (intros ?; congruence). done.
  - rewrite filter_cons_True by congruence. simpl. by rewrite Hv.
Qed.

Lemma existsb_insert_vote (l : list IdeaVote) id createdAt :
  existsb (vote_of ideaId uid)
          (l ++ [ {| vote_id := id; vote_ideaId := ideaId;
                     vote_userId := uid; vote_createdAt := createdAt |} ])
  = true.
Proof.
  rewrite existsb_app. simpl. unfold vote_of. simpl.
  rewrite !Z.eqb_refl. by rewrite orb_true_r.
Qed.

Lemma filter_bump delta (l : list Idea) :
  filter (λ i, idea_id i = ideaId) (bump_votes ideaId delta <$> l)
  = add_votes delta <$> filter (λ i, idea_id i = ideaId) l.
Proof.
  induction l as [|i l IH]; [done|]. rewrite fmap_cons. unfold bump_votes at 1.
  destruct (Z.eqb_spec (idea_id i) ideaId) as [Heq|Hne].
  - rewrite !filter_cons_True by done. by rewrite fmap_cons, IH.
  - rewrite !filter_cons_False by done. done.
Qed.

Lemma bump_keys delta i :
  idea_id (bump_votes ideaId delta i) = idea_id i
  ∧ gameId (bump_votes ideaId delta i) = gameId i
  ∧ idea_userId (bump_votes ideaId delta i) = idea_userId i.
Proof. unfold bump_votes. by destruct (idea_id i =? ideaId). Qed.

Lemma forallb_bump (p : Idea → bool) delta (l : list Idea) :
  (∀ i, p (bump_votes ideaId delta i) = p i) →
  forallb p (bump_votes ideaId delta <$> l) = forallb p l.
Proof.
  intros Hp. induction l as [|i l IH]; [done|].
  rewrite fmap_cons. simpl. by rewrite Hp, IH.
Qed.

Lemma existsb_bump (p : Idea → bool) delta (l : list Idea) :
  (∀ i, p (bump_votes ideaId delta i) = p i) →
  existsb p (bump_votes ideaId delta <$> l) = existsb p l.
Proof.
  intros Hp. induction l as [|i l IH]; [done|].
  rewrite fmap_cons. simpl. by rewrite Hp, IH.
Qed.

Lemma idea_rows_filter (d : Db) :
  existsb (λ i, idea_id i =? ideaId) (ideas d) = true →
  ∃ i rest, filter (λ i, idea_id i = ideaId) (ideas d) = i :: rest
            ∧ idea_id i = ideaId ∧ i ∈ ideas d.
Proof.
  rewrite existsb_exists.
  intros (i & Hin%list_elem_of_In & Heq%Z.eqb_eq).
  destruct (filter _ (ideas d)) as [|j rest] eqn:Hfil.
  - assert (i ∈ filter (λ i, idea_id i = ideaId) (ideas d)) as Hi
      by by apply list_elem_of_filter.
    rewrite Hfil in Hi. by apply elem_of_nil in Hi.
  - assert (j ∈ filter (λ i, idea_id i = ideaId) (ideas d)) as Hj
      by (rewrite Hfil; left).
    apply list_elem_of_filter in Hj as [? ?]. eauto.
Qed.

Lemma idea_exists_filter (d : Db) :
  idea_exists d ideaId = true →
  ∃ i rest, filter (λ i, idea_id i = ideaId) (ideas d) = i :: rest
            ∧ idea_id i = ideaId ∧ i ∈ ideas d.
Proof. unfold idea_exists. intros [_ ?]%andb_prop. by apply idea_rows_filter. Qed.

Lemma idea_rows_missing (d : Db) :
  existsb (λ i, idea_id i =? ideaId) (ideas d) = false →
  filter (λ i, idea_id i = ideaId) (ideas d) = [].
Proof.
  intros Hno. apply filter_none. intros i Hi Heq.
  apply not_true_iff_false in Hno. apply Hno, existsb_exists.
  exists i. split; [by apply list_elem_of_In|lia].
Qed.

Lemma fk_ideas_relations (d : Db) i :
  fk_ideas d = true →
  i ∈ ideas d →
  is_Some (head (filter (λ g, game_id g = gameId i) (games d)))
  ∧ is_Some (head (filter (λ u, user_id u = idea_userId i) (users d))).
Proof.
  unfold fk_ideas. rewrite forallb_forall.
  intros Hfk Hi%list_elem_of_In. apply Hfk, andb_prop in Hi as [Hg Hu].
  split.
  - unfold game_exists in Hg. apply andb_prop in Hg as [_ Hg].
    apply existsb_exists in Hg as (g & Hin%list_elem_of_In & Heq%Z.eqb_eq).
    destruct (filter _ (games d)) as [|g' ?] eqn:Hfil; [|by eexists].
    assert (g ∈ filter (λ g, game_id g = gameId i) (games d)) as Hg'
      by by apply list_elem_of_filter.
    rewrite Hfil in Hg'. by apply elem_of_nil in Hg'.
  - unfold user_exists in Hu. apply andb_prop in Hu as [_ Hu].
    apply existsb_exists in Hu as (u & Hin%list_elem_of_In & Heq%Z.eqb_eq).
    destruct (filter _ (users d)) as [|u' ?] eqn:Hfil; [|by eexists].
    assert (u ∈ filter (λ u, user_id u = idea_userId i) (users d)) as Hu'
      by by apply list_elem_of_filter.
    rewrite Hfil in Hu'. by apply elem_of_nil in Hu'.
Qed.

(** The end of the transaction reads only. *)
Lemma updated_idea_db d : (updated_idea ideaId uid d).2 = d.
Proof.
  unfold updated_idea, op_bind, find_ideas, op_call, query.
  destruct (bound _); [|done]. destruct (_ <$> filter _ _) as [|row rows]; [done|].
  destruct (row_game row); [|done]. by destruct (row_creator row).
Qed.

(** It returns the idea when the idea is there with its game and its
    creator. *)
Lemma updated_idea_found d :
  bound [ideaId; uid] = true →
  idea_exists d ideaId = true →
  fk_ideas d = true →
  ∃ i rest game creator,
    filter (λ i, idea_id i = ideaId) (ideas d) = i :: rest
    ∧ updated_idea ideaId uid d
      = (Some {| iwr_idea := i;
                 iwr_game := game;
                 iwr_creator := creator;
                 iwr_game_name := game_name game;
                 creator_username := username creator;
                 has_voted := has_vote_row d ideaId uid |}, d).
Proof.
  intros Hb Hex Hfk.
  destruct (idea_exists_filter d Hex) as (i & rest & Hfil & Hid & Hin).
  destruct (fk_ideas_relations d i Hfk Hin) as [[game Hgame] [creator Hcreator]].
  exists i, rest, game, creator. split; [done|].
  unfold updated_idea, op_bind, find_ideas, op_call, query. rewrite Hb.
  rewrite Hfil, !fmap_cons. cbn [row_game row_creator].
  rewrite Hgame, Hcreator. cbn [row_idea row_has_voted]. by rewrite Hid.
Qed.

(** It throws when no idea has the id. *)
Lemma updated_idea_missing d :
  existsb (λ i, idea_id i =? ideaId) (ideas d) = false →
  (updated_idea ideaId uid d).1 = None.
Proof.
  intros Hno. unfold updated_idea, op_bind, find_ideas, op_call, query.
  destruct (bound _); [|done]. by rewrite idea_rows_missing.
Qed.

(** The transaction, statement by statement. *)
Lemma toggleIdeaVote_body_eq now d :
  toggleIdeaVote_body now ideaId uid d
  = if negb (bound [ideaId; uid]) then (None, d)
    else if has_vote_row d ideaId uid
    then (if votes_fit d ideaId (-1)
          then updated_idea ideaId uid (vote_removed ideaId uid d)
          else (None,
                set_ideaVotes
                  (filter (λ v, ¬ vote_of ideaId uid v = true) (ideaVotes d)) d))
    else if negb (int4 (ideaVotes_seq d)) then (None, d)
    else if idea_exists d ideaId && user_exists d uid
    then (if votes_fit d ideaId 1
          then updated_idea ideaId uid (vote_added now ideaId uid d)
          else (None,
                set_ideaVotes
                  (ideaVotes d ++
                     [{| vote_id := ideaVotes_seq d; vote_ideaId := ideaId;
                         vote_userId := uid; vote_createdAt := now |}])
                  (set_ideaVotes_seq (ideaVotes_seq d + 1) d)))
    else (None, set_ideaVotes_seq (ideaVotes_seq d + 1) d).
Proof.
  unfold toggleIdeaVote_body. unfold op_bind at 1.
  unfold select_votes, op_call, query.
  destruct (bound [ideaId; uid]) eqn:Hb; cbn [negb]; [|done].
  assert (Hb1 : bound [ideaId] = true).
  { rewrite bound_pair in Hb. rewrite bound_one.
    by apply andb_prop in Hb as [? _]. }
  unfold has_vote_row.
  destruct (filter (λ v, vote_of ideaId uid v = true) (ideaVotes d))
    as [|v existing] eqn:Hsel.
  - apply select_votes_nil in Hsel. rewrite Hsel.
    unfold op_bind at 1. unfold op_bind at 1. unfold insert_vote.
    rewrite Hb. cbn [andb].
    destruct (int4 (ideaVotes_seq d)); cbn [negb]; [|done].
    destruct (idea_exists d ideaId && user_exists d uid); [|done].
    unfold update_votes. rewrite Hb1. cbn [andb].
    change (votes_fit (set_ideaVotes _ _) ideaId 1) with (votes_fit d ideaId 1).
    by destruct (votes_fit d ideaId 1).
  - assert (Hhas : existsb (vote_of ideaId uid) (ideaVotes d) = true).
    { apply not_false_iff_true. intros Hno%select_votes_nil. congruence. }
    rewrite Hhas.
    unfold op_bind at 1. unfold op_bind at 1.
    unfold delete_votes, delete_ideaVotes_where. rewrite Hb.
    unfold update_votes. rewrite Hb1. cbn [andb].
    change (votes_fit (set_ideaVotes _ _) ideaId (-1))
      with (votes_fit d ideaId (-1)).
    by destruct (votes_fit d ideaId (-1)).
Qed.

(** What the two changed databases hold. *)
Lemma vote_added_facts now d :
  has_vote_row (vote_added now ideaId uid d) ideaId uid = true
  ∧ votes_of (vote_added now ideaId uid d) ideaId
    = (λ v, v + 1) <$> votes_of d ideaId
  ∧ idea_exists (vote_added now ideaId uid d) ideaId = idea_exists d ideaId
  ∧ fk_ideas (vote_added now ideaId uid d) = fk_ideas d
  ∧ users (vote_added now ideaId uid d) = users d
  ∧ ideaVotes_seq (vote_added now ideaId uid d) = ideaVotes_seq d + 1.
Proof.
  unfold vote_added. split_and!; try done.
  - apply existsb_insert_vote.
  - unfold votes_of. cbn [ideas set_ideas]. rewrite filter_bump.
    by destruct (filter _ (ideas d)).
  - unfold idea_exists. cbn [ideas set_ideas]. f_equal.
    apply existsb_bump. intros j. by destruct (bump_keys 1 j) as (-> & _).
  - unfold fk_ideas. cbn [ideas set_ideas].
    apply forallb_bump. intros j. by destruct (bump_keys 1 j) as (_ & -> & ->).
Qed.

Lemma vote_removed_facts d :
  has_vote_row (vote_removed ideaId uid d) ideaId uid = false
  ∧ votes_of (vote_removed ideaId uid d) ideaId
    = (λ v, v + -1) <$> votes_of d ideaId
  ∧ idea_exists (vote_removed ideaId uid d) ideaId = idea_exists d ideaId
  ∧ fk_ideas (vote_removed ideaId uid d) = fk_ideas d
  ∧ users (vote_removed ideaId uid d) = users d
  ∧ ideaVotes_seq (vote_removed ideaId uid d) = ideaVotes_seq d.
Proof.
  unfold vote_removed. split_and!; try done.
  - apply existsb_delete_votes.
  - unfold votes_of. cbn [ideas set_ideas]. rewrite filter_bump.
    by destruct (filter _ (ideas d)).
  - unfold idea_exists. cbn [ideas set_ideas]. f_equal.
    apply existsb_bump. intros j. by destruct (bump_keys (-1) j) as (-> & _).
  - unfold fk_ideas. cbn [ideas set_ideas].
    apply forallb_bump. intros j.
    by destruct (bump_keys (-1) j) as (_ & -> & ->).
Qed.


(** One call that the database accepts. *)
Lemma toggle_once now (d : Db) :
  idea_exists d ideaId = true →
  user_exists d uid = true →
  fk_ideas d = true →
  votes_fit d ideaId (if has_vote_row d ideaId uid then -1 else 1) = true →
  (has_vote_row d ideaId uid = false → int4 (ideaVotes_seq d) = true) →
  ∃ r d',
    toggleIdeaVote now ideaId uid d = (Some r, d')
    ∧ d' = (if has_vote_row d ideaId uid
            then vote_removed ideaId uid d
            else vote_added now ideaId uid d)
    ∧ has_vote_row d' ideaId uid = negb (has_vote_row d ideaId uid)
    ∧ votes_of d' ideaId
      = (λ v, v + (if has_vote_row d ideaId uid then -1 else 1))
          <$> votes_of d ideaId
    ∧ is_Some (votes_of d ideaId)
    ∧ votes_of d' ideaId = Some (votes (iwr_idea r))
    ∧ has_voted r = has_vote_row d' ideaId uid
    ∧ idea_exists d' ideaId = true
    ∧ user_exists d' uid = true
    ∧ fk_ideas d' = true.
Proof.
  intros Hex Hu Hfk Hfit Hseq.
  assert (Hb : bound [ideaId; uid] = true).
  { rewrite bound_pair. apply andb_true_intro. split.
    - unfold idea_exists in Hex. by apply andb_prop in Hex as [? _].
    - by eapply user_exists_int4. }
  assert (Hsome : is_Some (votes_of d ideaId)).
  { destruct (idea_exists_filter d Hex) as (i & rest & Hfil & _).
    unfold votes_of. rewrite Hfil. by eexists. }
  unfold toggleIdeaVote, transaction. rewrite toggleIdeaVote_body_eq, Hb.
  cbn [negb].
  destruct (has_vote_row d ideaId uid) eqn:Hrow.
  - rewrite Hfit.
    destruct (vote_removed_facts d) as (Hrow' & Hvotes & Hex' & Hfk' & Hus & _).
    rewrite Hex in Hex'. rewrite Hfk in Hfk'.
    destruct (updated_idea_found (vote_removed ideaId uid d) Hb Hex' Hfk')
      as (i & rest & game & creator & Hfil & ->).
    eexists _, _. split; [done|]. cbn [has_voted iwr_idea].
    split_and!; try done; try (unfold votes_of; by rewrite Hfil);
      unfold user_exists in *; by rewrite Hus.
  - rewrite (Hseq eq_refl), Hex, Hu, Hfit. cbn [negb andb].
    destruct (vote_added_facts now d) as (Hrow' & Hvotes & Hex' & Hfk' & Hus & _).
    rewrite Hex in Hex'. rewrite Hfk in Hfk'.
    destruct (updated_idea_found (vote_added now ideaId uid d) Hb Hex' Hfk')
      as (i & rest & game & creator & Hfil & ->).
    eexists _, _. split; [done|]. cbn [has_voted iwr_idea].
    split_and!; try done; try (unfold votes_of; by rewrite Hfil);
      unfold user_exists in *; by rewrite Hus.
Qed.

(** A call that throws leaves every table as it was. *)
Lemma toggleIdeaVote_thrown now d :
  (toggleIdeaVote now ideaId uid d).1 = None →
  tables (toggleIdeaVote now ideaId uid d).2 = tables d.
Proof.
  unfold toggleIdeaVote, transaction.
  by destruct (toggleIdeaVote_body now ideaId uid d) as [[r|] d'].
Qed.

(** What a call that returns did. *)
Lemma toggleIdeaVote_returned now d r d' :
  toggleIdeaVote now ideaId uid d = (Some r, d') →
  bound [ideaId; uid] = true
  ∧ existsb (λ i, idea_id i =? ideaId) (ideas d) = true
  ∧ ((has_vote_row d ideaId uid = false
      ∧ int4 (ideaVotes_seq d) = true
      ∧ user_exists d uid = true
      ∧ votes_fit d ideaId 1 = true
      ∧ d' = vote_added now ideaId uid d)
     ∨ (has_vote_row d ideaId uid = true
        ∧ votes_fit d ideaId (-1) = true
        ∧ d' = vote_removed ideaId uid d)).
Proof.
  unfold toggleIdeaVote, transaction. rewrite toggleIdeaVote_body_eq.
  destruct (bound [ideaId; uid]); cbn [negb]; [|done].
  destruct (has_vote_row d ideaId uid).
  - destruct (votes_fit d ideaId (-1)); [|done].
    pose proof (updated_idea_db (vote_removed ideaId uid d)) as Hdb.
    destruct (existsb (λ i, idea_id i =? ideaId) (ideas d)) eqn:Hex.
    + destruct (updated_idea _ _ _) as [[r0|] d0]; [|done].
      cbn [snd] in Hdb. intros [= _ <-]. split_and!; try done.
      right. by rewrite Hdb.
    + assert (Hno : (updated_idea ideaId uid (vote_removed ideaId uid d)).1 = None).
      { apply updated_idea_missing. unfold vote_removed. cbn [ideas set_ideas].
        rewrite existsb_bump; [done|]. intros j.
        by destruct (bump_keys (-1) j) as (-> & _). }
      destruct (updated_idea _ _ _) as [[r0|] d0]; done.
  - destruct (int4 (ideaVotes_seq d)); cbn [negb]; [|done].
    destruct (idea_exists d ideaId && user_exists d uid) eqn:Hboth; [|done].
    apply andb_prop in Hboth as [[_ Hex]%andb_prop Hu].
    destruct (votes_fit d ideaId 1); [|done].
    pose proof (updated_idea_db (vote_added now ideaId uid d)) as Hdb.
    destruct (updated_idea _ _ _) as [[r0|] d0]; [|done].
    cbn [snd] in Hdb. intros [= _ <-]. split_and!; try done.
    left. by rewrite Hdb.
Qed.

End Toggle.


(** * The properties at concrete states *)

(** User 4, who is not in group 7, sends it a message on socket 14. *)
Lemma group_message_non_member_witness :
  member_row 7 4 (db relay_example) = false
  ∧ (on_message all_open 1000 14%nat (Some (GroupChatMessage 4 7 "hi"))
       relay_example).2
    = [(14%nat, FrameError "You are not a member of this group")].
Proof.
  split; [reflexivity|].
  exact (proj1 (group_message_non_member all_open 1000 14%nat 4 7 "hi"
                  relay_example eq_refl)).
Defined.

(** C1 fails as stated: user 4 is in no group with the id 2147483648,
    which is no [int4], and a group message to it gets no error frame: the
    relay sends nothing. *)
Lemma group_message_out_of_range_no_error :
  let sent :=
    (on_message all_open 1000 14%nat
       (Some (GroupChatMessage 4 2147483648 "hi")) relay_example).2 in
  member_row 2147483648 4 (db relay_example) = false
  ∧ sent = []
  ∧ frames_to 14%nat sent ≠ [FrameError "You are not a member of this group"].
Proof. split; [reflexivity|]. split; [reflexivity|]. discriminate. Qed.

(** User 4 tells group 7 that they are typing. *)
Lemma group_typing_non_member_witness :
  member_row 7 4 (db relay_example) = false
  ∧ (on_message all_open 1000 14%nat (Some (GroupTypingStatus 4 7 true))
       relay_example).2
    = [].
Proof.
  split; [reflexivity|].
  exact (proj1 (group_typing_non_member all_open 1000 14%nat 4 7 true
                  relay_example eq_refl)).
Defined.





(** C4 fails as stated: user 1 reconnects on socket 22, the registry
    points at socket 22, and the close of the old socket 21 removes that
    entry. *)
Lemma close_removes_newer_registration :
  let st := (run reconnect relay_start).1 in
  userId st !! 21%nat = Some 1
  ∧ clients st !! 1 = Some 22%nat
  ∧ 22%nat ≠ 21%nat
  ∧ clients (on_close 21%nat st) !! 1 = None
  ∧ clients (on_close 21%nat st) !! 1 ≠ clients st !! 1.
Proof.
  split; [reflexivity|]. split; [reflexivity|]. split; [discriminate|].
  split; [reflexivity|]. vm_compute. discriminate.
Qed.

Lemma on_close_removes_entry_witness :
  let st := (run reconnect relay_start).1 in
  userId st !! 21%nat = Some 1
  ∧ 1 ≠ 0
  ∧ clients (on_close 21%nat st) !! 1 = None.
Proof.
  split; [reflexivity|]. split; [discriminate|].
  exact (proj1 (on_close_removes_entry 21%nat 1 (run reconnect relay_start).1
                  eq_refl ltac:(discriminate))).
Defined.








(** * The rest of the relay *)


Lemma on_message_error_frame readyState now ws data st e :
  e ∈ (on_message readyState now ws data st).2 →
  frame_type e.2 = "error" →
  e = (ws, FrameError "You are not a member of this group")
  ∧ ∃ from gid text,
      data = Some (GroupChatMessage from gid text)
      ∧ isGroupMember gid from (db st) = Some false.
Proof.
  destruct data as [message|]; [|by intros ?%elem_of_nil].
  destruct message as [from to text|from gid text|from to b|from gid b].
  - destruct (insertable (direct_message from to text now) (db st)) eqn:Hins.
    + rewrite on_message_direct by done. cbn [snd].
      rewrite elem_of_app, list_elem_of_singleton.
      intros [(_ & _ & _ & _ & ->)%send_to_recipient_spec| ->]; done.
    + destruct (on_message_direct_rejected readyState now ws from to text st Hins)
        as [-> _]. by intros ?%elem_of_nil.
  - destruct (isGroupMember gid from (db st)) as [[|]|] eqn:Hm.
    + destruct (insertable (group_message from gid text now) (db st)) eqn:Hins.
      * rewrite on_message_group by done. cbn [snd].
        rewrite elem_of_app, list_elem_of_singleton.
        intros [(u & _ & _ & _ & _ & ->)%fan_out_spec| ->]; done.
      * destruct (on_message_group_rejected readyState now ws from gid text st
                    Hm Hins) as [-> _]. by intros ?%elem_of_nil.
    + rewrite on_message_group_other by congruence. cbn [snd].
      destruct (bound [gid; from]); [|by intros ?%elem_of_nil].
      intros ->%list_elem_of_singleton _. split; [done|]. eauto.
    + rewrite on_message_group_other by congruence. cbn [snd].
      rewrite isGroupMember_cases in Hm.
      destruct (bound [gid; from]); [done|]. by intros ?%elem_of_nil.
  - cbn [on_message snd]. cbn zeta. by intros (_ & _ & ->)%send_if_open_spec.
  - rewrite on_message_group_typing. cbn [snd].
    destruct (isGroupMember _ _ _) as [[|]|]; try by intros ?%elem_of_nil.
    by intros (u & _ & _ & _ & _ & ->)%fan_out_spec.
Qed.

Lemma isGroupMember_same gid uid d d' :
  groupMembers d' = groupMembers d →
  isGroupMember gid uid d' = isGroupMember gid uid d.
Proof.
  intros Heq. unfold isGroupMember, query, member_row. by rewrite Heq.
Qed.

Lemma step_group_rows e st :
  ∃ new,
    inserted new (db st) (db (step e st).1)
    ∧ Forall (λ m, ∀ g, groupId m = Some g →
                        isGroupMember g (fromUserId m) (db st) = Some true) new.
Proof.
  destruct e as [readyState now ws data|ws]; cbn [step fst].
  - destruct (on_message_inserted readyState now ws data st)
      as (new & Hins & _ & Hnew).
    exists new. split; [done|].
    destruct data as [[from to text|from gid text|from to b|from gid b]|];
      subst; try by constructor.
    + destruct (insertable _ _); [apply Forall_singleton|constructor]. done.
    + case_bool_decide as Hm; cbn [andb]; [|constructor].
      destruct (insertable _ _); [apply Forall_singleton|constructor].
      by intros g [= <-].
  - exists []. rewrite on_close_db. split; [apply inserted_refl|constructor].
Qed.

Lemma run_group_rows es st :
  ∃ new,
    messages (db (run es st).1) = messages (db st) ++ new
    ∧ Forall (λ m, ∀ g, groupId m = Some g →
                        isGroupMember g (fromUserId m) (db st) = Some true) new.
Proof.
  revert st. induction es as [|e rest IH]; intros st.
  - exists []. by rewrite app_nil_r.
  - rewrite run_cons_fst.
    destruct (IH (step e st).1) as (new2 & -> & H2).
    destruct (step_group_rows e st) as (new1 & Hins & H1).
    apply inserted_tables in Hins as (_ & _ & Hr & -> & _).
    exists (new1 ++ new2). rewrite app_assoc. split; [done|].
    apply Forall_app. split; [done|].
    eapply Forall_impl; [done|]. cbn beta. intros m Hm g Hg.
    rewrite <- (isGroupMember_same _ _ _ _ Hr). by apply Hm.
Qed.

(** * Properties of the code around the claims *)

(** ** The relay *)


(** X2.  A direct-message frame that the database does not accept (the
    sender or the recipient is no user, an id is no [int4], the content
    holds U+0000, or no id is left) changes no table and sends nothing,
    not even to the sender; the sender's socket is registered all the
    same. *)
Theorem direct_message_rejected
    readyState now ws from to text st :
  insertable (direct_message from to text now) (db st) = false →
  let result :=
    on_message readyState now ws (Some (DirectChatMessage from to text)) st in
  result.2 = []
  ∧ tables (db result.1) = tables (db st)
  ∧ (from ≠ 0 → clients result.1 !! from = Some ws).
Proof.
  intros Hno result. subst result.
  destruct (on_message_direct_rejected readyState now ws from to text st Hno)
    as (Hsent & Htables & Hcl & _).
  split; [done|]. split; [done|]. rewrite Hcl. apply register_lookup.
Qed.


(** X4.  Whatever the frame, a handler run calls [send] only on its own
    socket and on sockets that the registry holds and that are open. *)
Theorem relay_sends_to_open_or_own_socket readyState now ws data st :
  Forall (λ e, e.1 = ws
               ∨ (readyState e.1 = OPEN
                  ∧ ∃ v, clients (on_message readyState now ws data st).1 !! v
                         = Some e.1))
         (on_message readyState now ws data st).2.
Proof. apply Forall_forall. intros e. apply on_message_sent_open. Qed.

(** X5.  The relay sends a frame of type ["error"] in one case only: to
    the sender of a group message for whom [isGroupMember] returned
    false. *)
Theorem error_frame_only_for_non_member readyState now ws data st :
  Forall (λ e, frame_type e.2 = "error" →
               e = (ws, FrameError "You are not a member of this group")
               ∧ ∃ from gid text,
                   data = Some (GroupChatMessage from gid text)
                   ∧ isGroupMember gid from (db st) = Some false)
         (on_message readyState now ws data st).2.
Proof. apply Forall_forall. intros e. apply on_message_error_frame. Qed.

(** X6.  A socket that sent frames under two user ids and then closes
    takes only the second id out of the registry: the entry of the first
    id stays and points at the closed socket. *)
Theorem close_leaves_earlier_registration
    readyState1 now1 readyState2 now2 ws m1 m2 u1 u2 st :
  ws_fromUserId m1 = u1 →
  ws_fromUserId m2 = u2 →
  u1 ≠ 0 → u2 ≠ 0 → u1 ≠ u2 →
  let st' := (run [ Arrives readyState1 now1 ws (Some m1);
                    Arrives readyState2 now2 ws (Some m2);
                    Closes ws ] st).1 in
  clients st' !! u1 = Some ws ∧ clients st' !! u2 = None.
Proof.
  intros H1 H2 Hu1 Hu2 Hne st'. subst st'.
  rewrite !run_cons_fst. change (run [] ?s).1 with s. cbn [step fst].
  set (st2 := (on_message readyState2 now2 ws (Some m2) _).1).
  assert (Hcl : clients st2 = <[u2 := ws]> (<[u1 := ws]> (clients st))).
  { unfold st2. rewrite on_message_clients, H2, register_clients,
      bool_decide_true by done.
    by rewrite on_message_clients, H1, register_clients, bool_decide_true. }
  assert (Hid : userId st2 !! ws = Some u2).
  { unfold st2. rewrite on_message_userId, H2, register_userId,
      bool_decide_true by done. apply lookup_insert_eq. }
  unfold on_close. rewrite Hid, bool_decide_true by done. cbn [clients].
  rewrite Hcl. split.
  - rewrite lookup_delete_ne, lookup_insert_ne, lookup_insert_eq by done. done.
  - apply lookup_delete_eq.
Qed.

(** X7.  Along every run of the relay, a row that is added with a group
    id has a sender for whom [isGroupMember] returns true for that
    group. *)
Theorem relay_group_rows_from_members es st :
  ∃ new,
    messages (db (run es st).1) = messages (db st) ++ new
    ∧ Forall (λ m, ∀ g, groupId m = Some g →
                        isGroupMember g (fromUserId m) (db st) = Some true) new.
Proof. apply run_group_rows. Qed.

(** X25.  Typing indicators are never stored: along a run in which no
    chat message arrives (typing frames of both kinds, unreadable frames
    and closes only) the database stays as it is, and every frame sent
    has the type ["typing"] or ["groupTyping"]. *)
Theorem typing_is_never_stored es st :
  Forall (λ e, ∀ readyState now ws message,
               e = Arrives readyState now ws (Some message) →
               (∃ from to isTyping, message = TypingStatus from to isTyping)
               ∨ (∃ from gid isTyping,
                    message = GroupTypingStatus from gid isTyping)) es →
  db (run es st).1 = db st
  ∧ Forall (λ e, frame_type e.2 = "typing" ∨ frame_type e.2 = "groupTyping")
           (run es st).2.
Proof.
  intros Hes. revert st.
  induction Hes as [|e rest He _ IH]; intros st; [by split|].
  assert (Hstep : db (step e st).1 = db st
                  ∧ Forall (λ e, frame_type e.2 = "typing"
                                 ∨ frame_type e.2 = "groupTyping")
                           (step e st).2).
  { destruct e as [readyState now ws [message|]|ws].
    - destruct (He readyState now ws message eq_refl)
        as [(from & to & b & ->)|(from & gid & b & ->)]; cbn [step].
      + cbn [on_message ws_fromUserId fst snd]. cbn zeta.
        split; [apply register_db|]. apply Forall_forall.
        intros e (_ & _ & ->)%send_if_open_spec. by left.
      + rewrite on_message_group_typing. cbn [fst snd].
        split; [apply register_db|].
        destruct (isGroupMember _ _ _) as [[|]|]; try done.
        apply Forall_forall.
        intros e (_ & _ & _ & _ & _ & ->)%fan_out_spec. by right.
    - by split.
    - simpl. split; [apply on_close_db|done]. }
  simpl. destruct (step e st) as [st1 sent1]. destruct Hstep as [Hdb1 Hsent1].
  destruct (IH st1) as [Hdb2 Hsent2].
  destruct (run rest st1) as [st2 sent2]. simpl in *.
  split; [congruence|]. by apply Forall_app.
Qed.

(** * The rest of the storage layer *)

(** ** Tables *)

Lemma filter_all {A} (P : A → Prop) `{∀ a, Decision (P a)} (l : list A) :
  (∀ a, a ∈ l → P a) → filter P l = l.
Proof.
  induction l as [|a l IH]; [done|]. intros HP.
  rewrite filter_cons_True by (apply HP; left).
  f_equal. apply IH. intros b Hb. apply HP. by right.
Qed.

Lemma existsb_false {A} (p : A → bool) (l : list A) :
  existsb p l = false ↔ ∀ x, x ∈ l → p x = false.
Proof.
  induction l as [|a l IH]; simpl.
  - split; [by intros _ ? ?%elem_of_nil|done].
  - rewrite orb_false_iff, IH. split.
    + intros [Ha Hl] x Hx. apply elem_of_cons in Hx. destruct Hx; subst; auto.
    + intros H. split; [apply H; left|]. intros x Hx. apply H. by right.
Qed.

Lemma existsb_pointwise {A} (p q : A → bool) (l : list A) :
  (∀ x, p x = q x) → existsb p l = existsb q l.
Proof. intros H. induction l as [|a l IH]; simpl; [done|]. by rewrite H, IH. Qed.

Lemma existsb_true {A} (p : A → bool) (l : list A) :
  existsb p l = true ↔ ∃ x, x ∈ l ∧ p x = true.
Proof.
  rewrite existsb_exists. split; intros (x & Hx & Hp); exists x;
    (split; [by apply list_elem_of_In|done]).
Qed.

Lemma forallb_true {A} (p : A → bool) (l : list A) :
  forallb p l = true ↔ ∀ x, x ∈ l → p x = true.
Proof.
  rewrite forallb_forall. split; intros H x Hx; apply H;
    by apply list_elem_of_In.
Qed.

Lemma user_exists_iff d uid :
  user_exists d uid = true
  ↔ int4 uid = true ∧ ∃ u, u ∈ users d ∧ user_id u = uid.
Proof.
  unfold user_exists. rewrite andb_true_iff, existsb_true.
  split; intros [? (u & Hu & He)]; (split; [done|]); exists u;
    (split; [done|lia]).
Qed.

Lemma group_exists_iff d gid :
  group_exists d gid = true
  ↔ int4 gid = true ∧ ∃ g, g ∈ groups d ∧ group_id g = gid.
Proof.
  unfold group_exists. rewrite andb_true_iff, existsb_true.
  split; intros [? (g & Hg & He)]; (split; [done|]); exists g;
    (split; [done|lia]).
Qed.

Lemma game_exists_iff d gid :
  game_exists d gid = true
  ↔ int4 gid = true ∧ ∃ g, g ∈ games d ∧ game_id g = gid.
Proof.
  unfold game_exists. rewrite andb_true_iff, existsb_true.
  split; intros [? (g & Hg & He)]; (split; [done|]); exists g;
    (split; [done|lia]).
Qed.

Lemma idea_exists_iff d iid :
  idea_exists d iid = true
  ↔ int4 iid = true ∧ ∃ i, i ∈ ideas d ∧ idea_id i = iid.
Proof.
  unfold idea_exists. rewrite andb_true_iff, existsb_true.
  split; intros [? (i & Hi & He)]; (split; [done|]); exists i;
    (split; [done|lia]).
Qed.

Lemma owner_row_true gid uid d :
  owner_row gid uid d = true
  ↔ ∃ g, g ∈ groups d ∧ group_id g = gid ∧ ownerId g = uid.
Proof.
  unfold owner_row.
  destruct (filter _ (groups d)) as [|g rest] eqn:Hfil.
  - split; [done|]. intros (g & Hin & Hg).
    assert (g ∈ filter (λ g, group_id g = gid ∧ ownerId g = uid) (groups d))
      as Hg' by by apply list_elem_of_filter.
    rewrite Hfil in Hg'. by apply elem_of_nil in Hg'.
  - split; [|done]. intros _. exists g.
    assert (g ∈ filter (λ g, group_id g = gid ∧ ownerId g = uid) (groups d))
      as Hg' by (rewrite Hfil; left).
    apply list_elem_of_filter in Hg' as [? ?]. done.
Qed.

Lemma member_row_false gid uid d :
  member_row gid uid d = false
  ↔ ∀ r, r ∈ groupMembers d → ¬ (gm_groupId r = gid ∧ gm_userId r = uid).
Proof.
  rewrite <- not_true_iff_false, member_row_true. naive_solver.
Qed.

Lemma isGroupOwner_Some gid uid d b :
  isGroupOwner gid uid d = Some b
  ↔ int4 gid = true ∧ int4 uid = true ∧ owner_row gid uid d = b.
Proof.
  unfold isGroupOwner. rewrite query_Some, bound_pair, andb_true_iff.
  naive_solver.
Qed.

Lemma isGroupOwner_cases gid uid d :
  isGroupOwner gid uid d
  = if bound [gid; uid] then Some (owner_row gid uid d) else None.
Proof. done. Qed.

Lemma head_filter_None {A} (P : A → Prop) `{∀ a, Decision (P a)} (l : list A) :
  head (filter P l) = None ↔ ∀ a, a ∈ l → ¬ P a.
Proof.
  destruct (filter P l) as [|a rest] eqn:Hfil; simpl.
  - split; [|done]. intros _ a Ha HP.
    assert (a ∈ filter P l) as Ha' by by apply list_elem_of_filter.
    rewrite Hfil in Ha'. by apply elem_of_nil in Ha'.
  - split; [done|]. intros Hno. exfalso.
    assert (a ∈ filter P l) as Ha' by (rewrite Hfil; left).
    apply list_elem_of_filter in Ha' as [? ?]. by eapply Hno.
Qed.

(** ** [deleteGroup] *)

Lemma deleteGroup_eq gid uid d :
  deleteGroup gid uid d
  = if negb (bound [gid; uid]) then (None, d)
    else if owner_row gid uid d then (Some true, group_deleted gid d)
    else (Some false, d).
Proof.
  unfold deleteGroup. unfold op_bind at 1. unfold op_call.
  rewrite isGroupOwner_cases.
  destruct (bound [gid; uid]) eqn:Hb; cbn [negb]; [|done].
  destruct (owner_row gid uid d); cbn [negb]; [|done].
  assert (Hb1 : bound [gid] = true).
  { rewrite bound_pair in Hb. rewrite bound_one.
    by apply andb_prop in Hb as [? _]. }
  unfold op_bind, delete_groupMembers_where, delete_messages_where,
    delete_groups_where. rewrite Hb1. cbn [andb].
  match goal with |- context [existsb ?p ?l] =>
    assert (Hfk : existsb p l = false) end.
  { apply existsb_false. intros g _.
    apply andb_false_iff. destruct (decide (group_id g = gid)) as [Heq|Hne];
      [right; rewrite Heq|left; by apply bool_decide_eq_false].
    unfold group_referenced. cbn [groupMembers messages set_messages
                                   set_groupMembers].
    apply orb_false_iff. split; apply existsb_false.
    - intros r [Hr _]%list_elem_of_filter. lia.
    - intros m [Hm _]%list_elem_of_filter. by apply bool_decide_eq_false. }
  rewrite Hfk. done.
Qed.

Lemma group_deleted_facts gid d :
  let d' := group_deleted gid d in
  getGroup gid d' = query [gid] (λ _, None) d
  ∧ (∀ u, member_row gid u d' = false)
  ∧ members_of gid d' = []
  ∧ (∀ m, m ∈ messages d' ↔ m ∈ messages d ∧ groupId m ≠ Some gid)
  ∧ (∀ g, g ∈ groups d' ↔ g ∈ groups d ∧ group_id g ≠ gid)
  ∧ (∀ r, r ∈ groupMembers d' ↔ r ∈ groupMembers d ∧ gm_groupId r ≠ gid)
  ∧ users d' = users d
  ∧ games d' = games d ∧ ideas d' = ideas d ∧ ideaVotes d' = ideaVotes d.
Proof.
  intros d'. subst d'. unfold group_deleted.
  assert (Hmem : ∀ u, member_row gid u
    (set_groups (filter (λ g, ¬ group_id g = gid) (groups d))
       (set_messages (filter (λ m, ¬ groupId m = Some gid) (messages d))
          (set_groupMembers
             (filter (λ r, ¬ gm_groupId r = gid) (groupMembers d)) d)))
    = false).
  { intros u. apply member_row_false.
    cbn [groupMembers set_groups set_messages set_groupMembers].
    intros r [Hr _]%list_elem_of_filter [? _]. done. }
  split_and!; try done.
  - unfold getGroup, query. destruct (bound [gid]); [|done]. f_equal.
    apply head_filter_None. cbn [groups set_groups].
    intros g [Hg _]%list_elem_of_filter. done.
  - unfold members_of. cbn [groupMembers set_groups set_messages
      set_groupMembers].
    rewrite list_filter_filter, filter_none; [done|]. naive_solver.
  - intros m. cbn [messages set_groups set_messages].
    rewrite list_elem_of_filter. tauto.
  - intros g. cbn [groups set_groups]. rewrite list_elem_of_filter. tauto.
  - intros r. cbn [groupMembers set_groups set_messages set_groupMembers].
    rewrite list_elem_of_filter. tauto.
Qed.

(** ** [removeGroupMember] *)

Lemma member_row_delete_pair gid uid g u d :
  member_row g u
    (set_groupMembers
       (filter (λ r, ¬ (gm_groupId r = gid ∧ gm_userId r = uid)) (groupMembers d))
       d)
  = if bool_decide (g = gid ∧ u = uid) then false else member_row g u d.
Proof.
  case_bool_decide as Hp.
  - destruct Hp as [-> ->]. apply member_row_false.
    cbn [groupMembers set_groupMembers].
    by intros r [Hr _]%list_elem_of_filter.
  - destruct (member_row g u d) eqn:Hm.
    + apply member_row_true in Hm as (r & Hin & Hg & Hu).
      apply member_row_true. exists r. split; [|done].
      cbn [groupMembers set_groupMembers]. apply list_elem_of_filter.
      split; [|done]. intros [? ?]. apply Hp. split; congruence.
    + apply member_row_false. intros r Hr.
      cbn [groupMembers set_groupMembers] in Hr.
      apply list_elem_of_filter in Hr as [_ Hr].
      rewrite member_row_false in Hm. by apply Hm.
Qed.

Lemma removeGroupMember_eq gid uid d :
  removeGroupMember gid uid d
  = if negb (bound [gid; uid]) then (None, d)
    else if member_row gid uid d && negb (owner_row gid uid d)
    then (Some true,
          set_groupMembers
            (filter (λ r, ¬ (gm_groupId r = gid ∧ gm_userId r = uid))
                    (groupMembers d)) d)
    else (Some false, d).
Proof.
  unfold removeGroupMember. unfold op_bind at 1. unfold op_call.
  rewrite isGroupMember_cases.
  destruct (bound [gid; uid]) eqn:Hb; cbn [negb]; [|done].
  destruct (member_row gid uid d); cbn [negb andb]; [|done].
  unfold op_bind at 1. rewrite isGroupOwner_cases, Hb.
  destruct (owner_row gid uid d); cbn [negb]; [done|].
  unfold op_bind, delete_groupMembers_where. by rewrite Hb.
Qed.

(** ** [transferGroupOwnership] *)

Lemma owner_row_update gid new g u d :
  owner_row g u
    (set_groups
       ((λ x, if group_id x =? gid
              then {| group_id := group_id x; group_name := group_name x;
                      ownerId := new |}
              else x) <$> groups d) d)
  = if bool_decide (g = gid)
    then existsb (λ x, group_id x =? gid) (groups d) && bool_decide (u = new)
    else owner_row g u d.
Proof.
  cbn [groups set_groups].
  match goal with |- ?lhs = ?rhs =>
    destruct rhs eqn:Hrhs; [apply owner_row_true|apply not_true_iff_false;
      rewrite owner_row_true; intros Hex] end.
  - cbn [groups set_groups]. case_bool_decide as Hg.
    + subst g. apply andb_prop in Hrhs as [Hex Hu].
      apply bool_decide_eq_true in Hu as ->.
      apply existsb_true in Hex as (x & Hx & Hid%Z.eqb_eq).
      eexists. split; [apply list_elem_of_fmap_2, Hx|].
      cbn beta. rewrite (proj2 (Z.eqb_eq _ _) Hid). done.
    + apply owner_row_true in Hrhs as (x & Hx & Hid & Hown).
      eexists. split; [apply list_elem_of_fmap_2, Hx|].
      cbn beta. rewrite (proj2 (Z.eqb_neq _ _)) by congruence. done.
  - destruct Hex as (y & Hy & Hid & Hown). cbn [groups set_groups] in Hy.
    apply list_elem_of_fmap in Hy as (x & -> & Hx).
    destruct (Z.eqb_spec (group_id x) gid) as [Hx'|Hx']; cbn in Hid, Hown.
    + subst g. rewrite bool_decide_true in Hrhs by done.
      apply andb_false_iff in Hrhs as [Hno|Hno].
      * apply not_true_iff_false in Hno. apply Hno, existsb_true.
        exists x. split; [done|lia].
      * apply bool_decide_eq_false in Hno. done.
    + rewrite bool_decide_false in Hrhs by congruence.
      apply not_true_iff_false in Hrhs. apply Hrhs, owner_row_true. eauto.
Qed.

Lemma transferGroupOwnership_eq gid cur new d :
  transferGroupOwnership gid cur new d
  = if negb (bound [gid; cur]) then (None, d)
    else if negb (owner_row gid cur d) then (Some false, d)
    else if negb (int4 new) then (None, d)
    else if negb (member_row gid new d) then (Some false, d)
    else if user_exists d new then (Some true, owner_changed gid new d)
    else (None, d).
Proof.
  unfold transferGroupOwnership. unfold op_bind at 1. unfold op_call.
  rewrite isGroupOwner_cases.
  destruct (bound [gid; cur]) eqn:Hb; cbn [negb]; [|done].
  destruct (owner_row gid cur d) eqn:Ho; cbn [negb]; [|done].
  rewrite bound_pair in Hb. apply andb_prop in Hb as [Hg Hc].
  unfold op_bind at 1. rewrite isGroupMember_cases, bound_pair, Hg.
  cbn [andb]. destruct (int4 new) eqn:Hn; cbn [negb]; [|done].
  destruct (member_row gid new d); cbn [negb]; [|done].
  unfold op_bind, update_group_owner. rewrite bound_pair, Hg, Hn. cbn [andb].
  assert (Hex : group_exists d gid = true).
  { apply owner_row_true in Ho as (g & Hin & Hid & _).
    apply group_exists_iff. eauto. }
  rewrite Hex. cbn [negb orb]. by destruct (user_exists d new).
Qed.

(** ** [addGroupMember] and [createGroup] *)

Lemma member_row_insert gid uid id g u d :
  member_row g u
    (set_groupMembers
       (groupMembers d ++ [{| gm_id := id; gm_groupId := gid; gm_userId := uid |}])
       d)
  = if bool_decide (g = gid ∧ u = uid) then true else member_row g u d.
Proof.
  case_bool_decide as Hp.
  - destruct Hp as [-> ->]. apply member_row_true. eexists.
    split; [cbn [groupMembers set_groupMembers]; apply elem_of_app; right; left|].
    done.
  - destruct (member_row g u d) eqn:Hm.
    + apply member_row_true in Hm as (r & Hin & Hr).
      apply member_row_true. exists r. split; [|done].
      cbn [groupMembers set_groupMembers]. apply elem_of_app. by left.
    + apply member_row_false. intros r Hr.
      cbn [groupMembers set_groupMembers] in Hr.
      apply elem_of_app in Hr as [Hr|Hr%list_elem_of_singleton].
      * rewrite member_row_false in Hm. by apply Hm.
      * subst r. cbn. intros [? ?]. apply Hp. done.
Qed.

Lemma addGroupMember_eq gid uid d :
  addGroupMember gid uid d
  = if negb (bound [gid; uid]) then (None, d)
    else if member_row gid uid d then (Some tt, d)
    else if negb (int4 (groupMembers_seq d)) then (None, d)
    else if user_exists d uid && group_exists d gid
    then (Some tt, member_added gid uid d)
    else (None, set_groupMembers_seq (groupMembers_seq d + 1) d).
Proof.
  unfold addGroupMember. unfold op_bind. unfold op_call.
  rewrite isGroupMember_cases.
  destruct (bound [gid; uid]) eqn:Hb; cbn [negb]; [|done].
  destruct (member_row gid uid d); [done|].
  unfold insert_groupMember. rewrite Hb. cbn [andb].
  destruct (int4 (groupMembers_seq d)); cbn [negb]; [|done].
  by destruct (user_exists d uid && group_exists d gid).
Qed.

Lemma owner_changed_facts gid new d :
  existsb (λ x, group_id x =? gid) (groups d) = true →
  let d' := owner_changed gid new d in
  owner_row gid new d' = true
  ∧ (∀ u, u ≠ new → owner_row gid u d' = false)
  ∧ (∀ g u, g ≠ gid → owner_row g u d' = owner_row g u d)
  ∧ groupMembers d' = groupMembers d
  ∧ users d' = users d
  ∧ messages d' = messages d.
Proof.
  intros Hex d'. subst d'. unfold owner_changed. split_and!; try done.
  - rewrite owner_row_update, bool_decide_true, Hex by done.
    by rewrite bool_decide_true.
  - intros u Hne. rewrite owner_row_update, bool_decide_true, Hex by done.
    by rewrite bool_decide_false.
  - intros g u Hne. rewrite owner_row_update. by rewrite bool_decide_false.
Qed.

Lemma owner_row_group gid uid d :
  owner_row gid uid d = true →
  existsb (λ x, group_id x =? gid) (groups d) = true.
Proof.
  intros (g & Hin & Hid & _)%owner_row_true. apply existsb_true.
  exists g. split; [done|lia].
Qed.

Lemma isGroupOwner_same gid uid d d' :
  groups d' = groups d → isGroupOwner gid uid d' = isGroupOwner gid uid d.
Proof. intros Heq. unfold isGroupOwner, query, owner_row. by rewrite Heq. Qed.

(** ** Groups *)

(** X8.  [deleteGroup] throws exactly when [isGroupOwner] does, for an id
    that is no [int4], and otherwise returns what [isGroupOwner] returns.
    Unless that is [true], nothing changes.  When it is, the group, its
    membership rows and its messages are gone, and nothing else is: the
    other groups, the rows and messages of other groups and every user
    stay. *)
Theorem deleteGroup_spec gid uid d :
  let result := deleteGroup gid uid d in
  let d' := result.2 in
  result.1 = isGroupOwner gid uid d
  ∧ (isGroupOwner gid uid d ≠ Some true → d' = d)
  ∧ (isGroupOwner gid uid d = Some true →
       getGroup gid d' = Some None
       ∧ (∀ u, isGroupMember gid u d' ≠ Some true)
       ∧ getGroupMembers gid d' = Some []
       ∧ (∀ m, m ∈ messages d' ↔ m ∈ messages d ∧ groupId m ≠ Some gid)
       ∧ (∀ g, g ∈ groups d' ↔ g ∈ groups d ∧ group_id g ≠ gid)
       ∧ (∀ r, r ∈ groupMembers d' ↔ r ∈ groupMembers d ∧ gm_groupId r ≠ gid)
       ∧ users d' = users d).
Proof.
  intros result d'. subst result d'.
  rewrite deleteGroup_eq, isGroupOwner_cases.
  destruct (bound [gid; uid]) eqn:Hb; cbn [negb]; [|by split_and!].
  destruct (owner_row gid uid d) eqn:Ho; cbn [fst snd]; [|by split_and!].
  split; [done|]. split; [done|]. intros _.
  destruct (group_deleted_facts gid d)
    as (Hget & Hmem & Hmembers & Hm & Hg & Hr & Hu & _).
  assert (Hg4 : bound [gid] = true).
  { rewrite bound_pair in Hb. rewrite bound_one.
    by apply andb_prop in Hb as [? _]. }
  split_and!; try done.
  - rewrite Hget. unfold query. by rewrite Hg4.
  - intros u. apply isGroupMember_not_true, Hmem.
  - unfold getGroupMembers, query. by rewrite Hg4, Hmembers.
Qed.

(** X9.  [removeGroupMember] throws exactly when an id is no [int4].
    Otherwise it returns [true] for a member who is not the owner, and
    removes their membership; for the owner or a non-member it returns
    [false] and changes nothing.  A removal touches no other membership, no
    group, no user and no message. *)
Theorem removeGroupMember_spec gid uid d :
  let result := removeGroupMember gid uid d in
  let d' := result.2 in
  result.1 = match isGroupMember gid uid d, isGroupOwner gid uid d with
             | Some isMember, Some isOwner => Some (isMember && negb isOwner)
             | _, _ => None
             end
  ∧ (result.1 ≠ Some true → d' = d)
  ∧ (result.1 = Some true →
       isGroupMember gid uid d' = Some false
       ∧ (∀ g u, (g, u) ≠ (gid, uid) →
                 isGroupMember g u d' = isGroupMember g u d)
       ∧ groups d' = groups d
       ∧ users d' = users d
       ∧ messages d' = messages d).
Proof.
  intros result d'. subst result d'.
  rewrite removeGroupMember_eq, isGroupMember_cases, isGroupOwner_cases.
  destruct (bound [gid; uid]) eqn:Hb; cbn [negb]; [|by split_and!].
  destruct (member_row gid uid d && negb (owner_row gid uid d)) eqn:Hrm;
    cbn [fst snd]; [|by split_and!].
  split; [done|]. split; [done|]. intros _. split_and!; try done.
  - rewrite isGroupMember_cases, Hb, member_row_delete_pair.
    by rewrite bool_decide_true.
  - intros g u Hne. rewrite !isGroupMember_cases, member_row_delete_pair.
    rewrite bool_decide_false; [done|]. intros [-> ->]. done.
Qed.

(** X10.  [transferGroupOwnership], in a database whose memberships
    point at users, returns [false] when [isGroupOwner] does for the
    caller, and otherwise what [isGroupMember] returns for the new owner;
    it throws exactly when one of the two does, for an id that is no
    [int4].  Unless it returns [true], nothing changes.  After a transfer
    the new owner, and nobody else, owns the group; other groups, all
    memberships, users and messages are as before. *)
Theorem transferGroupOwnership_spec gid currentOwnerId newOwnerId d :
  fk_groupMembers d = true →
  let result := transferGroupOwnership gid currentOwnerId newOwnerId d in
  let d' := result.2 in
  result.1 = match isGroupOwner gid currentOwnerId d with
             | Some true => isGroupMember gid newOwnerId d
             | other => other
             end
  ∧ (result.1 ≠ Some true → d' = d)
  ∧ (result.1 = Some true →
       isGroupOwner gid newOwnerId d' = Some true
       ∧ (∀ u, u ≠ newOwnerId → isGroupOwner gid u d' ≠ Some true)
       ∧ (∀ g u, g ≠ gid → isGroupOwner g u d' = isGroupOwner g u d)
       ∧ groupMembers d' = groupMembers d
       ∧ users d' = users d
       ∧ messages d' = messages d).
Proof.
  intros Hfk result d'. subst result d'.
  rewrite transferGroupOwnership_eq, isGroupOwner_cases, isGroupMember_cases.
  destruct (bound [gid; currentOwnerId]) eqn:Hb; cbn [negb]; [|by split_and!].
  destruct (owner_row gid currentOwnerId d) eqn:Ho; cbn [negb];
    [|by split_and!].
  rewrite bound_pair in Hb. apply andb_prop in Hb as [Hg Hc].
  rewrite bound_pair, Hg. cbn [andb].
  destruct (int4 newOwnerId) eqn:Hn; cbn [negb]; [|by split_and!].
  destruct (member_row gid newOwnerId d) eqn:Hm; cbn [negb]; [|by split_and!].
  destruct (fk_member _ _ _ Hfk Hm) as [Hu _]. rewrite Hu. cbn [fst snd].
  destruct (owner_changed_facts gid newOwnerId d (owner_row_group _ _ _ Ho))
    as (Hnew & Hold & Hothers & Hrows & Hus & Hms).
  split; [done|]. split; [done|]. intros _. split_and!; try done.
  - apply isGroupOwner_Some. done.
  - intros u Hne (_ & _ & Hyes)%isGroupOwner_Some.
    by rewrite Hold in Hyes.
  - intros g u Hne. unfold isGroupOwner, query. by rewrite Hothers.
Qed.


Lemma member_added_row gid uid g u d :
  member_row g u (member_added gid uid d)
  = if bool_decide (g = gid ∧ u = uid) then true else member_row g u d.
Proof.
  unfold member_added.
  change (member_row g u (set_groupMembers ?l (set_groupMembers_seq _ d)))
    with (member_row g u (set_groupMembers l d)).
  apply member_row_insert.
Qed.

Lemma createGroup_eq name owner d :
  createGroup name owner d
  = if negb (int4 owner && pg_text name && int4 (groups_seq d)) then (None, d)
    else if negb (user_exists d owner)
    then (None, set_groups_seq (groups_seq d + 1) d)
    else
      let created :=
        {| group_id := groups_seq d; group_name := name; ownerId := owner |} in
      let d1 := set_groups (groups d ++ [created])
                           (set_groups_seq (groups_seq d + 1) d) in
      match addGroupMember (groups_seq d) owner d1 with
      | (Some _, d2) => (Some created, d2)
      | (None, d2) => (None, d2)
      end.
Proof.
  unfold createGroup. unfold op_bind at 1. unfold insert_group.
  destruct (int4 owner && pg_text name && int4 (groups_seq d)); cbn [negb];
    [|done].
  destruct (user_exists d owner); cbn [negb]; [|done].
  cbn zeta. cbn [group_id]. unfold op_bind.
  by destruct (addGroupMember _ _ _) as [[[]|] d2].
Qed.


(** X13.  The owner of a group cannot leave it: [removeGroupMember]
    returns [false] and changes nothing.  After transferring the ownership
    to another member they can: the same call returns [true], they are no
    member any more, and the new owner still owns the group and is a
    member. *)
Theorem owner_leaves_after_transfer gid currentOwnerId newOwnerId d :
  fk_groupMembers d = true →
  isGroupOwner gid currentOwnerId d = Some true →
  isGroupMember gid currentOwnerId d = Some true →
  isGroupMember gid newOwnerId d = Some true →
  currentOwnerId ≠ newOwnerId →
  removeGroupMember gid currentOwnerId d = (Some false, d)
  ∧ let d1 := (transferGroupOwnership gid currentOwnerId newOwnerId d).2 in
    let d2 := (removeGroupMember gid currentOwnerId d1).2 in
    (transferGroupOwnership gid currentOwnerId newOwnerId d).1 = Some true
    ∧ (removeGroupMember gid currentOwnerId d1).1 = Some true
    ∧ isGroupMember gid currentOwnerId d2 = Some false
    ∧ isGroupOwner gid newOwnerId d2 = Some true
    ∧ isGroupMember gid newOwnerId d2 = Some true.
Proof.
  intros Hfk (Hg & Hc & Hown)%isGroupOwner_Some (_ & _ & Hcur)%isGroupMember_Some
    (_ & Hn & Hnew)%isGroupMember_Some Hne.
  assert (Hb : bound [gid; currentOwnerId] = true) by by rewrite bound_pair, Hg, Hc.
  destruct (fk_member _ _ _ Hfk Hnew) as [Hu _].
  split.
  { rewrite removeGroupMember_eq, Hb, Hcur, Hown. done. }
  rewrite transferGroupOwnership_eq, Hb, Hown, Hn, Hnew, Hu. cbn [negb fst snd].
  destruct (owner_changed_facts gid newOwnerId d (owner_row_group _ _ _ Hown))
    as (Hnew' & Hold & _ & Hrows & _).
  assert (Hmem1 : ∀ u, member_row gid u (owner_changed gid newOwnerId d)
                       = member_row gid u d).
  { intros u. unfold member_row. by rewrite Hrows. }
  rewrite removeGroupMember_eq, Hb, Hmem1, Hcur, (Hold currentOwnerId Hne).
  cbn [negb andb fst snd].
  split_and!; try done.
  - rewrite isGroupMember_cases, Hb, member_row_delete_pair.
    by rewrite bool_decide_true.
  - apply isGroupOwner_Some. done.
  - rewrite isGroupMember_cases, bound_pair, Hg, Hn. cbn [andb].
    rewrite member_row_delete_pair, bool_decide_false, Hmem1, Hnew; [done|].
    intros [_ ?]. congruence.
Qed.

(** X14.  Once [removeGroupMember] has removed a user from a group, the
    relay refuses their next group message to it: the only frame sent is
    the error on the sender's socket, and no row is inserted. *)
Theorem removed_member_is_refused gid uid d readyState now ws text st :
  (removeGroupMember gid uid d).1 = Some true →
  db st = (removeGroupMember gid uid d).2 →
  on_message readyState now ws (Some (GroupChatMessage uid gid text)) st
  = (register ws uid st,
     [(ws, FrameError "You are not a member of this group")]).
Proof.
  rewrite removeGroupMember_eq.
  destruct (bound [gid; uid]) eqn:Hb; cbn [negb]; [|done].
  destruct (member_row gid uid d && negb (owner_row gid uid d)); [|done].
  cbn [fst snd]. intros _ Hdb.
  assert (Hout : member_row gid uid (db st) = false).
  { rewrite Hdb, member_row_delete_pair. by rewrite bool_decide_true. }
  rewrite on_message_group_other by by apply isGroupMember_not_true.
  by rewrite Hb.
Qed.

(** X24.  [getUserGroups] throws for a user id that is no [int4], and
    otherwise returns the groups the user has a membership row in, and no
    others. *)
Theorem getUserGroups_spec uid d :
  (int4 uid = false → getUserGroups uid d = None)
  ∧ (int4 uid = true →
     ∃ found,
       getUserGroups uid d = Some found
       ∧ ∀ g, g ∈ found
              ↔ g ∈ groups d ∧ member_row (group_id g) uid d = true).
Proof.
  unfold getUserGroups, query. rewrite bound_one.
  split; [by intros ->|]. intros ->. eexists. split; [done|]. intros g.
  unfold groups_of. cbn zeta.
  assert (Hmem : ∀ gid,
            member_row gid uid d = true
            ↔ gid ∈ gm_groupId <$> filter (λ r, gm_userId r = uid) (groupMembers d)).
  { intros gid. rewrite member_row_true, list_elem_of_fmap. split.
    - intros (r & Hin & Hg & Hu). exists r. split; [done|].
      by apply list_elem_of_filter.
    - intros (r & Hg & [Hu Hin]%list_elem_of_filter). by exists r. }
  destruct (gm_groupId <$> filter _ (groupMembers d)) as [|m ms] eqn:Hms.
  - split; [by intros ?%elem_of_nil|]. intros [_ Hin%Hmem].
    by apply elem_of_nil in Hin.
  - rewrite list_elem_of_filter, Hmem. tauto.
Qed.

(** ** [deleteUser] *)

Lemma delete_owned_groups_spec owned d :
  delete_owned_groups owned d
  = (Some tt,
     set_groupMembers
       (filter (λ r, Forall (λ g, ¬ gm_groupId r = group_id g) owned)
               (groupMembers d))
       (set_messages
          (filter (λ m, Forall (λ g, ¬ groupId m = Some (group_id g)) owned)
                  (messages d))
          d)).
Proof.
  revert d. induction owned as [|g rest IH]; intros d.
  - cbn [delete_owned_groups op_ret]. f_equal.
    destruct d. unfold set_groupMembers, set_messages. cbn. f_equal.
    + rewrite filter_all; [done|]. intros; constructor.
    + rewrite filter_all; [done|]. intros; constructor.
  - cbn [delete_owned_groups]. unfold op_bind at 1.
    unfold delete_messages_where at 1. cbn [bound forallb].
    unfold op_bind at 1.
    unfold delete_groupMembers_where at 1. cbn [bound forallb].
    rewrite IH. f_equal.
    unfold set_groupMembers, set_messages. cbn. f_equal.
    + rewrite list_filter_filter. apply list_filter_iff. intros r.
      rewrite Forall_cons. tauto.
    + rewrite list_filter_filter. apply list_filter_iff. intros m.
      rewrite Forall_cons. tauto.
Qed.

Lemma user_referenced_after_cascade id d :
  user_referenced (after_cascade id d) id = has_ideas_or_votes d id.
Proof.
  unfold user_referenced, has_ideas_or_votes, after_cascade.
  cbn [messages groupMembers groups ideas ideaVotes set_groupMembers
       set_groups set_messages].
  assert (H1 : existsb (λ m, (fromUserId m =? id)
                             || bool_decide (toUserId m = Some id))
                 (filter (λ m, Forall (λ g, ¬ groupId m = Some (group_id g))
                                      (filter (λ g, ownerId g = id) (groups d))
                               ∧ ¬ (fromUserId m = id ∨ toUserId m = Some id))
                         (messages d)) = false).
  { apply existsb_false. intros m [[_ Hm] _]%list_elem_of_filter.
    apply orb_false_iff. split.
    - apply Z.eqb_neq. tauto.
    - apply bool_decide_eq_false. tauto. }
  assert (H2 : existsb (λ r, gm_userId r =? id)
                 (filter (λ r, ¬ gm_userId r = id
                               ∧ Forall (λ g, ¬ gm_groupId r = group_id g)
                                        (filter (λ g, ownerId g = id) (groups d)))
                         (groupMembers d)) = false).
  { apply existsb_false. intros r [[Hr _] _]%list_elem_of_filter.
    by apply Z.eqb_neq. }
  assert (H3 : existsb (λ g, ownerId g =? id)
                 (filter (λ g, ¬ ownerId g = id) (groups d)) = false).
  { apply existsb_false. intros g [Hg _]%list_elem_of_filter.
    by apply Z.eqb_neq. }
  by rewrite H1, H2, H3.
Qed.

(** What [deleteUser] returns and leaves: the first statement throws for
    an id that is no [int4]; otherwise steps 1 to 5 do not throw, and the
    last delete throws exactly for an existing user with an idea or a
    vote. *)
Lemma deleteUser_cascade id d :
  deleteUser id d
  = if negb (int4 id) then (None, d)
    else if user_exists d id && has_ideas_or_votes d id
    then (None, after_cascade id d)
    else (Some tt,
          set_users (filter (λ u, ¬ user_id u = id) (users d))
                    (after_cascade id d)).
Proof.
  unfold deleteUser. unfold op_bind at 1. unfold delete_messages_where at 1.
  rewrite bound_pair.
  destruct (int4 id) eqn:Hid; cbn [andb negb]; [|done].
  unfold op_bind at 1. unfold op_call at 1. unfold query at 1.
  rewrite bound_one, Hid.
  unfold op_bind at 1. rewrite delete_owned_groups_spec.
  unfold op_bind at 1. unfold delete_groups_where.
  rewrite bound_one, Hid. cbn [andb].
  cbn [groups messages groupMembers set_messages set_groupMembers].
  match goal with |- context [existsb ?p ?l] =>
    assert (Hfk : existsb p l = false) end.
  { apply existsb_false. intros g Hg. apply andb_false_iff.
    destruct (decide (ownerId g = id)) as [Hown|Hne];
      [right|left; by apply bool_decide_eq_false].
    assert (Hin : g ∈ filter (λ g, ownerId g = id) (groups d))
      by by apply list_elem_of_filter.
    unfold group_referenced.
    cbn [groupMembers messages set_groupMembers set_messages].
    apply orb_false_iff. split; apply existsb_false.
    - intros r [Hr _]%list_elem_of_filter. apply Z.eqb_neq.
      rewrite Forall_forall in Hr. by apply Hr.
    - intros m [Hm _]%list_elem_of_filter. apply bool_decide_eq_false.
      rewrite Forall_forall in Hm. by apply Hm. }
  rewrite Hfk. cbn [negb]. unfold op_bind at 1.
  unfold delete_groupMembers_where. rewrite bound_one, Hid.
  match goal with |- context [delete_users_where _ _ ?x] =>
    assert (Hfive : x = after_cascade id d) end.
  { unfold after_cascade.
    unfold set_groupMembers, set_groups, set_messages. cbn. f_equal.
    - by rewrite list_filter_filter.
    - by rewrite list_filter_filter. }
  rewrite Hfive. unfold delete_users_where. rewrite bound_one, Hid.
  cbn [andb].
  match goal with |- context [existsb ?p ?l] =>
    assert (Hlast : existsb p l
                    = user_exists d id && has_ideas_or_votes d id) end.
  { change (users (after_cascade id d)) with (users d).
    unfold user_exists. rewrite Hid. cbn [andb].
    destruct (has_ideas_or_votes d id) eqn:Href.
    - rewrite andb_true_r. apply existsb_pointwise.
      intros u. destruct (Z.eqb_spec (user_id u) id) as [Hu|Hu].
      + rewrite bool_decide_true, Hu, user_referenced_after_cascade by done.
        by rewrite Href.
      + by rewrite bool_decide_false.
    - rewrite andb_false_r. apply existsb_false. intros u _.
      apply andb_false_iff. destruct (decide (user_id u = id)) as [Hu|Hu];
        [right|left; by apply bool_decide_eq_false].
      by rewrite Hu, user_referenced_after_cascade. }
  rewrite Hlast. by destruct (_ && _).
Qed.

Lemma not_owned_iff id gid d :
  Forall (λ g, ¬ gid = group_id g) (filter (λ g, ownerId g = id) (groups d))
  ↔ owner_row gid id d = false.
Proof.
  rewrite <- not_true_iff_false, owner_row_true, Forall_forall. split.
  - intros H (g & Hg & Hid & Hown). apply (H g); [|done].
    by apply list_elem_of_filter.
  - intros H g [Hown Hg]%list_elem_of_filter Heq. apply H. eauto.
Qed.

Lemma not_owned_some_iff id (o : option Z) d :
  Forall (λ g, ¬ o = Some (group_id g)) (filter (λ g, ownerId g = id) (groups d))
  ↔ ∀ gid, o = Some gid → owner_row gid id d = false.
Proof.
  destruct o as [gid|].
  - split.
    + intros H g0 [= <-]. apply not_owned_iff. rewrite Forall_forall in *.
      intros g Hg Heq. apply (H g Hg). by rewrite Heq.
    + intros H. specialize (H gid eq_refl). apply not_owned_iff in H.
      rewrite Forall_forall in *. intros g Hg [= Heq]. by apply (H g Hg).
  - split; [done|]. intros _. apply Forall_forall. done.
Qed.

Lemma after_cascade_facts id d :
  let d' := after_cascade id d in
  (∀ m, m ∈ messages d'
        ↔ m ∈ messages d ∧ fromUserId m ≠ id ∧ toUserId m ≠ Some id
          ∧ ∀ g, groupId m = Some g → owner_row g id d = false)
  ∧ (∀ g, g ∈ groups d' ↔ g ∈ groups d ∧ ownerId g ≠ id)
  ∧ (∀ r, r ∈ groupMembers d'
          ↔ r ∈ groupMembers d ∧ gm_userId r ≠ id
            ∧ owner_row (gm_groupId r) id d = false)
  ∧ users d' = users d
  ∧ ideas d' = ideas d
  ∧ ideaVotes d' = ideaVotes d
  ∧ games d' = games d.
Proof.
  intros d'. subst d'. split_and!; try done.
  - intros m. unfold after_cascade.
    cbn [messages set_groupMembers set_groups set_messages].
    rewrite list_elem_of_filter, not_owned_some_iff. tauto.
  - intros g. unfold after_cascade. cbn [groups set_groupMembers set_groups].
    rewrite list_elem_of_filter. tauto.
  - intros r. unfold after_cascade. cbn [groupMembers set_groupMembers].
    rewrite list_elem_of_filter, not_owned_iff. tauto.
Qed.

(** X15.  [deleteUser] throws and changes nothing for an id that is no
    [int4].  For an id that is one it throws exactly when the user exists
    and has an idea or a vote, and, returning or throwing, it leaves: the
    messages that neither involve the user nor belong to a group they
    owned, the groups they did not own, the memberships of other users in
    such groups; ideas, votes, games and sequences as they were.  The
    user's own row is removed when it returns and kept when it throws; the
    rows of the other users stay. *)
Theorem deleteUser_spec id d :
  let d' := (deleteUser id d).2 in
  let blocked := user_exists d id && has_ideas_or_votes d id in
  (int4 id = false → deleteUser id d = (None, d))
  ∧ (int4 id = true →
     (deleteUser id d).1 = (if blocked then None else Some tt)
     ∧ (∀ m, m ∈ messages d'
             ↔ m ∈ messages d ∧ fromUserId m ≠ id ∧ toUserId m ≠ Some id
               ∧ ∀ g, groupId m = Some g → owner_row g id d = false)
     ∧ (∀ g, g ∈ groups d' ↔ g ∈ groups d ∧ ownerId g ≠ id)
     ∧ (∀ r, r ∈ groupMembers d'
             ↔ r ∈ groupMembers d ∧ gm_userId r ≠ id
               ∧ owner_row (gm_groupId r) id d = false)
     ∧ (∀ u, u ∈ users d' ↔ u ∈ users d ∧ (blocked = true ∨ user_id u ≠ id))
     ∧ ideas d' = ideas d
     ∧ ideaVotes d' = ideaVotes d
     ∧ games d' = games d
     ∧ groups_seq d' = groups_seq d
     ∧ groupMembers_seq d' = groupMembers_seq d
     ∧ messages_seq d' = messages_seq d
     ∧ ideas_seq d' = ideas_seq d
     ∧ ideaVotes_seq d' = ideaVotes_seq d).
Proof.
  intros d' blocked. subst d' blocked. rewrite deleteUser_cascade.
  split; intros Hid; rewrite Hid; cbn [negb]; [done|].
  destruct (after_cascade_facts id d) as (Hm & Hg & Hr & Hu & Hi & Hv & Hga).
  destruct (user_exists d id && has_ideas_or_votes d id); cbn [fst snd].
  - split_and!; try done. intros u. tauto.
  - split_and!; try done. intros u. cbn [users set_users].
    rewrite list_elem_of_filter. split; [tauto|].
    intros [? [?|?]]; [done|tauto].
Qed.

(** X16.  [deleteUser] is not all-or-nothing.  For a user with an idea or
    a vote it throws and the user is still there, but their messages, the
    groups they owned and all their memberships are already deleted. *)
Theorem deleteUser_throws_after_cascade id d :
  user_exists d id = true →
  has_ideas_or_votes d id = true →
  let d' := (deleteUser id d).2 in
  (deleteUser id d).1 = None
  ∧ user_exists d' id = true
  ∧ users d' = users d
  ∧ Forall (λ m, fromUserId m ≠ id ∧ toUserId m ≠ Some id) (messages d')
  ∧ Forall (λ g, ownerId g ≠ id) (groups d')
  ∧ Forall (λ r, gm_userId r ≠ id) (groupMembers d')
  ∧ (∀ g, owner_row g id d' = false ∧ member_row g id d' = false
          ∧ isGroupOwner g id d' ≠ Some true
          ∧ isGroupMember g id d' ≠ Some true).
Proof.
  intros Hu Href d'. subst d'.
  pose proof (user_exists_int4 _ _ Hu) as Hid.
  rewrite deleteUser_cascade, Hid, Hu, Href. cbn [negb andb fst snd].
  destruct (after_cascade_facts id d) as (Hm & Hg & Hr & Hus & _).
  assert (Hown : ∀ g, owner_row g id (after_cascade id d) = false).
  { intros g. apply not_true_iff_false.
    intros (g' & Hin%Hg & _ & Hown)%owner_row_true. tauto. }
  assert (Hmem : ∀ g, member_row g id (after_cascade id d) = false).
  { intros g. apply member_row_false. intros r Hin%Hr [_ Hu']. tauto. }
  split_and!; try done.
  - apply Forall_forall. intros m Hin%Hm. tauto.
  - apply Forall_forall. intros g Hin%Hg. tauto.
  - apply Forall_forall. intros r Hin%Hr. tauto.
  - intros g. split_and!; [done|done| |by apply isGroupMember_not_true].
    intros (_ & _ & Hyes)%isGroupOwner_Some. by rewrite Hown in Hyes.
Qed.

(** ** [toggleIdeaVote] *)

Lemma vote_of_iff j u v :
  vote_of j u v = true ↔ vote_ideaId v = j ∧ vote_userId v = u.
Proof. unfold vote_of. rewrite andb_true_iff, !Z.eqb_eq. done. Qed.

Lemma has_vote_row_other ideaId uid j u (l : list IdeaVote) :
  (j, u) ≠ (ideaId, uid) →
  existsb (vote_of j u) (filter (λ v, ¬ vote_of ideaId uid v = true) l)
  = existsb (vote_of j u) l.
Proof.
  intros Hne. induction l as [|v l IH]; [done|].
  destruct (vote_of ideaId uid v) eqn:Hv.
  - rewrite filter_cons_False by (intros ?; congruence). cbn [existsb].
    rewrite IH. destruct (vote_of j u v) eqn:Hj; [|done].
    apply vote_of_iff in Hv as [<- <-]. apply vote_of_iff in Hj as [<- <-]. done.
  - rewrite filter_cons_True by congruence. cbn [existsb]. by rewrite IH.
Qed.

Lemma votes_of_bump ideaId delta j d d0 :
  j ≠ ideaId →
  votes_of (set_ideas (bump_votes ideaId delta <$> ideas d) d0) j
  = votes_of d j.
Proof.
  intros Hne. unfold votes_of. cbn [ideas set_ideas].
  generalize (ideas d). intros l. induction l as [|i l IH]; [done|].
  rewrite fmap_cons.
  destruct (decide (idea_id i = j)) as [Hi|Hi].
  - rewrite !filter_cons_True;
      [|done|by destruct (bump_keys ideaId delta i) as (-> & _)].
    cbn. unfold bump_votes. by rewrite (proj2 (Z.eqb_neq _ _)) by congruence.
  - rewrite !filter_cons_False;
      [done|done|by destruct (bump_keys ideaId delta i) as (-> & _)].
Qed.

Lemma bump_ids ideaId delta (l : list Idea) :
  idea_id <$> (bump_votes ideaId delta <$> l) = idea_id <$> l.
Proof.
  rewrite <- list_fmap_compose. apply list_fmap_ext.
  intros ? i _. exact (proj1 (bump_keys ideaId delta i)).
Qed.

(** The sequences after a call, committed or rolled back: only the one
    of the vote ids can have moved, by the one id the insert drew. *)
Lemma toggleIdeaVote_sequences now ideaId uid d :
  let d' := (toggleIdeaVote now ideaId uid d).2 in
  ideaVotes_seq d'
  = (if bound [ideaId; uid] && negb (has_vote_row d ideaId uid)
        && int4 (ideaVotes_seq d)
     then ideaVotes_seq d + 1 else ideaVotes_seq d)
  ∧ groups_seq d' = groups_seq d
  ∧ groupMembers_seq d' = groupMembers_seq d
  ∧ messages_seq d' = messages_seq d
  ∧ ideas_seq d' = ideas_seq d.
Proof.
  intros d'. subst d'.
  assert (Hroll : ∀ x : option IdeaWithRelations * Db,
            let y := match x with
                     | (Some a, d1) => (Some a, d1)
                     | (None, d1) => (None, rollback d d1)
                     end in
            ideaVotes_seq y.2 = ideaVotes_seq x.2
            ∧ groups_seq y.2 = groups_seq x.2
            ∧ groupMembers_seq y.2 = groupMembers_seq x.2
            ∧ messages_seq y.2 = messages_seq x.2
            ∧ ideas_seq y.2 = ideas_seq x.2).
  { by intros [[a|] d1]. }
  unfold toggleIdeaVote, transaction.
  destruct (Hroll (toggleIdeaVote_body now ideaId uid d))
    as (-> & -> & -> & -> & ->).
  rewrite toggleIdeaVote_body_eq.
  destruct (bound [ideaId; uid]); cbn [negb andb]; [|done].
  destruct (has_vote_row d ideaId uid); cbn [negb andb].
  - destruct (votes_fit d ideaId (-1)); [|done].
    by rewrite updated_idea_db.
  - destruct (int4 (ideaVotes_seq d)); cbn [negb]; [|done].
    destruct (idea_exists d ideaId && user_exists d uid); [|done].
    destruct (votes_fit d ideaId 1); [|done].
    by rewrite updated_idea_db.
Qed.

(** When the call throws. *)
Lemma toggleIdeaVote_throws now ideaId uid d :
  bound [ideaId; uid] = false
  ∨ idea_exists d ideaId = false
  ∨ (has_vote_row d ideaId uid = false
     ∧ (user_exists d uid = false ∨ int4 (ideaVotes_seq d) = false))
  ∨ votes_fit d ideaId (if has_vote_row d ideaId uid then -1 else 1) = false →
  (toggleIdeaVote now ideaId uid d).1 = None.
Proof.
  intros Hbad. unfold toggleIdeaVote, transaction.
  rewrite toggleIdeaVote_body_eq.
  destruct (bound [ideaId; uid]) eqn:Hb; cbn [negb]; [|done].
  assert (Hex : idea_exists d ideaId
                = existsb (λ i, idea_id i =? ideaId) (ideas d)).
  { unfold idea_exists. rewrite bound_pair in Hb.
    apply andb_prop in Hb as [-> _]. done. }
  destruct (has_vote_row d ideaId uid) eqn:Hrow.
  - destruct (votes_fit d ideaId (-1)) eqn:Hfit; [|done].
    destruct Hbad as [?|[Hi|[[? _]|?]]]; try done.
    assert (Hno : (updated_idea ideaId uid (vote_removed ideaId uid d)).1 = None).
    { apply updated_idea_missing. unfold vote_removed. cbn [ideas set_ideas].
      rewrite existsb_bump; [congruence|]. intros j.
      by destruct (bump_keys ideaId (-1) j) as (-> & _). }
    by destruct (updated_idea _ _ _) as [[r0|] d0].
  - destruct (int4 (ideaVotes_seq d)) eqn:Hseq; cbn [negb]; [|done].
    destruct (idea_exists d ideaId && user_exists d uid) eqn:Hboth; [|done].
    apply andb_prop in Hboth as [Hi Hu].
    destruct (votes_fit d ideaId 1) eqn:Hfit; [|done].
    destruct Hbad as [?|[?|[[_ [?|?]]|?]]]; congruence.
Qed.

(** X17.  [toggleIdeaVote] throws when an id is no [int4], when the idea
    does not exist, when the user has no vote on the idea and either does
    not exist or the sequence of vote ids is exhausted, and when the new
    count of the idea is out of the range of the column.  The transaction
    is rolled back: every table is as it was.  The sequence of vote ids
    keeps the id that the insert drew, if the call got that far; the other
    sequences do not move. *)
Theorem toggleIdeaVote_unknown_idea_or_user now ideaId uid d :
  bound [ideaId; uid] = false
  ∨ idea_exists d ideaId = false
  ∨ (has_vote_row d ideaId uid = false
     ∧ (user_exists d uid = false ∨ int4 (ideaVotes_seq d) = false))
  ∨ votes_fit d ideaId (if has_vote_row d ideaId uid then -1 else 1) = false →
  let d' := (toggleIdeaVote now ideaId uid d).2 in
  (toggleIdeaVote now ideaId uid d).1 = None
  ∧ tables d' = tables d
  ∧ ideaVotes_seq d'
    = (if bound [ideaId; uid] && negb (has_vote_row d ideaId uid)
          && int4 (ideaVotes_seq d)
       then ideaVotes_seq d + 1 else ideaVotes_seq d)
  ∧ groups_seq d' = groups_seq d
  ∧ groupMembers_seq d' = groupMembers_seq d
  ∧ messages_seq d' = messages_seq d
  ∧ ideas_seq d' = ideas_seq d.
Proof.
  intros Hbad d'. subst d'.
  pose proof (toggleIdeaVote_throws now ideaId uid d Hbad) as Hnone.
  split; [done|]. split; [by apply toggleIdeaVote_thrown|].
  apply toggleIdeaVote_sequences.
Qed.

(** X18.  [toggleIdeaVote] touches one idea and one vote: the counts of
    other ideas, the votes of other pairs, the set of ideas and every other
    table are as before, whether it returns or throws. *)
Theorem toggleIdeaVote_touches_one_pair now ideaId uid d :
  let d' := (toggleIdeaVote now ideaId uid d).2 in
  (∀ j, j ≠ ideaId → votes_of d' j = votes_of d j)
  ∧ (∀ j u, (j, u) ≠ (ideaId, uid) → has_vote_row d' j u = has_vote_row d j u)
  ∧ users d' = users d
  ∧ games d' = games d
  ∧ groups d' = groups d
  ∧ groupMembers d' = groupMembers d
  ∧ messages d' = messages d
  ∧ idea_id <$> ideas d' = idea_id <$> ideas d.
Proof.
  intros d'. subst d'.
  destruct (toggleIdeaVote now ideaId uid d) as [[r|] d'] eqn:Hcall.
  - apply toggleIdeaVote_returned in Hcall
      as (_ & _ & [(_ & _ & _ & _ & ->)|(_ & _ & ->)]); cbn [snd].
    + unfold vote_added. split_and!; try done.
      * intros j Hj. by apply votes_of_bump.
      * intros j u Hne. unfold has_vote_row.
        cbn [ideaVotes set_ideas set_ideaVotes set_ideaVotes_seq].
        rewrite existsb_app. cbn [existsb]. rewrite orb_false_r.
        replace (vote_of j u _) with false; [by rewrite orb_false_r|].
        symmetry. apply not_true_iff_false. intros [? ?]%vote_of_iff.
        cbn in *. congruence.
      * apply bump_ids.
    + unfold vote_removed. split_and!; try done.
      * intros j Hj. by apply votes_of_bump.
      * intros j u Hne. unfold has_vote_row.
        cbn [ideaVotes set_ideas set_ideaVotes].
        by apply has_vote_row_other.
      * apply bump_ids.
  - pose proof (toggleIdeaVote_thrown ideaId uid now d) as Hsame.
    rewrite Hcall in Hsame. specialize (Hsame eq_refl). cbn [snd] in *.
    unfold tables in Hsame. injection Hsame as Hu Hg Hr Hm Hga Hi Hv.
    unfold votes_of, has_vote_row. rewrite Hu, Hg, Hr, Hm, Hga, Hi, Hv.
    done.
Qed.

(** ** [deleteIdea] *)

Lemma deleteIdea_eq id d :
  deleteIdea id d
  = if int4 id
    then (Some tt,
          set_ideas (filter (λ i, ¬ idea_id i = id) (ideas d))
            (set_ideaVotes (filter (λ v, ¬ vote_ideaId v = id) (ideaVotes d)) d))
    else (None, d).
Proof.
  unfold deleteIdea, op_bind, delete_ideaVotes_where, delete_ideas_where.
  rewrite bound_one. destruct (int4 id); [|done]. cbn [andb].
  cbn [ideas set_ideaVotes].
  match goal with |- context [existsb ?p ?l] =>
    assert (Hfk : existsb p l = false) end.
  { apply existsb_false. intros i _. apply andb_false_iff.
    destruct (decide (idea_id i = id)) as [Heq|Hne];
      [right; rewrite Heq|left; by apply bool_decide_eq_false].
    unfold idea_referenced. cbn [ideaVotes set_ideaVotes].
    apply existsb_false. intros v [Hv _]%list_elem_of_filter. lia. }
  by rewrite Hfk.
Qed.

(** X19.  [deleteIdea] throws and changes nothing for an id that is no
    [int4]; for any other id it returns.  Afterwards the idea and all its
    votes are gone, the other ideas and their votes are kept, no other
    table and no sequence has changed, and voting on the deleted idea
    throws and changes no table. *)
Theorem deleteIdea_spec id d :
  let d' := (deleteIdea id d).2 in
  (int4 id = false → deleteIdea id d = (None, d))
  ∧ (int4 id = true →
     (deleteIdea id d).1 = Some tt
     ∧ idea_exists d' id = false
     ∧ (∀ u, has_vote_row d' id u = false)
     ∧ (∀ i, i ∈ ideas d' ↔ i ∈ ideas d ∧ idea_id i ≠ id)
     ∧ (∀ v, v ∈ ideaVotes d' ↔ v ∈ ideaVotes d ∧ vote_ideaId v ≠ id)
     ∧ users d' = users d ∧ games d' = games d ∧ groups d' = groups d
     ∧ groupMembers d' = groupMembers d ∧ messages d' = messages d
     ∧ groups_seq d' = groups_seq d
     ∧ groupMembers_seq d' = groupMembers_seq d
     ∧ messages_seq d' = messages_seq d
     ∧ ideas_seq d' = ideas_seq d
     ∧ ideaVotes_seq d' = ideaVotes_seq d
     ∧ (∀ now u, (toggleIdeaVote now id u d').1 = None
                 ∧ tables (toggleIdeaVote now id u d').2 = tables d')).
Proof.
  intros d'. subst d'. rewrite deleteIdea_eq.
  split; intros Hid; rewrite Hid; [done|]. cbn [fst snd].
  assert (Hgone : idea_exists
    (set_ideas (filter (λ i, ¬ idea_id i = id) (ideas d))
       (set_ideaVotes (filter (λ v, ¬ vote_ideaId v = id) (ideaVotes d)) d))
    id = false).
  { apply not_true_iff_false.
    intros (_ & i & [Hi _]%list_elem_of_filter & Heq)%idea_exists_iff. done. }
  split_and!; try done.
  - intros u. unfold has_vote_row. cbn [ideaVotes set_ideas set_ideaVotes].
    apply existsb_false. intros v [Hv _]%list_elem_of_filter.
    apply not_true_iff_false. intros [? _]%vote_of_iff. done.
  - intros i. cbn [ideas set_ideas]. rewrite list_elem_of_filter. tauto.
  - intros v. cbn [ideaVotes set_ideas set_ideaVotes].
    rewrite list_elem_of_filter. tauto.
  - intros now u.
    assert (Hnone : (toggleIdeaVote now id u
      (set_ideas (filter (λ i, ¬ idea_id i = id) (ideas d))
         (set_ideaVotes (filter (λ v, ¬ vote_ideaId v = id) (ideaVotes d)) d))).1
      = None).
    { apply toggleIdeaVote_throws. right. by left. }
    split; [done|]. by apply toggleIdeaVote_thrown.
Qed.

(** * What every call keeps *)

(** ** Foreign keys and serial keys *)

Lemma nullable_ref_iff (p : Z → bool) (o : option Z) :
  nullable_ref p o = true ↔ ∀ k, o = Some k → p k = true.
Proof.
  destruct o as [k|]; simpl; [|done]. split; [by intros ? ? [= <-]|eauto].
Qed.

Lemma fk_all_iff d :
  fk_all d = true
  ↔ (∀ m, m ∈ messages d →
          user_exists d (fromUserId m) = true
          ∧ (∀ t, toUserId m = Some t → user_exists d t = true)
          ∧ (∀ g, groupId m = Some g → group_exists d g = true))
    ∧ (∀ g, g ∈ groups d → user_exists d (ownerId g) = true)
    ∧ (∀ r, r ∈ groupMembers d →
            user_exists d (gm_userId r) = true
            ∧ group_exists d (gm_groupId r) = true)
    ∧ (∀ i, i ∈ ideas d →
            game_exists d (gameId i) = true
            ∧ user_exists d (idea_userId i) = true)
    ∧ (∀ v, v ∈ ideaVotes d →
            idea_exists d (vote_ideaId v) = true
            ∧ user_exists d (vote_userId v) = true).
Proof.
  unfold fk_all, fk_messages, fk_groups, fk_groupMembers, fk_ideas, fk_ideaVotes.
  rewrite !andb_true_iff, !forallb_true.
  assert (HM : (∀ m, m ∈ messages d →
                   user_exists d (fromUserId m)
                   && nullable_ref (user_exists d) (toUserId m)
                   && nullable_ref (group_exists d) (groupId m) = true)
               ↔ (∀ m, m ∈ messages d →
                   user_exists d (fromUserId m) = true
                   ∧ (∀ t, toUserId m = Some t → user_exists d t = true)
                   ∧ (∀ g, groupId m = Some g → group_exists d g = true))).
  { split; intros H m Hm; specialize (H m Hm).
    - rewrite !andb_true_iff, !nullable_ref_iff in H. tauto.
    - rewrite !andb_true_iff, !nullable_ref_iff. tauto. }
  assert (HR : (∀ r, r ∈ groupMembers d →
                   user_exists d (gm_userId r)
                   && group_exists d (gm_groupId r) = true)
               ↔ (∀ r, r ∈ groupMembers d →
                   user_exists d (gm_userId r) = true
                   ∧ group_exists d (gm_groupId r) = true)).
  { split; intros H r Hr; specialize (H r Hr);
      [by apply andb_true_iff in H|by apply andb_true_iff]. }
  assert (HI : (∀ i, i ∈ ideas d →
                   game_exists d (gameId i)
                   && user_exists d (idea_userId i) = true)
               ↔ (∀ i, i ∈ ideas d →
                   game_exists d (gameId i) = true
                   ∧ user_exists d (idea_userId i) = true)).
  { split; intros H i Hi; specialize (H i Hi);
      [by apply andb_true_iff in H|by apply andb_true_iff]. }
  assert (HV : (∀ v, v ∈ ideaVotes d →
                   idea_exists d (vote_ideaId v)
                   && user_exists d (vote_userId v) = true)
               ↔ (∀ v, v ∈ ideaVotes d →
                   idea_exists d (vote_ideaId v) = true
                   ∧ user_exists d (vote_userId v) = true)).
  { split; intros H v Hv; specialize (H v Hv);
      [by apply andb_true_iff in H|by apply andb_true_iff]. }
  rewrite HM, HR, HI, HV. tauto.
Qed.

Lemma NoDup_fmap_filter {A B} (f : A → B) (P : A → Prop)
    `{∀ a, Decision (P a)} (l : list A) :
  NoDup (f <$> l) → NoDup (f <$> filter P l).
Proof.
  intros Hnd. eapply sublist_NoDup; [done|]. apply fmap_sublist, sublist_filter.
Qed.

Lemma Forall_filter_keep {A} (Q P : A → Prop) `{∀ a, Decision (P a)}
    (l : list A) :
  Forall Q l → Forall Q (filter P l).
Proof.
  rewrite !Forall_forall. intros HQ a [_ Ha]%list_elem_of_filter. eauto.
Qed.

Lemma NoDup_fmap_snoc {A B} (f : A → B) (l : list A) (a : A) :
  NoDup (f <$> l) → (∀ x, x ∈ l → f x ≠ f a) → NoDup (f <$> (l ++ [a])).
Proof.
  intros Hnd Hfresh. rewrite fmap_app. apply NoDup_app. split; [done|].
  split; [|apply NoDup_singleton].
  intros b (x & -> & Hx)%list_elem_of_fmap Hb.
  apply list_elem_of_singleton in Hb. by eapply Hfresh.
Qed.

Lemma NoDup_fmap_eq {A B} (f : A → B) (l : list A) (x y : A) :
  NoDup (f <$> l) → x ∈ l → y ∈ l → f x = f y → x = y.
Proof.
  induction l as [|a l IH]; [by intros _ ?%elem_of_nil|].
  rewrite fmap_cons. intros [Hnot Hnd]%NoDup_cons Hx Hy Heq.
  apply elem_of_cons in Hx as [->|Hx]; apply elem_of_cons in Hy as [->|Hy].
  - done.
  - exfalso. apply Hnot. rewrite Heq. by apply list_elem_of_fmap_2.
  - exfalso. apply Hnot. rewrite <- Heq. by apply list_elem_of_fmap_2.
  - by apply IH.
Qed.

Lemma serial_ok_filter {A} (key : A → Z) (P : A → Prop)
    `{∀ a, Decision (P a)} rows seq :
  serial_ok key rows seq → serial_ok key (filter P rows) seq.
Proof.
  intros [Hnd Hlt]. split; [by apply NoDup_fmap_filter|].
  by apply Forall_filter_keep.
Qed.

Lemma serial_ok_ahead {A} (key : A → Z) rows seq seq' :
  seq ≤ seq' → serial_ok key rows seq → serial_ok key rows seq'.
Proof.
  intros Hle [Hnd Hlt]. split; [done|].
  eapply Forall_impl; [exact Hlt|]. cbn beta. intros; lia.
Qed.

Lemma serial_ok_snoc {A} (key : A → Z) rows seq a :
  key a = seq → serial_ok key rows seq → serial_ok key (rows ++ [a]) (seq + 1).
Proof.
  intros Ha [Hnd Hlt]. split.
  - apply NoDup_fmap_snoc; [done|]. intros x Hx.
    rewrite Forall_forall in Hlt. specialize (Hlt x Hx). lia.
  - apply Forall_app. split.
    + eapply Forall_impl; [exact Hlt|]. cbn beta. intros; lia.
    + apply Forall_singleton. lia.
Qed.

Lemma serial_ok_fmap {A} (key : A → Z) (f : A → A) rows seq :
  (∀ r, key (f r) = key r) →
  serial_ok key rows seq → serial_ok key (f <$> rows) seq.
Proof.
  intros Hkey [Hnd Hlt]. split.
  - rewrite <- list_fmap_compose.
    rewrite (list_fmap_ext (key ∘ f) key rows); [done|].
    intros ? r _. apply Hkey.
  - apply Forall_fmap. eapply Forall_impl; [exact Hlt|]. cbn beta.
    intros r. unfold compose. by rewrite Hkey.
Qed.

(** The foreign keys are a matter of the tables; the serial keys allow
    the sequences to be ahead. *)
Lemma base_ok_ahead d d' :
  tables d' = tables d →
  groups_seq d ≤ groups_seq d' →
  groupMembers_seq d ≤ groupMembers_seq d' →
  messages_seq d ≤ messages_seq d' →
  ideas_seq d ≤ ideas_seq d' →
  ideaVotes_seq d ≤ ideaVotes_seq d' →
  base_ok d → base_ok d'.
Proof.
  unfold tables. intros [= Hu Hg Hr Hm Hga Hi Hv] ? ? ? ? ?
    [Hfk (KU & KG & KR & KM & KI & KV)].
  split.
  - rewrite <- Hfk.
    unfold fk_all, fk_messages, fk_groups, fk_groupMembers, fk_ideas,
      fk_ideaVotes, user_exists, group_exists, game_exists, idea_exists.
    by rewrite Hu, Hg, Hr, Hm, Hga, Hi, Hv.
  - unfold keys_ok. rewrite Hu, Hg, Hr, Hm, Hi, Hv.
    split_and!; [done|by eapply serial_ok_ahead..].
Qed.

(** ** Calls and statements that keep an invariant *)

Lemma keeps_ret {A} I (a : A) : keeps I (op_ret a).
Proof. by intros d. Qed.

Lemma keeps_throw {A} I : keeps I (@op_throw A).
Proof. by intros d. Qed.

Lemma keeps_read {A} I (f : Db → A) : keeps I (op_read f).
Proof. by intros d. Qed.

Lemma keeps_call {A} I (f : Db → option A) : keeps I (op_call f).
Proof. by intros d. Qed.

Lemma keeps_bind {A B} I (m : Op A) (k : A → Op B) :
  keeps I m → (∀ a, keeps I (k a)) → keeps I (op_bind m k).
Proof.
  intros Hm Hk d Hd. unfold op_bind. specialize (Hm d Hd).
  destruct (m d) as [[a|] d']; [by apply Hk|done].
Qed.

Lemma keeps_if {A} I (b : bool) (m1 m2 : Op A) :
  keeps I m1 → keeps I m2 → keeps I (if b then m1 else m2).
Proof. by destruct b. Qed.

(** ** The statements keep the keys *)

Lemma base_ok_delete_messages params (P : Message → Prop)
    `{∀ m, Decision (P m)} :
  keeps base_ok (delete_messages_where params P).
Proof.
  intros d [Hfk (KU & KG & KR & KM & KI & KV)].
  unfold delete_messages_where. destruct (bound params); [|done].
  cbn [snd]. split.
  - apply fk_all_iff in Hfk as (FM & FG & FR & FI & FV). apply fk_all_iff.
    split_and!; try done.
    intros m [_ Hm]%list_elem_of_filter. by apply FM.
  - split_and!; try done. by apply serial_ok_filter.
Qed.

Lemma base_ok_delete_groupMembers params (P : GroupMember → Prop)
    `{∀ r, Decision (P r)} :
  keeps base_ok (delete_groupMembers_where params P).
Proof.
  intros d [Hfk (KU & KG & KR & KM & KI & KV)].
  unfold delete_groupMembers_where. destruct (bound params); [|done].
  cbn [snd]. split.
  - apply fk_all_iff in Hfk as (FM & FG & FR & FI & FV). apply fk_all_iff.
    split_and!; try done.
    intros r [_ Hr]%list_elem_of_filter. by apply FR.
  - split_and!; try done. by apply serial_ok_filter.
Qed.

Lemma base_ok_delete_ideaVotes params (P : IdeaVote → Prop)
    `{∀ v, Decision (P v)} :
  keeps base_ok (delete_ideaVotes_where params P).
Proof.
  intros d [Hfk (KU & KG & KR & KM & KI & KV)].
  unfold delete_ideaVotes_where. destruct (bound params); [|done].
  cbn [snd]. split.
  - apply fk_all_iff in Hfk as (FM & FG & FR & FI & FV). apply fk_all_iff.
    split_and!; try done.
    intros v [_ Hv]%list_elem_of_filter. by apply FV.
  - split_and!; try done. by apply serial_ok_filter.
Qed.

Lemma base_ok_delete_groups params (P : Group → Prop) `{∀ g, Decision (P g)} :
  keeps base_ok (delete_groups_where params P).
Proof.
  intros d [Hfk (KU & KG & KR & KM & KI & KV)].
  unfold delete_groups_where. destruct (bound params); cbn [andb]; [|done].
  destruct (existsb _ (groups d)) eqn:Hcheck; [done|].
  rewrite existsb_false in Hcheck.
  assert (Hkeep : ∀ gid, group_referenced d gid = true →
                  group_exists d gid = true →
                  group_exists
                    (set_groups (filter (λ g, ¬ P g) (groups d)) d) gid = true).
  { intros gid Href (Hint & g & Hg & Hid)%group_exists_iff.
    apply group_exists_iff. split; [done|].
    exists g. split; [|done]. cbn. apply list_elem_of_filter.
    split; [|done]. intros HP. specialize (Hcheck g Hg).
    rewrite bool_decide_true, Hid, Href in Hcheck by done. done. }
  cbn [negb snd]. split.
  - apply fk_all_iff in Hfk as (FM & FG & FR & FI & FV). apply fk_all_iff.
    split_and!; try done.
    + intros m Hm. destruct (FM m Hm) as (? & ? & Hgr).
      split; [done|]. split; [done|]. intros g Hg. apply Hkeep; [|eauto].
      unfold group_referenced. apply orb_true_iff. right.
      apply existsb_true. exists m. split; [done|]. by apply bool_decide_eq_true.
    + intros g [_ Hg]%list_elem_of_filter. by apply FG.
    + intros r Hr. destruct (FR r Hr). split; [done|]. apply Hkeep; [|done].
      unfold group_referenced. apply orb_true_iff. left.
      apply existsb_true. exists r. split; [done|]. lia.
  - split_and!; try done. by apply serial_ok_filter.
Qed.

Lemma base_ok_delete_ideas params (P : Idea → Prop) `{∀ i, Decision (P i)} :
  keeps base_ok (delete_ideas_where params P).
Proof.
  intros d [Hfk (KU & KG & KR & KM & KI & KV)].
  unfold delete_ideas_where. destruct (bound params); cbn [andb]; [|done].
  destruct (existsb _ (ideas d)) eqn:Hcheck; [done|].
  rewrite existsb_false in Hcheck.
  cbn [negb snd]. split.
  - apply fk_all_iff in Hfk as (FM & FG & FR & FI & FV). apply fk_all_iff.
    split_and!; try done.
    + intros i [_ Hi]%list_elem_of_filter. by apply FI.
    + intros v Hv. destruct (FV v Hv) as [Hex ?]. split; [|done].
      apply idea_exists_iff in Hex as (Hint & i & Hi & Hid).
      apply idea_exists_iff. split; [done|].
      exists i. split; [|done]. cbn. apply list_elem_of_filter.
      split; [|done]. intros HP. specialize (Hcheck i Hi).
      rewrite bool_decide_true in Hcheck by done. cbn in Hcheck.
      apply not_true_iff_false in Hcheck. apply Hcheck.
      unfold idea_referenced. apply existsb_true. exists v. split; [done|]. lia.
  - split_and!; try done. by apply serial_ok_filter.
Qed.

Lemma base_ok_delete_users params (P : User → Prop) `{∀ u, Decision (P u)} :
  keeps base_ok (delete_users_where params P).
Proof.
  intros d [Hfk (KU & KG & KR & KM & KI & KV)].
  unfold delete_users_where. destruct (bound params); cbn [andb]; [|done].
  destruct (existsb _ (users d)) eqn:Hcheck; [done|].
  rewrite existsb_false in Hcheck.
  assert (Hkeep : ∀ uid, user_referenced d uid = true →
                  user_exists d uid = true →
                  user_exists
                    (set_users (filter (λ u, ¬ P u) (users d)) d) uid = true).
  { intros uid Href (Hint & u & Hu & Hid)%user_exists_iff.
    apply user_exists_iff. split; [done|].
    exists u. split; [|done]. cbn. apply list_elem_of_filter.
    split; [|done]. intros HP. specialize (Hcheck u Hu).
    rewrite bool_decide_true, Hid, Href in Hcheck by done. done. }
  cbn [negb snd]. split.
  - apply fk_all_iff in Hfk as (FM & FG & FR & FI & FV). apply fk_all_iff.
    split_and!.
    + intros m Hm. destruct (FM m Hm) as (Hf & Ht & Hg).
      split_and!; [| |done].
      * apply Hkeep; [|done]. unfold user_referenced.
        rewrite !orb_true_iff. do 4 left. apply existsb_true. exists m.
        split; [done|]. apply orb_true_iff. left. lia.
      * intros t Hto. apply Hkeep; [|eauto]. unfold user_referenced.
        rewrite !orb_true_iff. do 4 left. apply existsb_true. exists m.
        split; [done|]. apply orb_true_iff. right. by apply bool_decide_eq_true.
    + intros g Hg. apply Hkeep; [|by apply FG]. unfold user_referenced.
      rewrite !orb_true_iff. do 2 left. right. apply existsb_true. exists g.
      split; [done|]. lia.
    + intros r Hr. destruct (FR r Hr). split; [|done].
      apply Hkeep; [|done]. unfold user_referenced.
      rewrite !orb_true_iff. do 3 left. right. apply existsb_true. exists r.
      split; [done|]. lia.
    + intros i Hi. destruct (FI i Hi). split; [done|].
      apply Hkeep; [|done]. unfold user_referenced.
      rewrite !orb_true_iff. left. right. apply existsb_true. exists i.
      split; [done|]. lia.
    + intros v Hv. destruct (FV v Hv). split; [done|].
      apply Hkeep; [|done]. unfold user_referenced.
      rewrite !orb_true_iff. right. apply existsb_true. exists v.
      split; [done|]. lia.
  - split_and!; try done. by apply NoDup_fmap_filter.
Qed.

Lemma base_ok_insert_group name owner : keeps base_ok (insert_group name owner).
Proof.
  intros d [Hfk (KU & KG & KR & KM & KI & KV)].
  unfold insert_group.
  destruct (int4 owner && pg_text name && int4 (groups_seq d)); cbn [negb];
    [|done].
  cbn zeta. destruct (user_exists d owner) eqn:Hu; cbn [snd].
  2:{ split; [done|]. split_and!; try done.
      eapply serial_ok_ahead; [|exact KG]. cbn. lia. }
  set (created := {| group_id := groups_seq d; group_name := name;
                     ownerId := owner |}).
  assert (HG : ∀ x, group_exists d x = true →
                    group_exists
                      (set_groups (groups d ++ [created])
                                  (set_groups_seq (groups_seq d + 1) d)) x = true).
  { intros x Hx. unfold group_exists in *. cbn.
    apply andb_prop in Hx as [-> Hx]. rewrite existsb_app, Hx. done. }
  split.
  - apply fk_all_iff in Hfk as (FM & FG & FR & FI & FV). apply fk_all_iff.
    split_and!; try done.
    + intros m Hm. destruct (FM m Hm) as (? & ? & ?). eauto.
    + intros g [Hg|Hg%list_elem_of_singleton]%elem_of_app; [by apply FG|].
      by subst g.
    + intros r Hr. destruct (FR r Hr). eauto.
  - split_and!; try done. by apply serial_ok_snoc.
Qed.

Lemma base_ok_insert_groupMember gid uid :
  keeps base_ok (insert_groupMember gid uid).
Proof.
  intros d [Hfk (KU & KG & KR & KM & KI & KV)]. unfold insert_groupMember.
  destruct (bound [gid; uid] && int4 (groupMembers_seq d)); cbn [negb]; [|done].
  cbn zeta.
  destruct (user_exists d uid && group_exists d gid) eqn:Hex; cbn [snd].
  2:{ split; [done|]. split_and!; try done.
      eapply serial_ok_ahead; [|exact KR]. cbn. lia. }
  apply andb_prop in Hex as [Hu Hg]. split.
  - apply fk_all_iff in Hfk as (FM & FG & FR & FI & FV). apply fk_all_iff.
    split_and!; try done.
    intros r [Hr|Hr%list_elem_of_singleton]%elem_of_app; [by apply FR|].
    by subst r.
  - split_and!; try done. by apply serial_ok_snoc.
Qed.

Lemma base_ok_insert_idea idea now : keeps base_ok (insert_idea idea now).
Proof.
  intros d [Hfk (KU & KG & KR & KM & KI & KV)].
  unfold insert_idea.
  destruct (idea_bound idea && int4 (ideas_seq d)); cbn [negb]; [|done].
  cbn zeta.
  destruct (game_exists d (ins_gameId idea) && user_exists d (ins_userId idea))
    eqn:Hex; cbn [snd].
  2:{ split; [done|]. split_and!; try done.
      eapply serial_ok_ahead; [|exact KI]. cbn. lia. }
  apply andb_prop in Hex as [Hg Hu].
  match goal with |- context [ideas d ++ [?c]] => set (created := c) end.
  assert (HI : ∀ x, idea_exists d x = true →
                    idea_exists
                      (set_ideas (ideas d ++ [created])
                                 (set_ideas_seq (ideas_seq d + 1) d)) x = true).
  { intros x Hx. unfold idea_exists in *. cbn.
    apply andb_prop in Hx as [-> Hx]. rewrite existsb_app, Hx. done. }
  split.
  - apply fk_all_iff in Hfk as (FM & FG & FR & FI & FV). apply fk_all_iff.
    split_and!; try done.
    + intros i [Hi|Hi%list_elem_of_singleton]%elem_of_app; [by apply FI|].
      by subst i.
    + intros v Hv. destruct (FV v Hv). eauto.
  - split_and!; try done. by apply serial_ok_snoc.
Qed.

Lemma base_ok_update_group_owner gid new :
  keeps base_ok (update_group_owner gid new).
Proof.
  intros d [Hfk (KU & KG & KR & KM & KI & KV)].
  unfold update_group_owner.
  destruct (bound [gid; new]) eqn:Hb; cbn [andb]; [|done].
  destruct (negb (group_exists d gid) || user_exists d new) eqn:Hcheck; [|done].
  set (upd := λ g : Group,
         if group_id g =? gid
         then {| group_id := group_id g; group_name := group_name g;
                 ownerId := new |}
         else g).
  assert (Hid : ∀ g, group_id (upd g) = group_id g).
  { intros g. unfold upd. by destruct (group_id g =? gid). }
  assert (Hown : ∀ g, ownerId (upd g)
                      = if group_id g =? gid then new else ownerId g).
  { intros g. unfold upd. by destruct (group_id g =? gid). }
  cbn [snd]. clearbody upd.
  assert (HG : ∀ x, group_exists (set_groups (upd <$> groups d) d) x
                    = group_exists d x).
  { intros x. unfold group_exists. cbn [groups set_groups]. f_equal.
    generalize (groups d). intros l.
    induction l as [|g l IH]; [done|].
    rewrite fmap_cons. cbn [existsb]. by rewrite Hid, IH. }
  split.
  - apply fk_all_iff in Hfk as (FM & FG & FR & FI & FV). apply fk_all_iff.
    split_and!; try done.
    + intros m Hm. destruct (FM m Hm) as (? & ? & Hgm).
      split_and!; try done. intros g Hg. rewrite HG. eauto.
    + intros g' (g & -> & Hg)%list_elem_of_fmap.
      change (user_exists (set_groups _ _)) with (user_exists d).
      rewrite Hown. destruct (Z.eqb_spec (group_id g) gid) as [Heq|Hne];
        [|by apply FG].
      apply orb_prop in Hcheck as [Hno|Hyes]; [|done].
      apply negb_true_iff, not_true_iff_false in Hno. exfalso. apply Hno.
      apply group_exists_iff. split; [|by eauto].
      rewrite bound_pair in Hb. by apply andb_prop in Hb as [? _].
    + intros r Hr. destruct (FR r Hr). rewrite HG. done.
  - split_and!; try done. by apply serial_ok_fmap.
Qed.

Lemma base_ok_insert_vote ideaId userId createdAt :
  keeps base_ok (insert_vote ideaId userId createdAt).
Proof.
  intros d [Hfk (KU & KG & KR & KM & KI & KV)]. unfold insert_vote.
  destruct (bound [ideaId; userId] && int4 (ideaVotes_seq d)); cbn [negb];
    [|done].
  cbn zeta.
  destruct (idea_exists d ideaId && user_exists d userId) eqn:Hex; cbn [snd].
  2:{ split; [done|]. split_and!; try done.
      eapply serial_ok_ahead; [|exact KV]. cbn. lia. }
  apply andb_prop in Hex as [Hi Hu]. split.
  - apply fk_all_iff in Hfk as (FM & FG & FR & FI & FV). apply fk_all_iff.
    split_and!; try done.
    intros v [Hv|Hv%list_elem_of_singleton]%elem_of_app; [by apply FV|].
    by subst v.
  - split_and!; try done. by apply serial_ok_snoc.
Qed.

Lemma base_ok_update_votes ideaId delta :
  keeps base_ok (update_votes ideaId delta).
Proof.
  intros d [Hfk (KU & KG & KR & KM & KI & KV)]. unfold update_votes.
  destruct (bound [ideaId] && votes_fit d ideaId delta); [|done].
  cbn [snd]. split.
  - apply fk_all_iff in Hfk as (FM & FG & FR & FI & FV). apply fk_all_iff.
    split_and!; try done.
    + intros i' (i & -> & Hi)%list_elem_of_fmap.
      destruct (bump_keys ideaId delta i) as (_ & -> & ->). by apply FI.
    + intros v Hv. destruct (FV v Hv) as [Hex ?]. split; [|done].
      unfold idea_exists in *. cbn [ideas set_ideas].
      rewrite existsb_bump; [done|]. intros j.
      by destruct (bump_keys ideaId delta j) as (-> & _).
  - split_and!; try done. apply serial_ok_fmap; [|done].
    intros i. by destruct (bump_keys ideaId delta i) as (-> & _).
Qed.

(** ** The calls keep the keys *)

Lemma base_ok_addGroupMember gid uid : keeps base_ok (addGroupMember gid uid).
Proof.
  apply keeps_bind; [apply keeps_call|]. intros isMember.
  apply keeps_if; [apply keeps_ret|apply base_ok_insert_groupMember].
Qed.

Lemma base_ok_createGroup name owner : keeps base_ok (createGroup name owner).
Proof.
  apply keeps_bind; [apply base_ok_insert_group|]. intros g.
  apply keeps_bind; [apply base_ok_addGroupMember|]. intros _. apply keeps_ret.
Qed.

Lemma base_ok_removeGroupMember gid uid :
  keeps base_ok (removeGroupMember gid uid).
Proof.
  apply keeps_bind; [apply keeps_call|]. intros isMember.
  apply keeps_if; [apply keeps_ret|].
  apply keeps_bind; [apply keeps_call|]. intros isOwner.
  apply keeps_if; [apply keeps_ret|].
  apply keeps_bind; [apply base_ok_delete_groupMembers|]. intros _.
  apply keeps_ret.
Qed.

Lemma base_ok_transferGroupOwnership gid cur new :
  keeps base_ok (transferGroupOwnership gid cur new).
Proof.
  apply keeps_bind; [apply keeps_call|]. intros isOwner.
  apply keeps_if; [apply keeps_ret|].
  apply keeps_bind; [apply keeps_call|]. intros isMember.
  apply keeps_if; [apply keeps_ret|].
  apply keeps_bind; [apply base_ok_update_group_owner|]. intros _.
  apply keeps_ret.
Qed.

Lemma base_ok_deleteGroup gid uid : keeps base_ok (deleteGroup gid uid).
Proof.
  apply keeps_bind; [apply keeps_call|]. intros isOwner.
  apply keeps_if; [apply keeps_ret|].
  apply keeps_bind; [apply base_ok_delete_groupMembers|]. intros _.
  apply keeps_bind; [apply base_ok_delete_messages|]. intros _.
  apply keeps_bind; [apply base_ok_delete_groups|]. intros _.
  apply keeps_ret.
Qed.

Lemma base_ok_delete_owned_groups owned :
  keeps base_ok (delete_owned_groups owned).
Proof.
  induction owned as [|g rest IH]; [apply keeps_ret|].
  cbn [delete_owned_groups].
  apply keeps_bind; [apply base_ok_delete_messages|]. intros _.
  apply keeps_bind; [apply base_ok_delete_groupMembers|]. intros _.
  apply IH.
Qed.

Lemma base_ok_deleteUser id : keeps base_ok (deleteUser id).
Proof.
  apply keeps_bind; [apply base_ok_delete_messages|]. intros _.
  apply keeps_bind; [apply keeps_call|]. intros owned.
  apply keeps_bind; [apply base_ok_delete_owned_groups|]. intros _.
  apply keeps_bind; [apply base_ok_delete_groups|]. intros _.
  apply keeps_bind; [apply base_ok_delete_groupMembers|]. intros _.
  apply base_ok_delete_users.
Qed.

Lemma base_ok_deleteIdea id : keeps base_ok (deleteIdea id).
Proof.
  apply keeps_bind; [apply base_ok_delete_ideaVotes|]. intros _.
  apply base_ok_delete_ideas.
Qed.

Lemma base_ok_createIdea idea now : keeps base_ok (createIdea idea now).
Proof.
  apply keeps_bind; [apply base_ok_insert_idea|]. intros created.
  apply keeps_bind; [apply keeps_read|]. intros found.
  destruct found as [|[[i [g|]] [u|]] rest];
    first [apply keeps_ret|apply keeps_throw].
Qed.

Lemma base_ok_toggleIdeaVote_body now ideaId uid :
  keeps base_ok (toggleIdeaVote_body now ideaId uid).
Proof.
  apply keeps_bind; [apply keeps_call|]. intros existing.
  apply keeps_bind.
  - destruct existing as [|v rest].
    + apply keeps_bind; [apply base_ok_insert_vote|]. intros _.
      apply base_ok_update_votes.
    + apply keeps_bind; [apply base_ok_delete_ideaVotes|]. intros _.
      apply base_ok_update_votes.
  - intros _. intros d Hd. by rewrite updated_idea_db.
Qed.

Lemma base_ok_toggleIdeaVote now ideaId uid :
  keeps base_ok (toggleIdeaVote now ideaId uid).
Proof.
  intros d Hd.
  destruct (toggleIdeaVote now ideaId uid d) as [[r|] d'] eqn:Hcall.
  - pose proof (base_ok_toggleIdeaVote_body now ideaId uid d Hd) as Hbody.
    unfold toggleIdeaVote, transaction in Hcall.
    destruct (toggleIdeaVote_body now ideaId uid d) as [[r0|] d0]; [|done].
    by injection Hcall as _ <-.
  - pose proof (toggleIdeaVote_thrown ideaId uid now d) as Hsame.
    destruct (toggleIdeaVote_sequences now ideaId uid d)
      as (Hv & Hg & Hr & Hm & Hi).
    rewrite Hcall in Hsame, Hv, Hg, Hr, Hm, Hi. cbn [fst snd] in *.
    apply (base_ok_ahead d); [by apply Hsame|lia..| |done].
    rewrite Hv. destruct (_ && _); lia.
Qed.

Lemma base_ok_createMessage message d :
  base_ok d → base_ok (createMessage message d).2.
Proof.
  intros [Hfk (KU & KG & KR & KM & KI & KV)]. unfold createMessage.
  destruct (message_bound message && int4 (messages_seq d)); cbn [negb];
    [|done].
  cbn zeta. destruct (message_refs message d) eqn:Hrefs; cbn [snd].
  2:{ split; [done|]. split_and!; try done.
      eapply serial_ok_ahead; [|exact KM]. cbn. lia. }
  unfold message_refs in Hrefs.
  apply andb_prop in Hrefs as [[Hf Ht]%andb_prop Hg].
  rewrite nullable_ref_iff in Ht, Hg. split.
  - apply fk_all_iff in Hfk as (FM & FG & FR & FI & FV). apply fk_all_iff.
    split_and!; try done.
    intros m [Hm|Hm%list_elem_of_singleton]%elem_of_app; [by apply FM|].
    by subst m.
  - split_and!; try done. by apply serial_ok_snoc.
Qed.

Lemma on_message_created readyState now ws data st :
  db (on_message readyState now ws data st).1 = db st
  ∨ ∃ message,
      db (on_message readyState now ws data st).1
      = (createMessage message (db st)).2.
Proof.
  destruct data as [message|]; [|by left].
  destruct message as [from to text|from gid text|from to b|from gid b].
  - right. exists (direct_message from to text now).
    cbn [on_message ws_fromUserId]. cbn zeta. rewrite register_db.
    by destruct (createMessage _ _) as [[row|] d'].
  - cbn [on_message ws_fromUserId]. cbn zeta. rewrite register_db.
    destruct (isGroupMember gid from (db st)) as [[|]|];
      [|left; apply register_db..].
    right. exists (group_message from gid text now).
    destruct (createMessage _ _) as [[row|] d']; [|done].
    by destruct (getGroupMembers _ _).
  - left. cbn [on_message ws_fromUserId fst]. cbn zeta. apply register_db.
  - left. rewrite on_message_group_typing. apply register_db.
Qed.

Lemma base_ok_run es st : base_ok (db st) → base_ok (db (run es st).1).
Proof.
  revert st. induction es as [|e rest IH]; intros st Hok; [done|].
  rewrite run_cons_fst. apply IH.
  destruct e as [readyState now ws data|ws]; cbn [step fst].
  - destruct (on_message_created readyState now ws data st)
      as [->|(message & ->)]; [done|].
    by apply base_ok_createMessage.
  - by rewrite on_close_db.
Qed.

Lemma base_ok_exec c d : base_ok d → base_ok (exec c d).
Proof.
  intros Hok. destruct c as [| | | | | | | | |cl ids es]; cbn [exec].
  - by apply base_ok_createGroup.
  - by apply base_ok_addGroupMember.
  - by apply base_ok_removeGroupMember.
  - by apply base_ok_transferGroupOwnership.
  - by apply base_ok_deleteGroup.
  - by apply base_ok_deleteUser.
  - by apply base_ok_createIdea.
  - by apply base_ok_toggleIdeaVote.
  - by apply base_ok_deleteIdea.
  - by apply (base_ok_run es {| clients := cl; userId := ids; db := d |}).
Qed.

(** ** No user is in a group twice *)

Lemma memberships_unique_addGroupMember gid uid :
  keeps memberships_unique (addGroupMember gid uid).
Proof.
  intros d Hd. rewrite addGroupMember_eq.
  destruct (bound [gid; uid]); cbn [negb]; [|done].
  destruct (member_row gid uid d) eqn:Hm; [done|].
  destruct (int4 (groupMembers_seq d)); cbn [negb]; [|done].
  destruct (user_exists d uid && group_exists d gid); [|done].
  cbn [snd]. unfold member_added, memberships_unique.
  cbn [groupMembers set_groupMembers].
  apply NoDup_fmap_snoc; [done|]. intros r Hr [= Hg Hu].
  rewrite member_row_false in Hm. by apply (Hm r Hr).
Qed.

Lemma memberships_unique_createGroup name owner :
  keeps memberships_unique (createGroup name owner).
Proof.
  intros d Hd. rewrite createGroup_eq.
  destruct (int4 owner && pg_text name && int4 (groups_seq d)); cbn [negb];
    [|done].
  destruct (user_exists d owner); cbn [negb]; [|done]. cbn zeta.
  match goal with |- context [addGroupMember ?g ?o ?d1] =>
    pose proof (memberships_unique_addGroupMember g o d1 Hd) as H end.
  by destruct (addGroupMember _ _ _) as [[?|] d2].
Qed.

Lemma memberships_unique_removeGroupMember gid uid :
  keeps memberships_unique (removeGroupMember gid uid).
Proof.
  intros d Hd. rewrite removeGroupMember_eq.
  destruct (bound [gid; uid]); cbn [negb]; [|done].
  destruct (member_row gid uid d && negb (owner_row gid uid d)); [|done].
  by apply NoDup_fmap_filter.
Qed.

Lemma memberships_unique_transferGroupOwnership gid cur new :
  keeps memberships_unique (transferGroupOwnership gid cur new).
Proof.
  intros d Hd. rewrite transferGroupOwnership_eq.
  destruct (bound [gid; cur]); cbn [negb]; [|done].
  destruct (owner_row gid cur d); cbn [negb]; [|done].
  destruct (int4 new); cbn [negb]; [|done].
  destruct (member_row gid new d); cbn [negb]; [|done].
  by destruct (user_exists d new).
Qed.

Lemma memberships_unique_deleteGroup gid uid :
  keeps memberships_unique (deleteGroup gid uid).
Proof.
  intros d Hd. rewrite deleteGroup_eq.
  destruct (bound [gid; uid]); cbn [negb]; [|done].
  destruct (owner_row gid uid d); [|done].
  by apply NoDup_fmap_filter.
Qed.

Lemma memberships_unique_deleteUser id :
  keeps memberships_unique (deleteUser id).
Proof.
  intros d Hd. rewrite deleteUser_cascade.
  destruct (int4 id); cbn [negb]; [|done].
  destruct (user_exists d id && has_ideas_or_votes d id);
    by apply NoDup_fmap_filter.
Qed.

(** ** The owner of every group is one of its members *)

Lemma owners_grow d d' :
  groups d' = groups d →
  (∀ g u, member_row g u d = true → member_row g u d' = true) →
  owners_are_members d → owners_are_members d'.
Proof.
  unfold owners_are_members. intros -> Hm Hd.
  eapply Forall_impl; [exact Hd|]. cbn beta. intros g. apply Hm.
Qed.

Lemma owners_addGroupMember gid uid :
  keeps owners_are_members (addGroupMember gid uid).
Proof.
  intros d Hd. rewrite addGroupMember_eq.
  destruct (bound [gid; uid]); cbn [negb]; [|done].
  destruct (member_row gid uid d) eqn:Hm; [done|].
  destruct (int4 (groupMembers_seq d)); cbn [negb]; [|done].
  destruct (user_exists d uid && group_exists d gid); [|done].
  cbn [snd]. apply (owners_grow d); [done| |done].
  intros g u Hgu. rewrite member_added_row. by case_bool_decide.
Qed.

(** [createGroup] inserts the group and then the membership of its
    owner, without a transaction: the owner is a member afterwards when
    the second insert has an id to draw. *)
Lemma owners_createGroup name owner d :
  int4 (groupMembers_seq d) = true →
  owners_are_members d →
  owners_are_members (createGroup name owner d).2.
Proof.
  intros Hseq Hd. rewrite createGroup_eq.
  destruct (int4 owner && pg_text name && int4 (groups_seq d)) eqn:Hb;
    cbn [negb]; [|done].
  destruct (user_exists d owner) eqn:Hu; cbn [negb]; [|done]. cbn zeta.
  set (created := {| group_id := groups_seq d; group_name := name;
                     ownerId := owner |}).
  set (d1 := set_groups (groups d ++ [created])
                        (set_groups_seq (groups_seq d + 1) d)).
  apply andb_prop in Hb as [[Ho _]%andb_prop Hgs].
  assert (Hbound : bound [groups_seq d; owner] = true)
    by by rewrite bound_pair, Hgs, Ho.
  assert (Hex : user_exists d1 owner && group_exists d1 (groups_seq d) = true).
  { apply andb_true_intro. split; [done|]. apply group_exists_iff.
    split; [done|]. exists created. split; [|done].
    unfold d1. cbn [groups set_groups]. apply elem_of_app. right. left. }
  rewrite addGroupMember_eq, Hbound. cbn [negb].
  destruct (member_row (groups_seq d) owner d1) eqn:Hm.
  { cbn [snd]. unfold owners_are_members, d1. cbn [groups set_groups].
    apply Forall_app. split; [exact Hd|]. by apply Forall_singleton. }
  change (groupMembers_seq d1) with (groupMembers_seq d).
  rewrite Hseq, Hex. cbn [negb snd].
  unfold owners_are_members.
  change (groups (member_added (groups_seq d) owner d1))
    with (groups d ++ [created]).
  apply Forall_app. split.
  - eapply Forall_impl; [exact Hd|]. cbn beta. intros g Hg.
    rewrite member_added_row. case_bool_decide; [done|]. exact Hg.
  - apply Forall_singleton. rewrite member_added_row.
    by rewrite bool_decide_true.
Qed.

Lemma owners_removeGroupMember gid uid :
  keeps owners_are_members (removeGroupMember gid uid).
Proof.
  intros d Hd. rewrite removeGroupMember_eq.
  destruct (bound [gid; uid]); cbn [negb]; [|done].
  destruct (member_row gid uid d && negb (owner_row gid uid d)) eqn:Hrem;
    [|done].
  apply andb_prop in Hrem as [_ Hown%negb_true_iff].
  cbn [snd]. unfold owners_are_members in *. cbn [groups set_groupMembers].
  rewrite Forall_forall in Hd. apply Forall_forall. intros g Hg.
  rewrite member_row_delete_pair. rewrite bool_decide_false; [by apply Hd|].
  intros [Hid Ho]. apply not_true_iff_false in Hown. apply Hown.
  apply owner_row_true. eauto.
Qed.

Lemma owners_transferGroupOwnership gid cur new :
  keeps owners_are_members (transferGroupOwnership gid cur new).
Proof.
  intros d Hd. rewrite transferGroupOwnership_eq.
  destruct (bound [gid; cur]); cbn [negb]; [|done].
  destruct (owner_row gid cur d); cbn [negb]; [|done].
  destruct (int4 new); cbn [negb]; [|done].
  destruct (member_row gid new d) eqn:Hm; cbn [negb]; [|done].
  destruct (user_exists d new); [|done].
  cbn [snd]. unfold owners_are_members, owner_changed in *.
  cbn [groups set_groups]. apply Forall_fmap.
  eapply Forall_impl; [exact Hd|]. cbn beta. intros g Hg. unfold compose.
  change (member_row ?a ?b (set_groups _ d)) with (member_row a b d).
  destruct (Z.eqb_spec (group_id g) gid) as [Heq|Hne]; [|done].
  cbn [group_id ownerId]. by rewrite Heq.
Qed.

Lemma owners_deleteGroup gid uid :
  keeps owners_are_members (deleteGroup gid uid).
Proof.
  intros d Hd. rewrite deleteGroup_eq.
  destruct (bound [gid; uid]); cbn [negb]; [|done].
  destruct (owner_row gid uid d); [|done].
  cbn [snd]. destruct (group_deleted_facts gid d)
    as (_ & _ & _ & _ & Hg & Hr & _).
  unfold owners_are_members in *. rewrite Forall_forall in Hd.
  apply Forall_forall. intros g [Hin Hne]%Hg.
  specialize (Hd g Hin). apply member_row_true in Hd as (r & Hrin & Hrg & Hru).
  apply member_row_true. exists r. split; [|done]. apply Hr.
  split; [done|congruence].
Qed.

Lemma owners_after_cascade id d :
  NoDup (group_id <$> groups d) →
  owners_are_members d → owners_are_members (after_cascade id d).
Proof.
  intros Hnd Hd. destruct (after_cascade_facts id d) as (_ & Hg & Hr & _).
  unfold owners_are_members in *. rewrite Forall_forall in Hd.
  apply Forall_forall. intros g [Hin Hne]%Hg.
  specialize (Hd g Hin). apply member_row_true in Hd as (r & Hrin & Hrg & Hru).
  apply member_row_true. exists r. split; [|done]. apply Hr.
  split; [done|]. split; [congruence|].
  apply not_true_iff_false. intros (g0 & Hg0 & Hid0 & Hown0)%owner_row_true.
  assert (g0 = g) as ->; [|done].
  eapply (NoDup_fmap_eq group_id); [done..|congruence].
Qed.

Lemma owners_deleteUser id d :
  base_ok d →
  owners_are_members d →
  owners_are_members (deleteUser id d).2.
Proof.
  intros [_ (_ & [Hnd _] & _)] Hd. rewrite deleteUser_cascade.
  destruct (int4 id); cbn [negb]; [|done].
  destruct (user_exists d id && has_ideas_or_votes d id);
    by apply owners_after_cascade.
Qed.

(** ** The vote count of every idea is the number of its vote rows *)

Lemma length_filter_split {A} (P Q : A → Prop) `{∀ a, Decision (P a)}
    `{∀ a, Decision (Q a)} (l : list A) :
  length (filter P l)
  = (length (filter (λ a, P a ∧ Q a) l)
     + length (filter (λ a, P a ∧ ¬ Q a) l))%nat.
Proof.
  induction l as [|a l IH]; [done|].
  destruct (decide (P a)) as [HP|HP]; destruct (decide (Q a)) as [HQ|HQ].
  - rewrite (filter_cons_True P), (filter_cons_True (λ a, P a ∧ Q a)),
      (filter_cons_False (λ a, P a ∧ ¬ Q a)) by tauto. simpl. lia.
  - rewrite (filter_cons_True P), (filter_cons_False (λ a, P a ∧ Q a)),
      (filter_cons_True (λ a, P a ∧ ¬ Q a)) by tauto. simpl. lia.
  - rewrite (filter_cons_False P), (filter_cons_False (λ a, P a ∧ Q a)),
      (filter_cons_False (λ a, P a ∧ ¬ Q a)) by tauto. done.
  - rewrite (filter_cons_False P), (filter_cons_False (λ a, P a ∧ Q a)),
      (filter_cons_False (λ a, P a ∧ ¬ Q a)) by tauto. done.
Qed.

Lemma votes_consistent_vote_added now ideaId uid d :
  has_vote_row d ideaId uid = false →
  votes_consistent d → votes_consistent (vote_added now ideaId uid d).
Proof.
  intros Hrow [Hnd Hcount].
  unfold has_vote_row in Hrow. rewrite existsb_false in Hrow.
  unfold vote_added.
  split; cbn [ideas ideaVotes set_ideas set_ideaVotes set_ideaVotes_seq].
  - apply NoDup_fmap_snoc; [done|]. intros v Hv [= Hi Hu].
    specialize (Hrow v Hv). apply not_true_iff_false in Hrow.
    apply Hrow, vote_of_iff. done.
  - apply Forall_fmap. eapply Forall_impl; [exact Hcount|]. cbn beta.
    intros i Hi. unfold compose.
    destruct (bump_keys ideaId 1 i) as (-> & _).
    rewrite filter_app, length_app. unfold bump_votes.
    destruct (Z.eqb_spec (idea_id i) ideaId) as [Heq|Hne]; cbn [votes add_votes].
    + rewrite filter_cons_True by done. simpl. lia.
    + rewrite filter_cons_False by (cbn; congruence). simpl. lia.
Qed.

Lemma votes_consistent_vote_removed ideaId uid d :
  has_vote_row d ideaId uid = true →
  votes_consistent d → votes_consistent (vote_removed ideaId uid d).
Proof.
  intros Hrow [Hnd Hcount].
  unfold has_vote_row in Hrow. apply existsb_true in Hrow as (v0 & Hv0 & Hmine).
  unfold vote_removed.
  split; cbn [ideas ideaVotes set_ideas set_ideaVotes].
  - by apply NoDup_fmap_filter.
  - apply Forall_fmap. eapply Forall_impl; [exact Hcount|]. cbn beta.
    intros i Hi. unfold compose.
    destruct (bump_keys ideaId (-1) i) as (-> & _).
    rewrite list_filter_filter. unfold bump_votes.
    destruct (Z.eqb_spec (idea_id i) ideaId) as [Heq|Hne]; cbn [votes add_votes].
    + rewrite Hi, Heq.
      rewrite (length_filter_split (λ v, vote_ideaId v = ideaId)
                 (λ v, vote_of ideaId uid v = true)).
      assert (Hone : length (filter (λ v, vote_ideaId v = ideaId
                                          ∧ vote_of ideaId uid v = true)
                                    (ideaVotes d)) = 1%nat).
      { apply (length_filter_unique
                 (λ v, (vote_ideaId v, vote_userId v)) _ _ (ideaId, uid));
          [done| |].
        - apply list_elem_of_fmap. exists v0. split; [|done].
          apply vote_of_iff in Hmine as [-> ->]. done.
        - intros v _. rewrite vote_of_iff. split; [by intros [_ [-> ->]]|].
          by intros [= -> ->]. }
      rewrite Hone. lia.
    + rewrite Hi. do 2 f_equal. apply list_filter_iff. intros v.
      rewrite vote_of_iff. split; [|tauto]. intros Hv. split; [done|].
      intros [? _]. congruence.
Qed.

Lemma votes_consistent_tables d d' :
  tables d' = tables d → votes_consistent d → votes_consistent d'.
Proof.
  unfold tables, votes_consistent. by intros [= _ _ _ _ _ -> ->].
Qed.

Lemma votes_consistent_toggle now ideaId uid :
  keeps votes_consistent (toggleIdeaVote now ideaId uid).
Proof.
  intros d Hd.
  destruct (toggleIdeaVote now ideaId uid d) as [[r|] d'] eqn:Hcall.
  - apply toggleIdeaVote_returned in Hcall
      as (_ & _ & [(Hrow & _ & _ & _ & ->)|(Hrow & _ & ->)]); cbn [snd].
    + by apply votes_consistent_vote_added.
    + by apply votes_consistent_vote_removed.
  - pose proof (toggleIdeaVote_thrown ideaId uid now d) as Hsame.
    rewrite Hcall in Hsame. cbn [fst snd] in *.
    by apply (votes_consistent_tables d); [apply Hsame|].
Qed.

Lemma votes_consistent_deleteIdea id :
  keeps votes_consistent (deleteIdea id).
Proof.
  intros d [Hnd Hcount]. rewrite deleteIdea_eq.
  destruct (int4 id); [|done].
  cbn [snd]. split; cbn [ideas ideaVotes set_ideas set_ideaVotes].
  - by apply NoDup_fmap_filter.
  - rewrite Forall_forall in Hcount. apply Forall_forall.
    intros i [Hne Hi]%list_elem_of_filter. rewrite (Hcount i Hi).
    rewrite list_filter_filter. do 2 f_equal. apply list_filter_iff.
    intros v. split; [|tauto]. intros Hv. split; [done|]. congruence.
Qed.

Lemma createIdea_store idea now d :
  (createIdea idea now d).2 = (insert_idea idea now d).2.
Proof.
  unfold createIdea, op_bind at 1.
  destruct (insert_idea idea now d) as [[created|] d1]; [|done].
  unfold op_bind, op_read. cbn [snd].
  destruct (_ <$> filter _ _) as [|[[i [g|]] [u|]] rest]; done.
Qed.

(** In a database that keeps its keys no vote points at the id that the
    sequence of ideas gives next. *)
Lemma next_idea_has_no_votes d v :
  base_ok d → v ∈ ideaVotes d → vote_ideaId v ≠ ideas_seq d.
Proof.
  intros [Hfk (_ & _ & _ & _ & [_ Hseq] & _)] Hv Heq.
  apply fk_all_iff in Hfk as (_ & _ & _ & _ & FV).
  destruct (FV v Hv) as [(_ & i & Hi & Hid)%idea_exists_iff _].
  rewrite Forall_forall in Hseq. specialize (Hseq i Hi). cbn in Hseq. lia.
Qed.

Lemma votes_consistent_createIdea idea now d :
  base_ok d →
  votes_consistent d →
  votes_consistent (createIdea idea now d).2.
Proof.
  intros Hok [Hnd Hcount].
  rewrite createIdea_store. unfold insert_idea.
  destruct (idea_bound idea && int4 (ideas_seq d)); cbn [negb]; [|done].
  cbn zeta. destruct (_ && _); [|done]. cbn [snd].
  split; cbn [ideas ideaVotes set_ideas set_ideas_seq]; [done|].
  apply Forall_app. split; [done|]. apply Forall_singleton.
  cbn [votes idea_id].
  rewrite filter_none; [done|]. intros v Hv Heq.
  by apply (next_idea_has_no_votes d v).
Qed.

(** ** Every call keeps everything *)

Lemma group_invariants_same d d' :
  groups d' = groups d →
  groupMembers d' = groupMembers d →
  owners_are_members d ∧ memberships_unique d →
  owners_are_members d' ∧ memberships_unique d'.
Proof.
  intros Hg Hr [Ho Hu]. unfold owners_are_members, memberships_unique in *.
  rewrite Hg, Hr. split; [|done].
  eapply Forall_impl; [exact Ho|]. cbn beta. intros g.
  unfold member_row. by rewrite Hr.
Qed.

Lemma votes_consistent_same d d' :
  ideas d' = ideas d →
  ideaVotes d' = ideaVotes d →
  votes_consistent d → votes_consistent d'.
Proof. unfold votes_consistent. by intros -> ->. Qed.

Lemma addGroupMember_frame gid uid d :
  let d' := (addGroupMember gid uid d).2 in
  groups d' = groups d ∧ ideas d' = ideas d ∧ ideaVotes d' = ideaVotes d
  ∧ groupMembers_seq d ≤ groupMembers_seq d' ≤ groupMembers_seq d + 1.
Proof.
  intros d'. subst d'. rewrite addGroupMember_eq.
  destruct (bound [gid; uid]); cbn [negb snd]; [|split_and!; try done; lia].
  destruct (member_row gid uid d); cbn [snd]; [split_and!; try done; lia|].
  destruct (int4 (groupMembers_seq d)); cbn [negb snd];
    [|split_and!; try done; lia].
  destruct (user_exists d uid && group_exists d gid); cbn [snd];
    split_and!; try done; cbn; lia.
Qed.

Lemma toggleIdeaVote_group_tables now ideaId uid d :
  groups (toggleIdeaVote now ideaId uid d).2 = groups d
  ∧ groupMembers (toggleIdeaVote now ideaId uid d).2 = groupMembers d.
Proof.
  destruct (toggleIdeaVote now ideaId uid d) as [[r|] d'] eqn:Hcall.
  - by apply toggleIdeaVote_returned in Hcall
      as (_ & _ & [(_ & _ & _ & _ & ->)|(_ & _ & ->)]).
  - pose proof (toggleIdeaVote_thrown ideaId uid now d) as Hsame.
    rewrite Hcall in Hsame. specialize (Hsame eq_refl). cbn [snd] in *.
    unfold tables in Hsame. by injection Hsame as _ -> -> _ _ _ _.
Qed.

(** What a call leaves alone: the group and user functions the tables of
    the ideas, the idea functions and the relay those of the groups.  No
    call draws more than one membership id. *)
Lemma exec_frame c d :
  groupMembers_seq d ≤ groupMembers_seq (exec c d) ≤ groupMembers_seq d + 1
  ∧ match c with
    | CreateIdea _ _ | ToggleIdeaVote _ _ _ | DeleteIdea _ =>
        groups (exec c d) = groups d
        ∧ groupMembers (exec c d) = groupMembers d
    | Relayed _ _ _ =>
        groups (exec c d) = groups d
        ∧ groupMembers (exec c d) = groupMembers d
        ∧ ideas (exec c d) = ideas d
        ∧ ideaVotes (exec c d) = ideaVotes d
    | _ => ideas (exec c d) = ideas d ∧ ideaVotes (exec c d) = ideaVotes d
    end.
Proof.
  destruct c as [name owner|gid uid|gid uid|gid cur new|gid uid|id|idea now
                |now ideaId uid|id|cl ids es]; cbn [exec].
  - rewrite createGroup_eq.
    destruct (int4 owner && pg_text name && int4 (groups_seq d)); cbn [negb snd];
      [|split_and!; try done; lia].
    destruct (user_exists d owner); cbn [negb snd];
      [|split_and!; try done; cbn; lia].
    cbn zeta.
    match goal with |- context [addGroupMember ?g ?o ?d1] =>
      destruct (addGroupMember_frame g o d1) as (_ & Hi & Hv & Hs) end.
    destruct (addGroupMember _ _ _) as [[?|] d2]; cbn [snd] in *;
      split_and!; try done; cbn in *; lia.
  - destruct (addGroupMember_frame gid uid d) as (_ & Hi & Hv & Hs).
    split_and!; try done; lia.
  - rewrite removeGroupMember_eq.
    destruct (bound [gid; uid]); cbn [negb snd]; [|split_and!; try done; lia].
    destruct (_ && _); cbn [snd]; split_and!; try done; cbn; lia.
  - rewrite transferGroupOwnership_eq.
    destruct (bound [gid; cur]); cbn [negb snd]; [|split_and!; try done; lia].
    destruct (owner_row gid cur d); cbn [negb snd];
      [|split_and!; try done; lia].
    destruct (int4 new); cbn [negb snd]; [|split_and!; try done; lia].
    destruct (member_row gid new d); cbn [negb snd];
      [|split_and!; try done; lia].
    destruct (user_exists d new); cbn [snd]; split_and!; try done; cbn; lia.
  - rewrite deleteGroup_eq.
    destruct (bound [gid; uid]); cbn [negb snd]; [|split_and!; try done; lia].
    destruct (owner_row gid uid d); cbn [snd]; split_and!; try done; cbn; lia.
  - rewrite deleteUser_cascade.
    destruct (int4 id); cbn [negb snd]; [|split_and!; try done; lia].
    destruct (_ && _); cbn [snd]; split_and!; try done; cbn; lia.
  - rewrite createIdea_store. unfold insert_idea.
    destruct (idea_bound idea && int4 (ideas_seq d)); cbn [negb snd];
      [|split_and!; try done; lia].
    cbn zeta. destruct (_ && _); cbn [snd]; split_and!; try done; cbn; lia.
  - destruct (toggleIdeaVote_sequences now ideaId uid d) as (_ & _ & Hr & _).
    destruct (toggleIdeaVote_group_tables now ideaId uid d) as (Hg & Hm).
    split_and!; try done; lia.
  - rewrite deleteIdea_eq.
    destruct (int4 id); cbn [snd]; split_and!; try done; cbn; lia.
  - destruct (run_inserted es {| clients := cl; userId := ids; db := d |})
      as (new & Hins & _).
    apply inserted_tables in Hins
      as (_ & Hg & Hr & _ & _ & Hi & Hv & _ & Hs & _).
    cbn [db] in *. split_and!; try done; lia.
Qed.

Lemma store_ok_exec c d :
  int4 (groupMembers_seq d) = true →
  store_ok d → store_ok (exec c d).
Proof.
  intros Hseq (Hbase & Hown & Huniq & Hvotes).
  pose proof (base_ok_exec c d Hbase) as Hbase'.
  destruct (exec_frame c d) as [_ Hframe].
  split; [done|].
  destruct c as [name owner|gid uid|gid uid|gid cur new|gid uid|id|idea now
                |now ideaId uid|id|cl ids es]; cbn [exec] in *.
  - destruct Hframe as [Hi Hv]. split_and!.
    + by apply owners_createGroup.
    + by apply memberships_unique_createGroup.
    + by apply (votes_consistent_same d).
  - destruct Hframe as [Hi Hv]. split_and!.
    + by apply owners_addGroupMember.
    + by apply memberships_unique_addGroupMember.
    + by apply (votes_consistent_same d).
  - destruct Hframe as [Hi Hv]. split_and!.
    + by apply owners_removeGroupMember.
    + by apply memberships_unique_removeGroupMember.
    + by apply (votes_consistent_same d).
  - destruct Hframe as [Hi Hv]. split_and!.
    + by apply owners_transferGroupOwnership.
    + by apply memberships_unique_transferGroupOwnership.
    + by apply (votes_consistent_same d).
  - destruct Hframe as [Hi Hv]. split_and!.
    + by apply owners_deleteGroup.
    + by apply memberships_unique_deleteGroup.
    + by apply (votes_consistent_same d).
  - destruct Hframe as [Hi Hv]. split_and!.
    + by apply owners_deleteUser.
    + by apply memberships_unique_deleteUser.
    + by apply (votes_consistent_same d).
  - destruct Hframe as [Hg Hr].
    destruct (group_invariants_same d _ Hg Hr (conj Hown Huniq)).
    split_and!; try done. by apply votes_consistent_createIdea.
  - destruct Hframe as [Hg Hr].
    destruct (group_invariants_same d _ Hg Hr (conj Hown Huniq)).
    split_and!; try done. by apply votes_consistent_toggle.
  - destruct Hframe as [Hg Hr].
    destruct (group_invariants_same d _ Hg Hr (conj Hown Huniq)).
    split_and!; try done. by apply votes_consistent_deleteIdea.
  - destruct Hframe as (Hg & Hr & Hi & Hv).
    destruct (group_invariants_same d _ Hg Hr (conj Hown Huniq)).
    split_and!; try done. by apply (votes_consistent_same d).
Qed.

Lemma store_ok_exec_all cs d :
  store_ok d →
  int4_min ≤ groupMembers_seq d →
  groupMembers_seq d + Z.of_nat (length cs) ≤ int4_max + 1 →
  store_ok (exec_all cs d).
Proof.
  revert d. induction cs as [|c cs IH]; intros d Hok Hlo Hhi; [done|].
  cbn [length] in Hhi. destruct (exec_frame c d) as [[Hs1 Hs2] _].
  change (exec_all (c :: cs) d) with (exec_all cs (exec c d)).
  apply IH; [|lia..].
  apply store_ok_exec; [|done]. apply int4_spec. lia.
Qed.

Lemma base_ok_exec_all cs d : base_ok d → base_ok (exec_all cs d).
Proof.
  revert d. induction cs as [|c cs IH]; intros d Hok; [done|].
  change (exec_all (c :: cs) d) with (exec_all cs (exec c d)).
  by apply IH, base_ok_exec.
Qed.

(** ** [createIdea] *)

Lemma createIdea_accepted idea now d :
  base_ok d →
  idea_bound idea && int4 (ideas_seq d)
  && game_exists d (ins_gameId idea) && user_exists d (ins_userId idea) = true →
  let created :=
    {| idea_id := ideas_seq d; gameId := ins_gameId idea;
       idea_userId := ins_userId idea; title := ins_title idea;
       description := ins_description idea; votes := 0;
       idea_createdAt := now |} in
  (∃ r, (createIdea idea now d).1 = Some r
        ∧ iwr_idea r = created ∧ has_voted r = false)
  ∧ (createIdea idea now d).2
    = set_ideas (ideas d ++ [created]) (set_ideas_seq (ideas_seq d + 1) d)
  ∧ filter (λ i, idea_id i = ideas_seq d) (ideas d ++ [created]) = [created]
  ∧ (∀ u, has_vote_row d (ideas_seq d) u = false).
Proof.
  intros Hok Hacc created.
  apply andb_prop in Hacc as [[Hb Hg]%andb_prop Hu].
  assert (Hfil : filter (λ i, idea_id i = ideas_seq d) (ideas d ++ [created])
                 = [created]).
  { rewrite filter_app, filter_none; [by rewrite filter_cons_True|].
    intros i Hi Heq. destruct Hok as [_ (_ & _ & _ & _ & [_ Hseq] & _)].
    rewrite Forall_forall in Hseq. specialize (Hseq i Hi). cbn in Hseq. lia. }
  assert (Hrows : ∀ u, has_vote_row d (ideas_seq d) u = false).
  { intros u. unfold has_vote_row. apply existsb_false. intros v Hv.
    apply not_true_iff_false. intros [Hid _]%vote_of_iff.
    by apply (next_idea_has_no_votes d v). }
  split_and!; [| |done|done].
  - unfold createIdea, op_bind, op_read, insert_idea.
    rewrite Hb, Hg, Hu. cbn [negb andb]. cbn zeta.
    fold created. cbn [ideas set_ideas idea_id created games users
                       set_ideas_seq].
    rewrite Hfil. cbn [fmap list_fmap gameId idea_userId created].
    apply game_exists_iff in Hg as (_ & g & Hg & Hgid).
    apply user_exists_iff in Hu as (_ & u & Hu & Huid).
    destruct (filter (λ g, game_id g = ins_gameId idea) (games d))
      as [|g0 gs] eqn:Hgs.
    { assert (g ∈ filter (λ g, game_id g = ins_gameId idea) (games d)) as Hin
        by by apply list_elem_of_filter.
      rewrite Hgs in Hin. by apply elem_of_nil in Hin. }
    destruct (filter (λ u, user_id u = ins_userId idea) (users d))
      as [|u0 us] eqn:Hus.
    { assert (u ∈ filter (λ u, user_id u = ins_userId idea) (users d)) as Hin
        by by apply list_elem_of_filter.
      rewrite Hus in Hin. by apply elem_of_nil in Hin. }
    cbn [head]. eexists. cbn. done.
  - rewrite createIdea_store. unfold insert_idea.
    by rewrite Hb, Hg, Hu.
Qed.

(** X20.  [createIdea] throws and changes no table when the game or the
    user does not exist, an id is no [int4], the title or the description
    holds U+0000, or no idea id is left; the sequence keeps the id the
    insert drew, if the parameters were bound.  Otherwise, in a database
    that keeps its keys, it returns the new idea with [hasVoted] false: the
    idea has the next id of the sequence, no votes and no vote rows, and is
    appended to the table. *)
Theorem createIdea_spec idea now d :
  let created :=
    {| idea_id := ideas_seq d; gameId := ins_gameId idea;
       idea_userId := ins_userId idea; title := ins_title idea;
       description := ins_description idea; votes := 0;
       idea_createdAt := now |} in
  let accepted :=
    idea_bound idea && int4 (ideas_seq d)
    && game_exists d (ins_gameId idea) && user_exists d (ins_userId idea) in
  let d' := (createIdea idea now d).2 in
  (accepted = false →
   (createIdea idea now d).1 = None
   ∧ tables d' = tables d
   ∧ ideas_seq d' = (if idea_bound idea && int4 (ideas_seq d)
                     then ideas_seq d + 1 else ideas_seq d)
   ∧ ideaVotes_seq d' = ideaVotes_seq d)
  ∧ (accepted = true →
     base_ok d →
     (∃ r, (createIdea idea now d).1 = Some r
           ∧ iwr_idea r = created ∧ has_voted r = false)
     ∧ ideas d' = ideas d ++ [created]
     ∧ ideas_seq d' = ideas_seq d + 1
     ∧ votes_of d' (ideas_seq d) = Some 0
     ∧ (∀ u, has_vote_row d' (ideas_seq d) u = false)).
Proof.
  intros created accepted d'. subst accepted d'. split.
  - intros Hno.
    assert (Heq : createIdea idea now d
                  = (None, if idea_bound idea && int4 (ideas_seq d)
                           then set_ideas_seq (ideas_seq d + 1) d else d)).
    { unfold createIdea, op_bind, insert_idea.
      destruct (idea_bound idea && int4 (ideas_seq d)); cbn [negb andb] in *;
        [|done].
      by rewrite Hno. }
    rewrite Heq. by destruct (idea_bound idea && int4 (ideas_seq d)).
  - intros Hacc Hok.
    destruct (createIdea_accepted idea now d Hok Hacc)
      as (Hret & -> & Hfil & Hrows).
    split_and!; [done|done|done| |exact Hrows].
    unfold votes_of. cbn [ideas set_ideas]. fold created in Hfil |- *.
    by rewrite Hfil.
Qed.

(** X21.  The first vote on a new idea: after a [createIdea] that the
    database accepts, in a database that keeps its keys and has a vote id
    left, [toggleIdeaVote] by any user returns with [hasVoted] true and
    leaves the idea with one vote, the user's. *)
Theorem createIdea_then_first_vote idea now now' uid d :
  base_ok d →
  idea_bound idea && int4 (ideas_seq d)
  && game_exists d (ins_gameId idea) && user_exists d (ins_userId idea) = true →
  user_exists d uid = true →
  int4 (ideaVotes_seq d) = true →
  ∃ r d',
    toggleIdeaVote now' (ideas_seq d) uid (createIdea idea now d).2
    = (Some r, d')
    ∧ has_voted r = true
    ∧ votes_of d' (ideas_seq d) = Some 1
    ∧ has_vote_row d' (ideas_seq d) uid = true.
Proof.
  intros Hok Hacc Hu Hseq.
  pose proof (base_ok_createIdea idea now d Hok) as [Hfk _].
  destruct (createIdea_accepted idea now d Hok Hacc)
    as (_ & Hd1 & Hfil & Hrows).
  rewrite Hd1 in *.
  match type of Hfil with filter _ (_ ++ [?c]) = _ => set (created := c) in * end.
  set (d1 := set_ideas (ideas d ++ [created])
                       (set_ideas_seq (ideas_seq d + 1) d)) in *.
  assert (Hint : int4 (ideas_seq d) = true).
  { by apply andb_prop in Hacc as [[[_ ?]%andb_prop _]%andb_prop _]. }
  assert (Hi1 : idea_exists d1 (ideas_seq d) = true).
  { unfold idea_exists. rewrite Hint. unfold d1. cbn [ideas set_ideas andb].
    rewrite existsb_app. cbn. rewrite Z.eqb_refl. by rewrite orb_true_r. }
  assert (Hfk1 : fk_ideas d1 = true).
  { unfold fk_all in Hfk. by repeat (apply andb_prop in Hfk as [Hfk ?]). }
  assert (Hrow1 : has_vote_row d1 (ideas_seq d) uid = false) by apply Hrows.
  assert (Hfit : votes_fit d1 (ideas_seq d)
                   (if has_vote_row d1 (ideas_seq d) uid then -1 else 1) = true).
  { rewrite Hrow1. unfold votes_fit, d1. cbn [ideas set_ideas].
    rewrite forallb_app. apply andb_true_intro. split.
    - apply forallb_true. intros i Hi.
      destruct Hok as [_ (_ & _ & _ & _ & [_ Hlt] & _)].
      rewrite Forall_forall in Hlt. specialize (Hlt i Hi). cbn in Hlt.
      rewrite (proj2 (Z.eqb_neq _ _)) by lia. done.
    - cbn. by rewrite orb_true_r. }
  destruct (toggle_once (ideas_seq d) uid now' d1 Hi1 Hu Hfk1 Hfit (λ _, Hseq))
    as (r & d' & Heq & _ & Hrow & Hcount & _ & _ & Hvoted & _).
  exists r, d'. rewrite Hrow1 in Hrow, Hcount.
  assert (Hv1 : votes_of d1 (ideas_seq d) = Some 0).
  { unfold votes_of, d1. cbn [ideas set_ideas]. by rewrite Hfil. }
  rewrite Hv1 in Hcount. cbn in Hrow, Hcount.
  split_and!; try done. by rewrite Hvoted.
Qed.

(** ** Sequences of calls *)

(** X22.  From a database where the foreign keys hold, the primary keys
    are unique and behind their sequences, every owner is a member of
    their group, no user is in a group twice, no user has two votes on an
    idea and every idea's [votes] is the number of its vote rows, any
    sequence of calls of the storage layer and runs of the relay,
    returning or throwing, leads to a database where all of this holds
    again, as long as the sequence of membership ids has an id left for
    every call: [createGroup] inserts the group and then the membership of
    its owner without a transaction. *)
Theorem calls_keep_store_ok cs d :
  store_ok d →
  int4_min ≤ groupMembers_seq d →
  groupMembers_seq d + Z.of_nat (length cs) ≤ int4_max + 1 →
  store_ok (exec_all cs d).
Proof. apply store_ok_exec_all. Qed.

(** X23.  The foreign keys and the primary keys, with every serial key
    behind its sequence, are kept by every sequence of calls, whatever is
    left in the sequences: they do not depend on the group and vote
    invariants. *)
Theorem calls_keep_keys cs d :
  base_ok d → base_ok (exec_all cs d).
Proof. apply base_ok_exec_all. Qed.

(** * The further properties at concrete states *)

Lemma db_example_ok : store_ok db_example.
Proof.
  unfold store_ok, base_ok, keys_ok, serial_ok, owners_are_members,
    memberships_unique, votes_consistent.
  split_and!; try reflexivity;
    by (apply (bool_decide_unpack _); vm_compute).
Qed.


(** There is no user 9. *)
Lemma direct_message_rejected_witness :
  insertable (direct_message 4 (Some 9) "hi" 1000) (db relay_example) = false
  ∧ (on_message all_open 1000 14%nat (Some (DirectChatMessage 4 (Some 9) "hi"))
       relay_example).2 = []
  ∧ clients (on_message all_open 1000 14%nat
               (Some (DirectChatMessage 4 (Some 9) "hi")) relay_example).1 !! 4
    = Some 14%nat.
Proof.
  split; [reflexivity|].
  destruct (direct_message_rejected all_open 1000 14%nat 4 (Some 9) "hi"
              relay_example eq_refl) as (Hsent & _ & Hreg).
  split; [exact Hsent|]. apply Hreg. discriminate.
Defined.


(** Socket 21 sends as user 1, then as user 3, then closes. *)
Lemma close_leaves_earlier_registration_witness :
  let st' :=
    (run [ Arrives all_open 1000 21%nat (Some (TypingStatus 1 2 true));
           Arrives all_open 1001 21%nat (Some (TypingStatus 3 2 true));
           Closes 21%nat ] relay_start).1 in
  (1 ≠ 0 ∧ 3 ≠ 0 ∧ 1 ≠ 3)
  ∧ clients st' !! 1 = Some 21%nat
  ∧ clients st' !! 3 = None.
Proof.
  intros st'. split; [repeat split; discriminate|].
  apply (close_leaves_earlier_registration all_open 1000 all_open 1001 21%nat
           (TypingStatus 1 2 true) (TypingStatus 3 2 true) 1 3 relay_start
           eq_refl eq_refl); discriminate.
Defined.

(** Two typing frames and a close. *)
Lemma typing_is_never_stored_witness :
  let es := [ Arrives all_open 1000 11%nat (Some (TypingStatus 1 2 true));
              Arrives all_open 1001 12%nat (Some (GroupTypingStatus 2 7 true));
              Closes 11%nat ] in
  db (run es relay_example).1 = db relay_example
  ∧ Forall (λ e, frame_type e.2 = "typing" ∨ frame_type e.2 = "groupTyping")
           (run es relay_example).2.
Proof.
  intros es. apply (typing_is_never_stored es relay_example).
  subst es. rewrite !Forall_cons.
  split_and!; [| | |apply Forall_nil_2];
    intros readyState now ws message Heq; [| |discriminate];
    injection Heq as _ _ _ <-; [left|right]; by repeat eexists.
Defined.

(** User 1 hands group 7 to user 2. *)
Lemma transferGroupOwnership_spec_witness :
  fk_groupMembers db_example = true
  ∧ (transferGroupOwnership 7 1 2 db_example).1 = Some true
  ∧ isGroupOwner 7 2 (transferGroupOwnership 7 1 2 db_example).2 = Some true
  ∧ isGroupOwner 7 1 (transferGroupOwnership 7 1 2 db_example).2 ≠ Some true.
Proof.
  split; [reflexivity|].
  destruct (transferGroupOwnership_spec 7 1 2 db_example eq_refl)
    as (Hres & _ & Hafter).
  split; [exact Hres|].
  destruct (Hafter eq_refl) as (Hnew & Hold & _).
  split; [exact Hnew|]. apply Hold. discriminate.
Defined.

Lemma owner_leaves_after_transfer_witness :
  fk_groupMembers db_example = true
  ∧ isGroupOwner 7 1 db_example = Some true
  ∧ isGroupMember 7 1 db_example = Some true
  ∧ isGroupMember 7 2 db_example = Some true
  ∧ 1 ≠ 2
  ∧ removeGroupMember 7 1 db_example = (Some false, db_example)
  ∧ (removeGroupMember 7 1 (transferGroupOwnership 7 1 2 db_example).2).1
    = Some true.
Proof.
  split; [reflexivity|]. split; [reflexivity|]. split; [reflexivity|].
  split; [reflexivity|]. split; [discriminate|].
  destruct (owner_leaves_after_transfer 7 1 2 db_example
              eq_refl eq_refl eq_refl eq_refl) as (Hbefore & _ & Hafter & _).
  { discriminate. }
  split; [exact Hbefore|exact Hafter].
Defined.

(** User 2, removed from group 7, is still connected on socket 12. *)
Lemma removed_member_is_refused_witness :
  let st := set_db (removeGroupMember 7 2 db_example).2 relay_example in
  (removeGroupMember 7 2 db_example).1 = Some true
  ∧ db st = (removeGroupMember 7 2 db_example).2
  ∧ on_message all_open 1000 12%nat (Some (GroupChatMessage 2 7 "hi")) st
    = (register 12%nat 2 st,
       [(12%nat, FrameError "You are not a member of this group")]).
Proof.
  intros st. split; [reflexivity|]. split; [reflexivity|].
  exact (removed_member_is_refused 7 2 db_example all_open 1000 12%nat "hi"
           st eq_refl eq_refl).
Defined.

(** User 1 has an idea and owns group 7. *)
Lemma deleteUser_throws_after_cascade_witness :
  user_exists db_example 1 = true
  ∧ has_ideas_or_votes db_example 1 = true
  ∧ (deleteUser 1 db_example).1 = None
  ∧ user_exists (deleteUser 1 db_example).2 1 = true
  ∧ member_row 7 1 (deleteUser 1 db_example).2 = false
  ∧ groups (deleteUser 1 db_example).2 = [].
Proof.
  split; [reflexivity|]. split; [reflexivity|].
  destruct (deleteUser_throws_after_cascade 1 db_example eq_refl eq_refl)
    as (Hres & Hstill & _ & _ & _ & _ & Hout).
  split; [exact Hres|]. split; [exact Hstill|].
  split; [exact (proj1 (proj2 (Hout 7)))|reflexivity].
Defined.

(** There is no idea 9. *)
Lemma toggleIdeaVote_unknown_idea_or_user_witness :
  idea_exists db_example 9 = false
  ∧ (toggleIdeaVote 1000 9 1 db_example).1 = None
  ∧ tables (toggleIdeaVote 1000 9 1 db_example).2 = tables db_example
  ∧ ideaVotes_seq (toggleIdeaVote 1000 9 1 db_example).2 = 2.
Proof.
  split; [reflexivity|].
  destruct (toggleIdeaVote_unknown_idea_or_user 1000 9 1 db_example)
    as (Hres & Htables & Hseq & _).
  { right. left. reflexivity. }
  split; [exact Hres|]. split; [exact Htables|exact Hseq].
Defined.

(** User 2 posts an idea on game 5; user 3 votes on it. *)
Lemma createIdea_then_first_vote_witness :
  let idea := {| ins_gameId := 5; ins_userId := 2; ins_title := "clocks";
                 ins_description := "blitz clocks" |} in
  base_ok db_example
  ∧ idea_bound idea && int4 (ideas_seq db_example)
    && game_exists db_example (ins_gameId idea)
    && user_exists db_example (ins_userId idea) = true
  ∧ user_exists db_example 3 = true
  ∧ int4 (ideaVotes_seq db_example) = true
  ∧ ∃ r d',
      toggleIdeaVote 1001 4 3 (createIdea idea 1000 db_example).2
      = (Some r, d')
      ∧ has_voted r = true
      ∧ votes_of d' 4 = Some 1.
Proof.
  intros idea. split; [exact (proj1 db_example_ok)|].
  split; [reflexivity|]. split; [reflexivity|]. split; [reflexivity|].
  destruct (createIdea_then_first_vote idea 1000 1001 3 db_example
              (proj1 db_example_ok) eq_refl eq_refl eq_refl)
    as (r & d' & Heq & Hvoted & Hvotes & _).
  exists r, d'. split; [exact Heq|]. split; [exact Hvoted|exact Hvotes].
Defined.

(** A group is created and filled, a vote is cast, a user is deleted. *)
Lemma calls_keep_store_ok_witness :
  store_ok db_example
  ∧ int4_min ≤ groupMembers_seq db_example
  ∧ groupMembers_seq db_example + 4 ≤ int4_max + 1
  ∧ store_ok (exec_all [ CreateGroup "team" 2; AddGroupMember 8 3;
                         ToggleIdeaVote 1000 3 2; DeleteUser 1 ]
                       db_example).
Proof.
  assert (Hlo : int4_min ≤ groupMembers_seq db_example) by (vm_compute; discriminate).
  assert (Hhi : groupMembers_seq db_example + 4 ≤ int4_max + 1)
    by (vm_compute; discriminate).
  split; [exact db_example_ok|]. split; [exact Hlo|]. split; [exact Hhi|].
  exact (calls_keep_store_ok
           [ CreateGroup "team" 2; AddGroupMember 8 3;
             ToggleIdeaVote 1000 3 2; DeleteUser 1 ]
           db_example db_example_ok Hlo Hhi).
Defined.

(** A relay run between two calls. *)
Lemma calls_keep_keys_witness :
  base_ok db_example
  ∧ base_ok (exec_all [ DeleteGroup 7 1;
                        Relayed (clients relay_example) (userId relay_example)
                                reconnect;
                        DeleteIdea 3 ]
                      db_example).
Proof.
  split; [exact (proj1 db_example_ok)|].
  apply (calls_keep_keys _ db_example). exact (proj1 db_example_ok).
Defined.
